(** * PikaGirl clicker: the game-state engine of [docs/script.js]

    A shallow embedding of the handlers that mutate the global [state]
    object of [docs/script.js] (click, purchases, skin shop, prestige,
    timed mode, daily challenge, the interval callbacks), of the
    persistence throttle [throttlePersist] and of [loadPersisted].

    Conventions.
    - The global [state] object is the record [State]; each handler is a
      function from the state before to the state after, the mutations
      written in source order with one [let] per assignment.
    - [Date.now()] and [Math.random()] are arguments of the handler that
      reads them.
    - Every numeric field other than [critChance] only ever receives
      integers (integer literals, sums, differences and [Math.floor]
      results), so it is a [Z]; [critChance] moves in steps of [0.01] and
      is a rational [Q].  The gain of a click and of the auto-click tick,
      which multiplies by [1 + prestigeBonus / 100], is computed in
      binary64, operation by operation ([double_mul], [double_add],
      [double_div]).  The other numbers are written exactly: the product
      of an integer price with [1.5] or [2] needs no rounding below
      [2 ^ 52], and [critChance + 0.01] and the products with
      [Math.random()] are computed in [Q].
    - DOM, audio and toast calls do not touch [state]; they are taken to
      succeed and are left out, except in [loadPersisted], where a throw
      decides which lines run.  [unlockAchievement] is kept because it
      records into [state.achievementsUnlocked]; its call of
      [throttlePersist] is modelled on its own, with its own variables. *)

From Stdlib Require Import ZArith QArith Qround Qminmax DecimalString Lia Lqa.
From stdpp Require Import base decidable option list strings gmap.

Local Open Scope Z_scope.

(** ** JavaScript primitives used by the handlers *)

(** [Math.floor] on a finite number. *)
Definition Math_floor (x : Q) : Z := Qfloor x.
#[global] Arguments Math_floor : simpl never.

(** [a < b] on numbers. *)
Definition Qlt_bool (a b : Q) : bool := negb (Qle_bool b a).

(** [(x).toFixed(0)]: the nearest integer, the larger one on a tie. *)
Definition toFixed0 (x : Q) : Z := Qfloor (x + (1 # 2))%Q.

(** [c || d] on numbers: [0] is the falsy number. *)
Definition or_default (c d : Z) : Z := if c =? 0 then d else c.

(** ** Binary64 arithmetic

    JavaScript numbers are IEEE 754 binary64 values and every arithmetic
    operation returns the binary64 number nearest to the exact result, the
    one with the even significand on a tie.  The finite values are modelled
    by the rationals they denote. *)

(** [2 ^ e] for an integer exponent. *)
Definition Qpow2 (e : Z) : Q :=
  if 0 <=? e then inject_Z (2 ^ e) else 1 # Z.to_pos (2 ^ (- e)).

(** The integer nearest to [x], the even one on a tie. *)
Definition round_half_even (x : Q) : Z :=
  let f := Qfloor x in
  match (x - inject_Z f ?= 1 # 2)%Q with
  | Lt => f
  | Gt => f + 1
  | Eq => if Z.even f then f else f + 1
  end.

(** The binary64 number nearest to a positive [x] below [2 ^ 1024]: with
    [2 ^ k <= x < 2 ^ (k + 1)], the significand has 53 bits, so the last
    place is [2 ^ (k - 52)], and [2 ^ -1074] for the subnormal numbers. *)
Definition double_of_pos (x : Q) : Q :=
  let k := Z.log2 (Qnum x) - Z.log2 (Zpos (Qden x)) in
  let k := if Qle_bool (Qpow2 k) x then k else k - 1 in
  let e := Z.max (k - 52) (-1074) in
  (inject_Z (round_half_even (x / Qpow2 e)) * Qpow2 e)%Q.

(** The binary64 number nearest to [x]. *)
Definition double (x : Q) : Q :=
  match (x ?= 0)%Q with
  | Eq => 0%Q
  | Gt => double_of_pos x
  | Lt => (- double_of_pos (- x))%Q
  end.

(** [a + b], [a * b] and [a / b] on numbers. *)
Definition double_add (a b : Q) : Q := double (a + b).
Definition double_mul (a b : Q) : Q := double (a * b).
Definition double_div (a b : Q) : Q := double (a / b).

#[global] Arguments double : simpl never.
#[global] Arguments double_add : simpl never.
#[global] Arguments double_mul : simpl never.
#[global] Arguments double_div : simpl never.

(** ** Achievements

    [state.achievementsUnlocked] is an object keyed by the message text.
    A key is represented by its template together with the values
    interpolated into it; the list keeps the insertion order of the keys. *)

Inductive Achievement : Type :=
| AchClicks (pseudo : string) (m : Z)   (* "<pseudo> a atteint <m> clics !" *)
| AchAutoClickers (pseudo : string) (n : Z) (* "<pseudo> a atteint <n> Auto-Clickers !" *)
| AchMultiplier (n : Z)                 (* "Multiplicateur x<n> atteint !" *)
| AchCritChance (pct : Z)               (* "Crit% augmente a <pct>%" *)
| AchPrestige (n : Z)                   (* "Prestige #<n>: +10% permanent" *)
| AchTimedStart                         (* "Debut du mode chronometre !" *)
| AchTimedEnd (sc best : Z)             (* "Fin: score <sc>. Meilleur: <best>" *)
| AchDailyStart                         (* "Defi quotidien lance !" *)
| AchDailySuccess (rewardPct : Z)       (* "Defi reussi ! +<rewardPct>% pendant 10 min" *)
| AchBoostEnd                           (* "Fin du boost de 30s." *)
| AchManualSave                         (* "Score sauvegarde manuellement." *)
| AchFrenzy.                            (* "Frenzy: 12 CPS atteint !" *)

#[global] Instance Achievement_eq_dec : EqDecision Achievement.
Proof. solve_decision. Defined.

(** ** The state object *)

(** [state.daily] *)
Record Daily : Type := mkDaily {
  active : bool;
  target : Z;
  rewardPct : Z;
  expiresAt : Z;
  claimedToday : bool
}.

Definition set_active (v : bool) (d : Daily) : Daily :=
  mkDaily v (target d) (rewardPct d) (expiresAt d) (claimedToday d).
Definition set_target (v : Z) (d : Daily) : Daily :=
  mkDaily (active d) v (rewardPct d) (expiresAt d) (claimedToday d).
Definition set_rewardPct (v : Z) (d : Daily) : Daily :=
  mkDaily (active d) (target d) v (expiresAt d) (claimedToday d).
Definition set_expiresAt (v : Z) (d : Daily) : Daily :=
  mkDaily (active d) (target d) (rewardPct d) v (claimedToday d).
Definition set_claimedToday (v : bool) (d : Daily) : Daily :=
  mkDaily (active d) (target d) (rewardPct d) (expiresAt d) v.

(** [const state = { ... }], with the two properties the skin shop adds to
    it: [ownedSkins] (the empty list while it is undefined) and
    [currentSkin]. *)
Record State : Type := mkState {
  pseudo : string;
  score : Z;
  totalClicks : Z;
  autoClickers : Z;
  autoClickCost : Z;
  multiplier : Z;
  multiplierCost : Z;
  critChance : Q;
  critPower : Z;
  critChanceCost : Z;
  critPowerCost : Z;
  tempBoostActive : bool;
  tempBoostEnd : Z;
  tempBoostCost : Z;
  prestigeCount : Z;
  prestigeBonus : Z;
  prestigeCost : Z;
  lastClickTime : Z;
  bestTimed : Z;
  timedActive : bool;
  timedTimeLeft : Z;
  timedScore : Z;
  daily : Daily;
  theme : string;
  soundOn : bool;
  musicOn : bool;
  achievementsUnlocked : list Achievement;
  ownedSkins : list string;
  currentSkin : option string
}.

(** The initial values of the [state] literal. *)
Definition default_state : State := {|
  pseudo := "";
  score := 0;
  totalClicks := 0;
  autoClickers := 0;
  autoClickCost := 500;
  multiplier := 1;
  multiplierCost := 1000;
  critChance := 0.02;
  critPower := 5;
  critChanceCost := 2000;
  critPowerCost := 3000;
  tempBoostActive := false;
  tempBoostEnd := 0;
  tempBoostCost := 300;
  prestigeCount := 0;
  prestigeBonus := 0;
  prestigeCost := 20000;
  lastClickTime := 0;
  bestTimed := 0;
  timedActive := false;
  timedTimeLeft := 60;
  timedScore := 0;
  daily := {| active := false; target := 5000; rewardPct := 5;
              expiresAt := 0; claimedToday := false |};
  theme := "normal";
  soundOn := true;
  musicOn := false;
  achievementsUnlocked := [];
  ownedSkins := [];
  currentSkin := None
|}.

(** Field assignments [state.f = v]. *)

Definition set_score (v : Z) (s : State) : State :=
  mkState (pseudo s) v (totalClicks s) (autoClickers s) (autoClickCost s)
    (multiplier s) (multiplierCost s) (critChance s) (critPower s)
    (critChanceCost s) (critPowerCost s) (tempBoostActive s)
    (tempBoostEnd s) (tempBoostCost s) (prestigeCount s) (prestigeBonus s)
    (prestigeCost s) (lastClickTime s) (bestTimed s) (timedActive s)
    (timedTimeLeft s) (timedScore s) (daily s) (theme s) (soundOn s)
    (musicOn s) (achievementsUnlocked s) (ownedSkins s) (currentSkin s).

Definition set_totalClicks (v : Z) (s : State) : State :=
  mkState (pseudo s) (score s) v (autoClickers s) (autoClickCost s)
    (multiplier s) (multiplierCost s) (critChance s) (critPower s)
    (critChanceCost s) (critPowerCost s) (tempBoostActive s)
    (tempBoostEnd s) (tempBoostCost s) (prestigeCount s) (prestigeBonus s)
    (prestigeCost s) (lastClickTime s) (bestTimed s) (timedActive s)
    (timedTimeLeft s) (timedScore s) (daily s) (theme s) (soundOn s)
    (musicOn s) (achievementsUnlocked s) (ownedSkins s) (currentSkin s).

Definition set_autoClickers (v : Z) (s : State) : State :=
  mkState (pseudo s) (score s) (totalClicks s) v (autoClickCost s)
    (multiplier s) (multiplierCost s) (critChance s) (critPower s)
    (critChanceCost s) (critPowerCost s) (tempBoostActive s)
    (tempBoostEnd s) (tempBoostCost s) (prestigeCount s) (prestigeBonus s)
    (prestigeCost s) (lastClickTime s) (bestTimed s) (timedActive s)
    (timedTimeLeft s) (timedScore s) (daily s) (theme s) (soundOn s)
    (musicOn s) (achievementsUnlocked s) (ownedSkins s) (currentSkin s).

Definition set_autoClickCost (v : Z) (s : State) : State :=
  mkState (pseudo s) (score s) (totalClicks s) (autoClickers s) v
    (multiplier s) (multiplierCost s) (critChance s) (critPower s)
    (critChanceCost s) (critPowerCost s) (tempBoostActive s)
    (tempBoostEnd s) (tempBoostCost s) (prestigeCount s) (prestigeBonus s)
    (prestigeCost s) (lastClickTime s) (bestTimed s) (timedActive s)
    (timedTimeLeft s) (timedScore s) (daily s) (theme s) (soundOn s)
    (musicOn s) (achievementsUnlocked s) (ownedSkins s) (currentSkin s).

Definition set_multiplier (v : Z) (s : State) : State :=
  mkState (pseudo s) (score s) (totalClicks s) (autoClickers s)
    (autoClickCost s) v (multiplierCost s) (critChance s) (critPower s)
    (critChanceCost s) (critPowerCost s) (tempBoostActive s)
    (tempBoostEnd s) (tempBoostCost s) (prestigeCount s) (prestigeBonus s)
    (prestigeCost s) (lastClickTime s) (bestTimed s) (timedActive s)
    (timedTimeLeft s) (timedScore s) (daily s) (theme s) (soundOn s)
    (musicOn s) (achievementsUnlocked s) (ownedSkins s) (currentSkin s).

Definition set_multiplierCost (v : Z) (s : State) : State :=
  mkState (pseudo s) (score s) (totalClicks s) (autoClickers s)
    (autoClickCost s) (multiplier s) v (critChance s) (critPower s)
    (critChanceCost s) (critPowerCost s) (tempBoostActive s)
    (tempBoostEnd s) (tempBoostCost s) (prestigeCount s) (prestigeBonus s)
    (prestigeCost s) (lastClickTime s) (bestTimed s) (timedActive s)
    (timedTimeLeft s) (timedScore s) (daily s) (theme s) (soundOn s)
    (musicOn s) (achievementsUnlocked s) (ownedSkins s) (currentSkin s).

Definition set_critChance (v : Q) (s : State) : State :=
  mkState (pseudo s) (score s) (totalClicks s) (autoClickers s)
    (autoClickCost s) (multiplier s) (multiplierCost s) v (critPower s)
    (critChanceCost s) (critPowerCost s) (tempBoostActive s)
    (tempBoostEnd s) (tempBoostCost s) (prestigeCount s) (prestigeBonus s)
    (prestigeCost s) (lastClickTime s) (bestTimed s) (timedActive s)
    (timedTimeLeft s) (timedScore s) (daily s) (theme s) (soundOn s)
    (musicOn s) (achievementsUnlocked s) (ownedSkins s) (currentSkin s).

Definition set_critPower (v : Z) (s : State) : State :=
  mkState (pseudo s) (score s) (totalClicks s) (autoClickers s)
    (autoClickCost s) (multiplier s) (multiplierCost s) (critChance s) v
    (critChanceCost s) (critPowerCost s) (tempBoostActive s)
    (tempBoostEnd s) (tempBoostCost s) (prestigeCount s) (prestigeBonus s)
    (prestigeCost s) (lastClickTime s) (bestTimed s) (timedActive s)
    (timedTimeLeft s) (timedScore s) (daily s) (theme s) (soundOn s)
    (musicOn s) (achievementsUnlocked s) (ownedSkins s) (currentSkin s).

Definition set_critChanceCost (v : Z) (s : State) : State :=
  mkState (pseudo s) (score s) (totalClicks s) (autoClickers s)
    (autoClickCost s) (multiplier s) (multiplierCost s) (critChance s)
    (critPower s) v (critPowerCost s) (tempBoostActive s) (tempBoostEnd s)
    (tempBoostCost s) (prestigeCount s) (prestigeBonus s) (prestigeCost s)
    (lastClickTime s) (bestTimed s) (timedActive s) (timedTimeLeft s)
    (timedScore s) (daily s) (theme s) (soundOn s) (musicOn s)
    (achievementsUnlocked s) (ownedSkins s) (currentSkin s).

Definition set_critPowerCost (v : Z) (s : State) : State :=
  mkState (pseudo s) (score s) (totalClicks s) (autoClickers s)
    (autoClickCost s) (multiplier s) (multiplierCost s) (critChance s)
    (critPower s) (critChanceCost s) v (tempBoostActive s) (tempBoostEnd s)
    (tempBoostCost s) (prestigeCount s) (prestigeBonus s) (prestigeCost s)
    (lastClickTime s) (bestTimed s) (timedActive s) (timedTimeLeft s)
    (timedScore s) (daily s) (theme s) (soundOn s) (musicOn s)
    (achievementsUnlocked s) (ownedSkins s) (currentSkin s).

Definition set_tempBoostActive (v : bool) (s : State) : State :=
  mkState (pseudo s) (score s) (totalClicks s) (autoClickers s)
    (autoClickCost s) (multiplier s) (multiplierCost s) (critChance s)
    (critPower s) (critChanceCost s) (critPowerCost s) v (tempBoostEnd s)
    (tempBoostCost s) (prestigeCount s) (prestigeBonus s) (prestigeCost s)
    (lastClickTime s) (bestTimed s) (timedActive s) (timedTimeLeft s)
    (timedScore s) (daily s) (theme s) (soundOn s) (musicOn s)
    (achievementsUnlocked s) (ownedSkins s) (currentSkin s).

Definition set_tempBoostEnd (v : Z) (s : State) : State :=
  mkState (pseudo s) (score s) (totalClicks s) (autoClickers s)
    (autoClickCost s) (multiplier s) (multiplierCost s) (critChance s)
    (critPower s) (critChanceCost s) (critPowerCost s) (tempBoostActive s) v
    (tempBoostCost s) (prestigeCount s) (prestigeBonus s) (prestigeCost s)
    (lastClickTime s) (bestTimed s) (timedActive s) (timedTimeLeft s)
    (timedScore s) (daily s) (theme s) (soundOn s) (musicOn s)
    (achievementsUnlocked s) (ownedSkins s) (currentSkin s).

Definition set_prestigeCount (v : Z) (s : State) : State :=
  mkState (pseudo s) (score s) (totalClicks s) (autoClickers s)
    (autoClickCost s) (multiplier s) (multiplierCost s) (critChance s)
    (critPower s) (critChanceCost s) (critPowerCost s) (tempBoostActive s)
    (tempBoostEnd s) (tempBoostCost s) v (prestigeBonus s) (prestigeCost s)
    (lastClickTime s) (bestTimed s) (timedActive s) (timedTimeLeft s)
    (timedScore s) (daily s) (theme s) (soundOn s) (musicOn s)
    (achievementsUnlocked s) (ownedSkins s) (currentSkin s).

Definition set_prestigeBonus (v : Z) (s : State) : State :=
  mkState (pseudo s) (score s) (totalClicks s) (autoClickers s)
    (autoClickCost s) (multiplier s) (multiplierCost s) (critChance s)
    (critPower s) (critChanceCost s) (critPowerCost s) (tempBoostActive s)
    (tempBoostEnd s) (tempBoostCost s) (prestigeCount s) v (prestigeCost s)
    (lastClickTime s) (bestTimed s) (timedActive s) (timedTimeLeft s)
    (timedScore s) (daily s) (theme s) (soundOn s) (musicOn s)
    (achievementsUnlocked s) (ownedSkins s) (currentSkin s).

Definition set_prestigeCost (v : Z) (s : State) : State :=
  mkState (pseudo s) (score s) (totalClicks s) (autoClickers s)
    (autoClickCost s) (multiplier s) (multiplierCost s) (critChance s)
    (critPower s) (critChanceCost s) (critPowerCost s) (tempBoostActive s)
    (tempBoostEnd s) (tempBoostCost s) (prestigeCount s) (prestigeBonus s) v
    (lastClickTime s) (bestTimed s) (timedActive s) (timedTimeLeft s)
    (timedScore s) (daily s) (theme s) (soundOn s) (musicOn s)
    (achievementsUnlocked s) (ownedSkins s) (currentSkin s).

Definition set_lastClickTime (v : Z) (s : State) : State :=
  mkState (pseudo s) (score s) (totalClicks s) (autoClickers s)
    (autoClickCost s) (multiplier s) (multiplierCost s) (critChance s)
    (critPower s) (critChanceCost s) (critPowerCost s) (tempBoostActive s)
    (tempBoostEnd s) (tempBoostCost s) (prestigeCount s) (prestigeBonus s)
    (prestigeCost s) v (bestTimed s) (timedActive s) (timedTimeLeft s)
    (timedScore s) (daily s) (theme s) (soundOn s) (musicOn s)
    (achievementsUnlocked s) (ownedSkins s) (currentSkin s).

Definition set_bestTimed (v : Z) (s : State) : State :=
  mkState (pseudo s) (score s) (totalClicks s) (autoClickers s)
    (autoClickCost s) (multiplier s) (multiplierCost s) (critChance s)
    (critPower s) (critChanceCost s) (critPowerCost s) (tempBoostActive s)
    (tempBoostEnd s) (tempBoostCost s) (prestigeCount s) (prestigeBonus s)
    (prestigeCost s) (lastClickTime s) v (timedActive s) (timedTimeLeft s)
    (timedScore s) (daily s) (theme s) (soundOn s) (musicOn s)
    (achievementsUnlocked s) (ownedSkins s) (currentSkin s).

Definition set_timedActive (v : bool) (s : State) : State :=
  mkState (pseudo s) (score s) (totalClicks s) (autoClickers s)
    (autoClickCost s) (multiplier s) (multiplierCost s) (critChance s)
    (critPower s) (critChanceCost s) (critPowerCost s) (tempBoostActive s)
    (tempBoostEnd s) (tempBoostCost s) (prestigeCount s) (prestigeBonus s)
    (prestigeCost s) (lastClickTime s) (bestTimed s) v (timedTimeLeft s)
    (timedScore s) (daily s) (theme s) (soundOn s) (musicOn s)
    (achievementsUnlocked s) (ownedSkins s) (currentSkin s).

Definition set_timedTimeLeft (v : Z) (s : State) : State :=
  mkState (pseudo s) (score s) (totalClicks s) (autoClickers s)
    (autoClickCost s) (multiplier s) (multiplierCost s) (critChance s)
    (critPower s) (critChanceCost s) (critPowerCost s) (tempBoostActive s)
    (tempBoostEnd s) (tempBoostCost s) (prestigeCount s) (prestigeBonus s)
    (prestigeCost s) (lastClickTime s) (bestTimed s) (timedActive s) v
    (timedScore s) (daily s) (theme s) (soundOn s) (musicOn s)
    (achievementsUnlocked s) (ownedSkins s) (currentSkin s).

Definition set_timedScore (v : Z) (s : State) : State :=
  mkState (pseudo s) (score s) (totalClicks s) (autoClickers s)
    (autoClickCost s) (multiplier s) (multiplierCost s) (critChance s)
    (critPower s) (critChanceCost s) (critPowerCost s) (tempBoostActive s)
    (tempBoostEnd s) (tempBoostCost s) (prestigeCount s) (prestigeBonus s)
    (prestigeCost s) (lastClickTime s) (bestTimed s) (timedActive s)
    (timedTimeLeft s) v (daily s) (theme s) (soundOn s) (musicOn s)
    (achievementsUnlocked s) (ownedSkins s) (currentSkin s).

Definition set_daily (v : Daily) (s : State) : State :=
  mkState (pseudo s) (score s) (totalClicks s) (autoClickers s)
    (autoClickCost s) (multiplier s) (multiplierCost s) (critChance s)
    (critPower s) (critChanceCost s) (critPowerCost s) (tempBoostActive s)
    (tempBoostEnd s) (tempBoostCost s) (prestigeCount s) (prestigeBonus s)
    (prestigeCost s) (lastClickTime s) (bestTimed s) (timedActive s)
    (timedTimeLeft s) (timedScore s) v (theme s) (soundOn s) (musicOn s)
    (achievementsUnlocked s) (ownedSkins s) (currentSkin s).

Definition set_soundOn (v : bool) (s : State) : State :=
  mkState (pseudo s) (score s) (totalClicks s) (autoClickers s)
    (autoClickCost s) (multiplier s) (multiplierCost s) (critChance s)
    (critPower s) (critChanceCost s) (critPowerCost s) (tempBoostActive s)
    (tempBoostEnd s) (tempBoostCost s) (prestigeCount s) (prestigeBonus s)
    (prestigeCost s) (lastClickTime s) (bestTimed s) (timedActive s)
    (timedTimeLeft s) (timedScore s) (daily s) (theme s) v (musicOn s)
    (achievementsUnlocked s) (ownedSkins s) (currentSkin s).

Definition set_musicOn (v : bool) (s : State) : State :=
  mkState (pseudo s) (score s) (totalClicks s) (autoClickers s)
    (autoClickCost s) (multiplier s) (multiplierCost s) (critChance s)
    (critPower s) (critChanceCost s) (critPowerCost s) (tempBoostActive s)
    (tempBoostEnd s) (tempBoostCost s) (prestigeCount s) (prestigeBonus s)
    (prestigeCost s) (lastClickTime s) (bestTimed s) (timedActive s)
    (timedTimeLeft s) (timedScore s) (daily s) (theme s) (soundOn s) v
    (achievementsUnlocked s) (ownedSkins s) (currentSkin s).

Definition set_achievementsUnlocked (v : list Achievement) (s : State)
    : State :=
  mkState (pseudo s) (score s) (totalClicks s) (autoClickers s)
    (autoClickCost s) (multiplier s) (multiplierCost s) (critChance s)
    (critPower s) (critChanceCost s) (critPowerCost s) (tempBoostActive s)
    (tempBoostEnd s) (tempBoostCost s) (prestigeCount s) (prestigeBonus s)
    (prestigeCost s) (lastClickTime s) (bestTimed s) (timedActive s)
    (timedTimeLeft s) (timedScore s) (daily s) (theme s) (soundOn s)
    (musicOn s) v (ownedSkins s) (currentSkin s).

Definition set_ownedSkins (v : list string) (s : State) : State :=
  mkState (pseudo s) (score s) (totalClicks s) (autoClickers s)
    (autoClickCost s) (multiplier s) (multiplierCost s) (critChance s)
    (critPower s) (critChanceCost s) (critPowerCost s) (tempBoostActive s)
    (tempBoostEnd s) (tempBoostCost s) (prestigeCount s) (prestigeBonus s)
    (prestigeCost s) (lastClickTime s) (bestTimed s) (timedActive s)
    (timedTimeLeft s) (timedScore s) (daily s) (theme s) (soundOn s)
    (musicOn s) (achievementsUnlocked s) v (currentSkin s).

Definition set_currentSkin (v : option string) (s : State) : State :=
  mkState (pseudo s) (score s) (totalClicks s) (autoClickers s)
    (autoClickCost s) (multiplier s) (multiplierCost s) (critChance s)
    (critPower s) (critChanceCost s) (critPowerCost s) (tempBoostActive s)
    (tempBoostEnd s) (tempBoostCost s) (prestigeCount s) (prestigeBonus s)
    (prestigeCost s) (lastClickTime s) (bestTimed s) (timedActive s)
    (timedTimeLeft s) (timedScore s) (daily s) (theme s) (soundOn s)
    (musicOn s) (achievementsUnlocked s) (ownedSkins s) v.

(** ** Achievement evaluator *)

(** [unlockAchievement(text)]: a key already present is left alone. *)
Definition unlockAchievement (text : Achievement) (s : State) : State :=
  if decide (text ∈ achievementsUnlocked s) then s
  else set_achievementsUnlocked (achievementsUnlocked s ++ [text]) s.

Definition clickMilestones : list Z :=
  [100; 1000; 10000; 100000; 1000000; 10000000].

(** [checkClickAchievements()]: the milestone loop, then the timed-mode
    line [if (state.timedActive) state.timedScore += state.multiplier]. *)
Definition checkClickAchievements (s : State) : State :=
  let s :=
    foldl (fun s m =>
             if totalClicks s =? m
             then unlockAchievement (AchClicks (pseudo s) m) s
             else s)
          s clickMilestones in
  if timedActive s then set_timedScore (timedScore s + multiplier s) s else s.

(** [checkUpgradeAchievements()]; [%] is the truncating remainder. *)
Definition checkUpgradeAchievements (s : State) : State :=
  let s :=
    if (0 <? autoClickers s) && (Z.rem (autoClickers s) 10 =? 0)
    then unlockAchievement (AchAutoClickers (pseudo s) (autoClickers s)) s
    else s in
  if (0 <? multiplier s) && (Z.rem (multiplier s) 10 =? 0)
  then unlockAchievement (AchMultiplier (multiplier s)) s
  else s.

(** ** Economy engine *)

(** The number [gain] of the click handler just before [Math.floor]. *)
Definition clickGain (isCrit : bool) (s : State) : Q :=
  let gain := inject_Z (multiplier s) in
  let gain := if tempBoostActive s then double_mul gain 2 else gain in
  let gain :=
    double_mul gain
      (double_add 1 (double_div (inject_Z (prestigeBonus s)) 100)) in
  if isCrit then double_mul gain (inject_Z (critPower s)) else gain.

(** [el.clickButton] click handler; [rnd] is the value of [Math.random()]. *)
Definition click (now : Z) (rnd : Q) (s : State) : State :=
  let s := set_lastClickTime now s in
  let isCrit := Qlt_bool rnd (critChance s) in
  let gain := clickGain isCrit s in
  let s := set_score (score s + Math_floor gain) s in
  let s := set_totalClicks (totalClicks s + 1) s in
  checkClickAchievements s.

(** [el.upgradeAuto] click handler. *)
Definition upgradeAuto (s : State) : State :=
  if autoClickCost s <=? score s then
    let s := set_score (score s - autoClickCost s) s in
    let s := set_autoClickers (autoClickers s + 1) s in
    let s := set_autoClickCost
               (Math_floor (inject_Z (autoClickCost s) * 1.5)) s in
    checkUpgradeAchievements s
  else s.

(** [el.upgradeMult] click handler. *)
Definition upgradeMult (s : State) : State :=
  if multiplierCost s <=? score s then
    let s := set_score (score s - multiplierCost s) s in
    let s := set_multiplier (multiplier s + 1) s in
    let s := set_multiplierCost
               (Math_floor (inject_Z (multiplierCost s) * 2)) s in
    checkUpgradeAchievements s
  else s.

(** [el.upgradeCritChance] click handler. *)
Definition upgradeCritChance (s : State) : State :=
  if critChanceCost s <=? score s then
    let s := set_score (score s - critChanceCost s) s in
    let s := set_critChance (Qmin 0.5 (critChance s + 0.01)) s in
    let s := set_critChanceCost
               (Math_floor (inject_Z (critChanceCost s) * 2)) s in
    unlockAchievement (AchCritChance (toFixed0 (critChance s * 100))) s
  else s.

(** [el.upgradeCritPower] click handler. *)
Definition upgradeCritPower (s : State) : State :=
  if critPowerCost s <=? score s then
    let s := set_score (score s - critPowerCost s) s in
    let s := set_critPower (Z.min 50 (critPower s + 5)) s in
    set_critPowerCost (Math_floor (inject_Z (critPowerCost s) * 2)) s
  else s.

(** [el.upgradeTempBoost] click handler. *)
Definition upgradeTempBoost (now : Z) (s : State) : State :=
  if tempBoostCost s <=? score s then
    let s := set_score (score s - tempBoostCost s) s in
    let s := set_tempBoostActive true s in
    set_tempBoostEnd (now + 30000) s
  else s.

(** The five purchase buttons. *)
Inductive Kind : Type :=
  AutoClick | Multiplier | CritChance | CritPower | TempBoost.

Definition purchase (k : Kind) (now : Z) (s : State) : State :=
  match k with
  | AutoClick => upgradeAuto s
  | Multiplier => upgradeMult s
  | CritChance => upgradeCritChance s
  | CritPower => upgradeCritPower s
  | TempBoost => upgradeTempBoost now s
  end.

(** The price the button of kind [k] tests the score against. *)
Definition cost (k : Kind) (s : State) : Z :=
  match k with
  | AutoClick => autoClickCost s
  | Multiplier => multiplierCost s
  | CritChance => critChanceCost s
  | CritPower => critPowerCost s
  | TempBoost => tempBoostCost s
  end.

(** [el.bonusButton] click handler. *)
Definition bonusClick (rnd : Q) (s : State) : State :=
  let bonus := Math_floor (100 + rnd * 900) in
  let s := set_score (score s + bonus) s in
  if timedActive s then set_timedScore (timedScore s + bonus) s else s.

(** ** Prestige controller *)

(** [el.doPrestige] click handler; [confirmed] is the answer of
    [confirm(...)]. *)
Definition doPrestige (confirmed : bool) (s : State) : State :=
  if score s <? or_default (prestigeCost s) 20000 then s
  else if negb confirmed then s
  else
    let s := set_score (score s - prestigeCost s) s in
    let s := set_prestigeCount (prestigeCount s + 1) s in
    let s := set_prestigeBonus (prestigeBonus s + 10) s in
    let s := set_totalClicks 0 s in
    let s := set_autoClickers 0 s in
    let s := set_autoClickCost 50 s in
    let s := set_multiplier 1 s in
    let s := set_multiplierCost 1000 s in
    let s := set_critChance 0.10 s in
    let s := set_critPower 10 s in
    let s := set_critChanceCost 2000 s in
    let s := set_critPowerCost 3000 s in
    let s := set_tempBoostActive false s in
    let s := set_tempBoostEnd 0 s in
    let s := set_prestigeCost
               (Math_floor (inject_Z (or_default (prestigeCost s) 20000) * 2))
               s in
    unlockAchievement (AchPrestige (prestigeCount s)) s.

(** ** Interval callbacks and modes *)

(** The one-second auto-click interval: passive income, then the expiry of
    the temporary boost. *)
Definition autoClickLoop (nowAuto : Z) (s : State) : State :=
  let s :=
    if 0 <? autoClickers s then
      let gain :=
        double_mul (inject_Z (autoClickers s)) (inject_Z (multiplier s)) in
      let gain := if tempBoostActive s then double_mul gain 2 else gain in
      let gain :=
        double_mul gain
          (double_add 1 (double_div (inject_Z (prestigeBonus s)) 100)) in
      let s := set_score (score s + Math_floor gain) s in
      if timedActive s
      then set_timedScore (timedScore s + Math_floor gain) s
      else s
    else s in
  if tempBoostActive s && (tempBoostEnd s <? nowAuto) then
    let s := set_tempBoostActive false s in
    unlockAchievement AchBoostEnd s
  else s.

(** The one-second daily-challenge interval. *)
Definition dailyTick (nowDaily : Z) (s : State) : State :=
  if negb (active (daily s)) then s
  else if (target (daily s) <=? score s) && negb (claimedToday (daily s)) then
    let s := set_daily (set_claimedToday true (daily s)) s in
    let s := set_daily (set_active false (daily s)) s in
    let s := set_daily (set_expiresAt (nowDaily + 10 * 60 * 1000) (daily s)) s in
    let s := set_tempBoostActive true s in
    let s := set_tempBoostEnd (expiresAt (daily s)) s in
    unlockAchievement (AchDailySuccess (rewardPct (daily s))) s
  else if (expiresAt (daily s) <? nowDaily) && negb (claimedToday (daily s)) then
    set_daily (set_active false (daily s)) s
  else s.

(** [el.musicToggle] and [el.soundToggle] change handlers. *)
Definition musicToggle (checked : bool) (s : State) : State :=
  set_musicOn checked s.

Definition soundToggle (checked : bool) (s : State) : State :=
  set_soundOn checked s.

(** [el.saveNowBtn] click handler; [saveScore()] only writes the
    leaderboard entry of [localStorage]. *)
Definition saveNow (s : State) : State :=
  unlockAchievement AchManualSave s.

(** An entry of the [SKINS] catalogue. *)
Record Skin : Type := mkSkin { skin_id : string; skin_cost : Z }.

Definition SKINS : list Skin :=
  [mkSkin "default" 0; mkSkin "gif2" 5000; mkSkin "pixel" 15000].

(** The click handler of the shop button of the skin [sk]. *)
Definition skinClick (sk : Skin) (s : State) : State :=
  let owned := bool_decide (skin_id sk ∈ ownedSkins s) in
  if negb owned then
    if skin_cost sk <=? score s then
      let s := set_score (score s - skin_cost sk) s in
      let s := set_ownedSkins (ownedSkins s ++ [skin_id sk]) s in
      set_currentSkin (Some (skin_id sk)) s
    else s
  else set_currentSkin (Some (skin_id sk)) s.

(** What lives outside [state]: the two [localStorage] entries of the daily
    challenge, whether the interval created by the timed-mode button is
    still registered, and the click timestamps [__clickTimes]. *)
Record Game : Type := mkGame {
  st : State;
  ls_dailyKey : option string;
  ls_dailyStarted : option string;
  timedInterval : bool;
  __clickTimes : list Z
}.

Definition with_st (s : State) (g : Game) : Game :=
  mkGame s (ls_dailyKey g) (ls_dailyStarted g) (timedInterval g)
         (__clickTimes g).

Definition on_state (f : State -> State) (g : Game) : Game :=
  with_st (f (st g)) g.

(** The whole click: the handler on [state] and the timestamp pushed on
    [__clickTimes] (the second [Date.now()] of the handler, taken to read
    the same millisecond as the first). *)
Definition clickButton (now : Z) (rnd : Q) (g : Game) : Game :=
  mkGame (click now rnd (st g)) (ls_dailyKey g) (ls_dailyStarted g)
         (timedInterval g) (__clickTimes g ++ [now]).

(** [computeAndDisplayCPS()]. *)
Definition computeAndDisplayCPS (now : Z) (g : Game) : Game :=
  let times := filter (fun t => now - t <= 1000) (__clickTimes g) in
  let cps := Z.of_nat (length times) in
  let s := if 12 <=? cps then unlockAchievement AchFrenzy (st g) else st g in
  mkGame s (ls_dailyKey g) (ls_dailyStarted g) (timedInterval g) times.

(** [el.startTimedBtn] click handler: the part that runs at the click. *)
Definition startTimed (g : Game) : Game :=
  if timedActive (st g) then g
  else
    let s := set_timedActive true (st g) in
    let s := set_timedTimeLeft 60 s in
    let s := set_timedScore 0 s in
    let s := unlockAchievement AchTimedStart s in
    mkGame s (ls_dailyKey g) (ls_dailyStarted g) true (__clickTimes g).

(** The callback of the interval registered by [startTimed]; it only runs
    while that interval is registered and clears it at zero. *)
Definition timedTick (g : Game) : Game :=
  if negb (timedInterval g) then g
  else
    let s := set_timedTimeLeft (timedTimeLeft (st g) - 1) (st g) in
    if timedTimeLeft s <=? 0 then
      let s := set_timedActive false s in
      let s := set_bestTimed (Z.max (bestTimed s) (timedScore s)) s in
      let s := unlockAchievement (AchTimedEnd (timedScore s) (bestTimed s)) s in
      mkGame s (ls_dailyKey g) (ls_dailyStarted g) false (__clickTimes g)
    else mkGame s (ls_dailyKey g) (ls_dailyStarted g) true (__clickTimes g).

(** [ensureDaily(forceNew)]; [todayKey] is [new Date().toDateString()] and
    [r1], [r2] are the two values of [Math.random()]. *)
Definition ensureDaily (forceNew : bool) (todayKey : string) (r1 r2 : Q)
    (g : Game) : Game :=
  if forceNew || negb (bool_decide (ls_dailyKey g = Some todayKey)) then
    let s := st g in
    let s := set_daily (set_target (3000 + Math_floor (r1 * 7000)) (daily s)) s in
    let s := set_daily (set_rewardPct (3 + Math_floor (r2 * 7)) (daily s)) s in
    let s := set_daily (set_active false (daily s)) s in
    let s := set_daily (set_expiresAt 0 (daily s)) s in
    let s := set_daily (set_claimedToday false (daily s)) s in
    mkGame s (Some todayKey) (ls_dailyStarted g) (timedInterval g)
           (__clickTimes g)
  else g.

(** [el.startDailyBtn] click handler. *)
Definition startDaily (todayKey : string) (now : Z) (r1 r2 : Q)
    (g : Game) : Game :=
  let g := ensureDaily false todayKey r1 r2 g in
  if bool_decide (ls_dailyStarted g = Some todayKey) then g
  else if active (daily (st g)) then g
  else if claimedToday (daily (st g)) then g
  else
    let s := st g in
    let s := set_daily (set_active true (daily s)) s in
    let s := set_daily (set_expiresAt (now + 10 * 60 * 1000) (daily s)) s in
    let s := unlockAchievement AchDailyStart s in
    mkGame s (ls_dailyKey g) (Some todayKey) (timedInterval g)
           (__clickTimes g).

(** ** Runs of the engine *)

(** One handler invocation, with the values it reads from the clock, the
    random source, the confirmation dialog or the control that fired it.
    Loading a stored object is not an event of a run: it is modelled
    below, on the state object as a map. *)
Inductive Event : Type :=
| EvClick (now : Z) (rnd : Q)
| EvPurchase (k : Kind) (now : Z)
| EvBonus (rnd : Q)
| EvSkin (sk : Skin)
| EvPrestige (confirmed : bool)
| EvAutoTick (now : Z)
| EvStartTimed
| EvTimedTick
| EvEnsureDaily (forceNew : bool) (todayKey : string) (r1 r2 : Q)
| EvStartDaily (todayKey : string) (now : Z) (r1 r2 : Q)
| EvDailyTick (now : Z)
| EvCps (now : Z)
| EvSaveNow
| EvMusicToggle (checked : bool)
| EvSoundToggle (checked : bool).

Definition step (g : Game) (e : Event) : Game :=
  match e with
  | EvClick now rnd => clickButton now rnd g
  | EvPurchase k now => on_state (purchase k now) g
  | EvBonus rnd => on_state (bonusClick rnd) g
  | EvSkin sk => on_state (skinClick sk) g
  | EvPrestige c => on_state (doPrestige c) g
  | EvAutoTick now => on_state (autoClickLoop now) g
  | EvStartTimed => startTimed g
  | EvTimedTick => timedTick g
  | EvEnsureDaily f k r1 r2 => ensureDaily f k r1 r2 g
  | EvStartDaily k now r1 r2 => startDaily k now r1 r2 g
  | EvDailyTick now => on_state (dailyTick now) g
  | EvCps now => computeAndDisplayCPS now g
  | EvSaveNow => on_state saveNow g
  | EvMusicToggle b => on_state (musicToggle b) g
  | EvSoundToggle b => on_state (soundToggle b) g
  end.

Definition run (g : Game) (es : list Event) : Game := foldl step g es.

(** A fresh session: the default state, any [localStorage] content for the
    daily keys, no timed interval, no click yet. *)
Definition initial (dk ds : option string) : Game :=
  mkGame default_state dk ds false [].

(** ** Persistence throttle *)

(** The module-level variables of the throttle, the [setTimeout] callbacks
    that are scheduled and not yet run (by the time they are due), and a log
    of the times at which [persist()] wrote to the store.  [persist()] is
    taken to succeed. *)
Record Throttle : Type := mkThrottle {
  __lastPersist : Z;
  __pendingPersist : bool;
  timeouts : list Z;
  writes : list Z
}.

Definition PERSIST_THROTTLE_MS : Z := 1000.

(** [let __lastPersist = 0; let __pendingPersist = false;] *)
Definition throttle0 : Throttle := mkThrottle 0 false [] [].

(** [throttlePersist()] called when [Date.now()] is [now]. *)
Definition throttlePersist (now : Z) (t : Throttle) : Throttle :=
  if PERSIST_THROTTLE_MS <? now - __lastPersist t then
    mkThrottle now (__pendingPersist t) (timeouts t) (writes t ++ [now])
  else if negb (__pendingPersist t) then
    mkThrottle (__lastPersist t) true
               (timeouts t ++ [now + PERSIST_THROTTLE_MS]) (writes t)
  else t.

(** The arrow function handed to [setTimeout], run when [Date.now()] is
    [now]: [__pendingPersist = false; persist(); __lastPersist = Date.now()]. *)
Definition timeoutCallback (now : Z) (t : Throttle) : Throttle :=
  mkThrottle now false (timeouts t) (writes t ++ [now]).

(** The event loop up to time [now]: every callback that is due runs, in
    the order it was scheduled and at the time it is due. *)
Definition advance (now : Z) (t : Throttle) : Throttle :=
  let due := filter (fun d => d <= now) (timeouts t) in
  let later := filter (fun d => ¬ d <= now) (timeouts t) in
  foldl (fun t d => timeoutCallback d t)
        (mkThrottle (__lastPersist t) (__pendingPersist t) later (writes t))
        due.

(** A save request at time [now], after the callbacks due by then. *)
Definition request (t : Throttle) (now : Z) : Throttle :=
  throttlePersist now (advance now t).

(** The requests made at the times [nows], then the loop up to [horizon]. *)
Definition requests (nows : list Z) (horizon : Z) : Throttle :=
  advance horizon (foldl request throttle0 nows).

(** ** Loading a stored save *)

(** A value produced by [JSON.parse]. *)
#[local] Unset Elimination Schemes.
Inductive JSON : Type :=
| JNull
| JBool (b : bool)
| JNum (q : Q)
| JStr (s : string)
| JArr (l : list JSON)
| JObj (kvs : list (string * JSON)).
#[local] Set Elimination Schemes.

(** JavaScript truthiness of a parsed value. *)
Definition truthy (j : JSON) : bool :=
  match j with
  | JNull => false
  | JBool b => b
  | JNum q => negb (Qeq_bool q 0)
  | JStr s => negb (bool_decide (s = ""))
  | JArr _ | JObj _ => true
  end.

(** Truthiness of the result of a property read; a missing property reads
    as [undefined]. *)
Definition truthy_prop (v : option JSON) : bool :=
  match v with Some j => truthy j | None => false end.

(** The array index [i] as a property key. *)
Definition index_key (i : nat) : string :=
  NilEmpty.string_of_uint (Nat.to_uint i).

Definition chars (s : string) : list JSON :=
  (fun c => JStr (String c EmptyString)) <$> String.list_ascii_of_string s.

(** The own enumerable properties of a value, in enumeration order; in an
    object literal with a repeated key the last occurrence wins. *)
Definition own_entries (j : JSON) : list (string * JSON) :=
  match j with
  | JNull | JBool _ | JNum _ => []
  | JStr s => imap (fun i v => (index_key i, v)) (chars s)
  | JArr l => imap (fun i v => (index_key i, v)) l
  | JObj kvs => kvs
  end.

(** [Object.assign(target, source)]. *)
Definition Object_assign (target : gmap string JSON) (source : JSON)
    : gmap string JSON :=
  foldl (fun o kv => <[kv.1 := kv.2]> o) target (own_entries source).

(** The property read [s.k] on a parsed value that is not [null]. *)
Definition get_prop (s : JSON) (k : string) : option JSON :=
  (foldl (fun o kv => <[kv.1 := kv.2]> o) (∅ : gmap string JSON)
         (own_entries s)) !! k.

(** What [localStorage.getItem("clickerState")] holds: nothing (or the
    empty string), a text that [JSON.parse] rejects, or a text that parses. *)
Inductive Stored : Type :=
| Absent
| Malformed
| Parsed (s : JSON).

(** The parts of the page [loadPersisted] touches before it reaches the
    prestige-cost line: each of them can throw into the enclosing [catch]. *)
Record Page : Type := mkPage {
  achievementList_present : bool; (* [el.achievementList] is an element *)
  music_plays : bool;             (* [el.music.play()] returns *)
  setTheme_defined : bool         (* a global [setTheme] exists *)
}.

(** The body of the [try] block: either it runs to its end or it throws;
    the mutations made so far stay in both cases. *)
Inductive Completion : Type :=
| Normal (o : gmap string JSON)
| Thrown (o : gmap string JSON).

Definition load_body (page : Page) (s : JSON) (state : gmap string JSON)
    : Completion :=
  let state := Object_assign state s in
  if negb (achievementList_present page) then Thrown state
  else if truthy_prop (state !! "musicOn") && negb (music_plays page)
  then Thrown state
  else if negb (setTheme_defined page) then Thrown state
  else
    let state :=
      if negb (truthy_prop (state !! "prestigeCost"))
      then <["prestigeCost" := JNum 20000]> state
      else state in
    match s with
    | JNull => Thrown state
    | _ =>
      let copy k (state : gmap string JSON) :=
        match get_prop s k with
        | Some v => if truthy v then <[k := v]> state else state
        | None => state
        end in
      let state := copy "ownedSkins" state in
      let state := copy "currentSkin" state in
      let state := copy "soundVolumes" state in
      let state := copy "soundType" state in
      Normal state
    end.

(** [loadPersisted()]: the state object after the call. *)
Definition loadPersisted (page : Page) (stored : Stored)
    (state : gmap string JSON) : gmap string JSON :=
  match stored with
  | Absent => state
  | Malformed => state
  | Parsed s =>
    match load_body page s state with
    | Normal state' => state'
    | Thrown state' => state'
    end
  end.

(** The [state] literal as an object. *)
Definition default_state_object : gmap string JSON :=
  list_to_map [
    ("pseudo", JStr ""); ("score", JNum 0); ("totalClicks", JNum 0);
    ("autoClickers", JNum 0); ("autoClickCost", JNum 500);
    ("multiplier", JNum 1); ("multiplierCost", JNum 1000);
    ("critChance", JNum 0.02); ("critPower", JNum 5);
    ("critChanceCost", JNum 2000); ("critPowerCost", JNum 3000);
    ("tempBoostActive", JBool false); ("tempBoostEnd", JNum 0);
    ("tempBoostCost", JNum 300); ("prestigeCount", JNum 0);
    ("prestigeBonus", JNum 0); ("prestigeCost", JNum 20000);
    ("lastClickTime", JNum 0); ("bestTimed", JNum 0);
    ("timedActive", JBool false); ("timedTimeLeft", JNum 60);
    ("timedScore", JNum 0);
    ("daily", JObj [("active", JBool false); ("target", JNum 5000);
                    ("rewardPct", JNum 5); ("expiresAt", JNum 0);
                    ("claimedToday", JBool false)]);
    ("theme", JStr "normal"); ("soundOn", JBool true);
    ("musicOn", JBool false); ("achievementsUnlocked", JObj [])
  ].

(** ** Predicates used in the statements *)

(** A reader [f] of the state that does not depend on
    [achievementsUnlocked]. *)
Definition ignores_achievements {A} (f : State → A) : Prop :=
  ∀ l s, f (set_achievementsUnlocked l s) = f s.

(** The flags of the daily challenge are never both set. *)
Definition daily_flags_ok (s : State) : Prop :=
  ¬ (active (daily s) = true ∧ claimedToday (daily s) = true).

(** The caps of the two critical-hit stats. *)
Definition crit_ok (s : State) : Prop :=
  (critChance s <= 0.5)%Q ∧ critPower s <= 50.

(** A scheduled callback exists exactly while [__pendingPersist] is set. *)
Definition throttle_inv (t : Throttle) : Prop :=
  length (timeouts t) = if __pendingPersist t then 1%nat else 0%nat.

(** No two writes of the log fall in one window of 1000 ms. *)
Definition one_write_per_window (ws : list Z) : Prop :=
  ∀ i j a b, (i < j)%nat → ws !! i = Some a → ws !! j = Some b →
             PERSIST_THROTTLE_MS <= b - a.

(** The parsed value [j] has an own property named [k]. *)
Definition has_field (k : string) (j : JSON) : Prop :=
  k ∈ (own_entries j).*1.

(** ** Predicates on runs *)

(** Adding a key as [unlockAchievement] does. *)
Definition add_key (l : list Achievement) (a : Achievement)
    : list Achievement :=
  if decide (a ∈ l) then l else l ++ [a].

(** The achievement list of [s'] is that of [s] after some unlocks. *)
Definition grows (s s' : State) : Prop :=
  ∃ keys, achievementsUnlocked s' = foldl add_key (achievementsUnlocked s) keys.

(** The values an event can carry in a session: [Math.random()] lies in
    [[0, 1)] and a shop button belongs to an entry of [SKINS]. *)
Definition valid_event (e : Event) : Prop :=
  match e with
  | EvClick _ rnd | EvBonus rnd => (0 <= rnd)%Q ∧ (rnd < 1)%Q
  | EvSkin sk => sk ∈ SKINS
  | EvEnsureDaily _ _ r1 r2 | EvStartDaily _ _ r1 r2 =>
    ((0 <= r1)%Q ∧ (r1 < 1)%Q) ∧ ((0 <= r2)%Q ∧ (r2 < 1)%Q)
  | _ => True
  end.

(** Signs and floors of the economy fields. *)
Definition econ_ok (s : State) : Prop :=
  0 <= score s ∧ 0 <= timedScore s ∧ 0 <= bestTimed s ∧
  0 <= totalClicks s ∧ 0 <= autoClickers s ∧ 1 <= multiplier s ∧
  5 <= critPower s ∧ 0 <= prestigeCount s ∧ 0 <= prestigeBonus s ∧
  50 <= autoClickCost s ∧ 1000 <= multiplierCost s ∧
  2000 <= critChanceCost s ∧ 3000 <= critPowerCost s ∧
  tempBoostCost s = 300 ∧ 20000 <= prestigeCost s.

(** The closed forms the prestige and multiplier fields follow. *)
Definition closed_forms (s : State) : Prop :=
  0 <= prestigeCount s ∧ 1 <= multiplier s ∧
  prestigeBonus s = 10 * prestigeCount s ∧
  prestigeCost s = 20000 * 2 ^ prestigeCount s ∧
  multiplierCost s = 1000 * 2 ^ (multiplier s - 1).

(** The upgrade levels and the prices. *)
Definition economy_fields (s : State) :=
  (autoClickers s, autoClickCost s, multiplier s, multiplierCost s,
   critChance s, critPower s, critChanceCost s, critPowerCost s,
   tempBoostCost s, prestigeCount s, prestigeBonus s, prestigeCost s).

(** The events that buy an upgrade or perform a prestige. *)
Definition spends_on_upgrades (e : Event) : bool :=
  match e with
  | EvPurchase _ _ | EvPrestige _ => true
  | _ => false
  end.

Definition is_prestige (e : Event) : bool :=
  match e with EvPrestige _ => true | _ => false end.

(** The number of timed-mode interval callbacks among the events. *)
Definition is_timed_tick (e : Event) : bool :=
  match e with EvTimedTick => true | _ => false end.

Definition timed_ticks (es : list Event) : Z :=
  Z.of_nat (length (filter (fun e => is_timed_tick e = true) es)).

(** What the timed-mode countdown reads and writes. *)
Definition timed_fields (g : Game) :=
  (timedActive (st g), timedTimeLeft (st g), timedInterval g).

(** The countdown interval is registered exactly while timed mode is
    active, and then between 1 and 60 seconds are left. *)
Definition timed_ok (g : Game) : Prop :=
  timedInterval g = timedActive (st g) ∧
  (timedActive (st g) = true → 1 <= timedTimeLeft (st g) <= 60).

(** The ranges of a generated daily challenge. *)
Definition daily_in_range (s : State) : Prop :=
  3000 <= target (daily s) < 10000 ∧ 3 <= rewardPct (daily s) <= 9.

(** Every click on the daily button among the events happens on day [k]. *)
Definition starts_on_day (k : string) (e : Event) : Prop :=
  match e with
  | EvStartDaily k' _ _ _ => k' = k
  | _ => True
  end.

(** ** Keyboard and gamepad input *)

(** The module-level variables of the input handlers. *)
Record Controls : Type := mkControls {
  __lastKeyClick : Z;
  lastNavTime : Z;
  prevA : bool;
  prevX : bool;
  bonusClaimed : bool;
  navIndex : Z
}.

Definition controls0 : Controls := mkControls 0 0 false false false 0.

Definition __KEY_MIN_DELAY : Z := 80.
Definition DEADZONE : Q := 0.3.
Definition NAV_DELAY : Z := 200.

(** [navigable.length]: the click button, the five purchase buttons and the
    prestige button. *)
Definition navigable_length : Z := 7.

(** The [click()] calls an input handler makes. *)
Inductive Action : Type :=
| ClickMain                 (* [el.clickButton.click()] from the keyboard *)
| ClickNavigable (i : Z)    (* [navigable[navIndex].click()] *)
| ClickBonus.               (* [el.bonusButton.click()] *)

#[global] Instance Action_eq_dec : EqDecision Action.
Proof. solve_decision. Defined.

(** The first [keydown] listener; [typing] tells whether the focus is in an
    input or a textarea. *)
Definition keydownClick (typing : bool) (code : string) (repeated : bool)
    (now : Z) (c : Controls) : Controls * list Action :=
  if typing then (c, [])
  else if bool_decide (code = "Space") || bool_decide (code = "Enter") then
    if repeated then (c, [])
    else if now - __lastKeyClick c <? __KEY_MIN_DELAY then (c, [])
    else (mkControls now (lastNavTime c) (prevA c) (prevX c)
                     (bonusClaimed c) (navIndex c),
          [ClickMain])
  else (c, []).

(** The second [keydown] listener; [shown] tells whether the bonus button
    exists and its inline [display] is not ["none"]. *)
Definition keydownBonus (code : string) (shown : bool) (c : Controls)
    : Controls * list Action :=
  if bool_decide (code = "KeyB") then
    if negb (bonusClaimed c) && shown then
      (mkControls (__lastKeyClick c) (lastNavTime c) (prevA c) (prevX c)
                  true (navIndex c),
       [ClickBonus])
    else (c, [])
  else (c, []).

(** What a poll reads from the first gamepad. *)
Record Gamepad : Type := mkGamepad {
  axis1 : Q;          (* [gp.axes[1]] *)
  button0 : bool;     (* [gp.buttons[0].pressed] *)
  button2 : bool      (* [gp.buttons[2].pressed] *)
}.

(** One run of [pollGamepadNav]. *)
Definition pollGamepadNav (gp : option Gamepad) (shown : bool) (now : Z)
    (c : Controls) : Controls * list Action :=
  match gp with
  | None => (c, [])
  | Some gp =>
    let y := axis1 gp in
    let c :=
      if Qlt_bool DEADZONE y && (NAV_DELAY <? now - lastNavTime c) then
        mkControls (__lastKeyClick c) now (prevA c) (prevX c)
                   (bonusClaimed c)
                   (Z.rem (navIndex c + 1) navigable_length)
      else c in
    let c :=
      if Qlt_bool y (- DEADZONE) && (NAV_DELAY <? now - lastNavTime c) then
        mkControls (__lastKeyClick c) now (prevA c) (prevX c)
                   (bonusClaimed c)
                   (Z.rem (navIndex c - 1 + navigable_length)
                          navigable_length)
      else c in
    let isAPressed := button0 gp in
    let acts1 :=
      if isAPressed && negb (prevA c) then [ClickNavigable (navIndex c)]
      else [] in
    let c := mkControls (__lastKeyClick c) (lastNavTime c) isAPressed
                        (prevX c) (bonusClaimed c) (navIndex c) in
    let isXPressed := button2 gp in
    let '(c, acts2) :=
      if isXPressed && negb (prevX c) then
        if negb (bonusClaimed c) && shown then
          (mkControls (__lastKeyClick c) (lastNavTime c) (prevA c)
                      (prevX c) true (navIndex c),
           [ClickBonus])
        else (c, [])
      else (c, []) in
    let c := mkControls (__lastKeyClick c) (lastNavTime c) (prevA c)
                        isXPressed (bonusClaimed c) (navIndex c) in
    (c, acts1 ++ acts2)
  end.

(** An input event: a key press (seen by both listeners, in the order they
    were registered) or an animation frame of the gamepad loop. *)
Inductive Input : Type :=
| InKeyDown (typing : bool) (code : string) (repeated : bool)
            (shown : bool) (now : Z)
| InPoll (gp : option Gamepad) (shown : bool) (now : Z).

Definition input_step (ca : Controls * list (Z * Action)) (i : Input)
    : Controls * list (Z * Action) :=
  let '(c, log) := ca in
  match i with
  | InKeyDown typing code repeated shown now =>
    let '(c, a1) := keydownClick typing code repeated now c in
    let '(c, a2) := keydownBonus code shown c in
    (c, log ++ ((fun a => (now, a)) <$> a1 ++ a2))
  | InPoll gp shown now =>
    let '(c, a) := pollGamepadNav gp shown now c in
    (c, log ++ ((fun a => (now, a)) <$> a))
  end.

(** The controls after the inputs [ins] and the clicks made, each with the
    time of the input that made it. *)
Definition input_run (ins : list Input) : Controls * list (Z * Action) :=
  foldl input_step (controls0, []) ins.

(** The input is a press of Space or Enter at time [t] that is not an
    auto-repeat and arrives while the focus is outside the text fields. *)
Definition fresh_click_key (t : Z) (i : Input) : Prop :=
  match i with
  | InKeyDown typing code repeated _ now =>
    typing = false ∧ repeated = false ∧
    (code = "Space" ∨ code = "Enter") ∧ now = t
  | InPoll _ _ _ => False
  end.

(** The times at which the keyboard clicked the main button. *)
Definition key_click_times (log : list (Z * Action)) : list Z :=
  omap (fun '(t, a) => match a with ClickMain => Some t | _ => None end) log.

(** The bonus clicks of a log. *)
Definition bonus_clicks (log : list (Z * Action)) : nat :=
  length (filter (fun '(_, a) => a = ClickBonus) log).

(** Any two entries of a list of times are at least [gap] apart. *)
Definition spaced (gap : Z) (ts : list Z) : Prop :=
  ∀ i j a b, (i < j)%nat → ts !! i = Some a → ts !! j = Some b → gap <= b - a.

(** What the input handlers keep true. *)
Definition controls_ok (ca : Controls * list (Z * Action)) : Prop :=
  let '(c, log) := ca in
  0 <= navIndex c < navigable_length ∧
  (∀ t i, (t, ClickNavigable i) ∈ log → 0 <= i < navigable_length) ∧
  bonus_clicks log = (if bonusClaimed c then 1%nat else 0%nat) ∧
  spaced __KEY_MIN_DELAY (key_click_times log) ∧
  (∀ t, t ∈ key_click_times log → t <= __lastKeyClick c).

(** ** Saving, exporting and importing *)

(** The properties [persist()] writes, in the order of its object literal. *)
Definition persist_keys : list string :=
  ["pseudo"; "score"; "totalClicks"; "autoClickers"; "autoClickCost";
   "multiplier"; "multiplierCost"; "critChance"; "critPower";
   "critChanceCost"; "critPowerCost"; "tempBoostActive"; "tempBoostEnd";
   "tempBoostCost"; "prestigeCount"; "prestigeBonus"; "prestigeCost";
   "bestTimed"; "theme"; "soundOn"; "musicOn"; "achievementsUnlocked";
   "daily"; "volumes"; "ownedSkins"; "currentSkin"; "soundVolumes";
   "soundType"].

(** The object [persist()] serialises: [volumes] is the global volume map,
    every other property is read from [state]; [JSON.stringify] drops the
    properties whose value is [undefined]. *)
Definition persist (volumes : JSON) (state : gmap string JSON) : JSON :=
  JObj (omap (fun k =>
                if bool_decide (k = "volumes") then Some (k, volumes)
                else (fun v => (k, v)) <$> state !! k)
             persist_keys).

(** The keys the import skips. *)
Definition audio_keys : list string :=
  ["soundVolumes"; "soundType"; "musicOn"; "soundOn"; "volumes"].

(** The object the export button serialises; [scores] is the parsed
    leaderboard.  The copy of the state loses the four audio properties,
    and [volumes] when it is truthy; the order of its properties is
    immaterial. *)
Definition export_snapshot (exportedAt : string) (scores : JSON)
    (state : gmap string JSON) : JSON :=
  let exportState := state in
  let exportState := delete "soundVolumes" exportState in
  let exportState := delete "soundType" exportState in
  let exportState := delete "musicOn" exportState in
  let exportState := delete "soundOn" exportState in
  let exportState :=
    if truthy_prop (exportState !! "volumes")
    then delete "volumes" exportState else exportState in
  JObj [("exportedAt", JStr exportedAt);
        ("state", JObj (map_to_list exportState));
        ("scores", scores)].

(** The state object is modelled by its own properties.  A source whose
    own property is named [__proto__] would, when assigned, replace the
    prototype of the state object instead of creating a property; the
    properties below are stated for sources without such a key. *)
Definition no_proto (source : JSON) : Prop :=
  "__proto__" ∉ (own_entries source).*1.

#[global] Instance no_proto_dec (source : JSON) : Decision (no_proto source).
Proof. unfold no_proto. apply _. Defined.

(** [parsed && parsed.state ? parsed.state : parsed] *)
Definition incomingState (parsed : JSON) : JSON :=
  if truthy parsed then
    match get_prop parsed "state" with
    | Some st => if truthy st then st else parsed
    | None => parsed
    end
  else parsed.

(** The merge loop of the import handler. *)
Definition import_merge (state : gmap string JSON) (parsed : JSON)
    : gmap string JSON :=
  foldl (fun o kv =>
           if bool_decide (kv.1 ∈ audio_keys) then o
           else <[kv.1 := kv.2]> o)
        state (own_entries (incomingState parsed)).

(** The import handler on the state, the stored save and the throttle:
    merge, [throttlePersist()], [loadPersisted()].  [parsed] is [None] when
    [JSON.parse] rejects the file. *)
Definition import_file (page : Page) (volumes : JSON) (now : Z)
    (parsed : option JSON)
    (w : gmap string JSON * Stored * Throttle)
    : gmap string JSON * Stored * Throttle :=
  match parsed with
  | None => w
  | Some parsed =>
    let '(state, stored, t) := w in
    let state := import_merge state parsed in
    let stored :=
      if PERSIST_THROTTLE_MS <? now - __lastPersist t
      then Parsed (persist volumes state) else stored in
    let t := throttlePersist now t in
    (loadPersisted page stored state, stored, t)
  end.

(** Whether the body of [loadPersisted] reaches the prestige-cost line,
    given the state after the merge. *)
Definition reaches_migration (page : Page) (merged : gmap string JSON)
    : bool :=
  achievementList_present page &&
  (negb (truthy_prop (merged !! "musicOn")) || music_plays page) &&
  setTheme_defined page.


(** ** The leaderboard *)

(** An entry [{pseudo, score}] of the array stored under ["scores"]. *)
Record ScoreEntry : Type := mkScoreEntry {
  entry_pseudo : string;
  entry_score : Z
}.

(** [Array.prototype.sort(cmp)] for a consistent comparator: the sort is
    stable, so the result is the one insertion from the right gives, an
    element going behind exactly the elements it compares greater than. *)
Fixpoint insert_sorted (cmp : ScoreEntry → ScoreEntry → Z) (e : ScoreEntry)
    (l : list ScoreEntry) : list ScoreEntry :=
  match l with
  | [] => [e]
  | y :: l' => if 0 <? cmp e y then y :: insert_sorted cmp e l' else e :: l
  end.

Definition Array_sort (cmp : ScoreEntry → ScoreEntry → Z)
    (l : list ScoreEntry) : list ScoreEntry :=
  foldr (insert_sorted cmp) [] l.

(** [(a,b) => b.score - a.score] *)
Definition by_score (a b : ScoreEntry) : Z := entry_score b - entry_score a.

(** [saveScore()]: [scores] is what [localStorage] holds under ["scores"]
    ([None] when the key is absent), [name] the trimmed pseudo (or the
    trimmed input, or ['Anonymous']), [score] is [state.score]; the result
    is the array written back. *)
Definition saveScore (name : string) (score : Z)
    (scores : option (list ScoreEntry)) : list ScoreEntry :=
  let scores := default [] scores in
  let scores := scores ++ [mkScoreEntry name score] in
  let scores := Array_sort by_score scores in
  take 10 scores.

(** Every entry has at least the score of each later entry. *)
Fixpoint descending (l : list ScoreEntry) : Prop :=
  match l with
  | [] => True
  | x :: l' =>
    Forall (fun y => entry_score y <= entry_score x) l' ∧ descending l'
  end.
(** * Properties *)

(** ** Reading a field after an assignment chain *)

Lemma unlockAchievement_fields (a : Achievement) (s : State) :
  unlockAchievement a s = s ∨
  unlockAchievement a s =
    set_achievementsUnlocked (achievementsUnlocked s ++ [a]) s.
Proof. unfold unlockAchievement. case_decide; auto. Qed.

Lemma unlockAchievement_ignored {A} (f : State → A) a s :
  ignores_achievements f → f (unlockAchievement a s) = f s.
Proof.
  intros Hf. destruct (unlockAchievement_fields a s) as [-> | ->]; auto.
Qed.

Lemma milestones_ignored {A} (f : State → A) (ms : list Z) :
  ignores_achievements f →
  ∀ s, f (foldl (fun s m =>
                   if totalClicks s =? m
                   then unlockAchievement (AchClicks (pseudo s) m) s
                   else s) s ms) = f s.
Proof.
  intros Hf. induction ms as [|m ms IH]; intros s; simpl; [done|].
  rewrite IH. destruct (totalClicks s =? m); [|done].
  by apply unlockAchievement_ignored.
Qed.

#[local] Hint Extern 0 (ignores_achievements _) =>
  (intros ? ?; reflexivity) : core.

Lemma checkClickAchievements_ignored {A} (f : State → A) s :
  ignores_achievements f → (∀ v s, f (set_timedScore v s) = f s) →
  f (checkClickAchievements s) = f s.
Proof.
  intros Hf Ht. unfold checkClickAchievements.
  destruct (timedActive _); rewrite ?Ht; by apply milestones_ignored.
Qed.

(** ** The click handler *)

(** What a click does.  With [isCrit] the test [random() < critChance]:
    the integer [gain], the floor of the binary64 product of [multiplier],
    [2] when boosted, [1 + prestigeBonus/100] and [critPower] when
    [isCrit], is added to [score], [totalClicks] grows by exactly one, and
    the timed score grows by [multiplier] (not by [gain]) when timed mode
    is active and is unchanged otherwise. *)
Theorem click_spec (now : Z) (rnd : Q) (s : State) :
  let isCrit := Qlt_bool rnd (critChance s) in
  let gain := Math_floor (clickGain isCrit s) in
  let s' := click now rnd s in
  score s' = score s + gain ∧
  totalClicks s' = totalClicks s + 1 ∧
  timedScore s' =
    (if timedActive s then timedScore s + multiplier s else timedScore s).
Proof.
  intros isCrit gain s'. subst gain s'.
  unfold click, checkClickAchievements.
  set (s1 := set_totalClicks _ _).
  set (s2 := foldl _ s1 clickMilestones).
  assert (Hta : timedActive s2 = timedActive s)
    by (unfold s2; rewrite (milestones_ignored timedActive); auto).
  assert (Hsc : score s2 = score s + Math_floor (clickGain isCrit s))
    by (unfold s2; rewrite (milestones_ignored score); auto).
  assert (Htc : totalClicks s2 = totalClicks s + 1)
    by (unfold s2; rewrite (milestones_ignored totalClicks); auto).
  assert (Hts : timedScore s2 = timedScore s)
    by (unfold s2; rewrite (milestones_ignored timedScore); auto).
  assert (Hmu : multiplier s2 = multiplier s)
    by (unfold s2; rewrite (milestones_ignored multiplier); auto).
  rewrite Hta. destruct (timedActive s); simpl; rewrite ?Hts, ?Hmu; auto.
Qed.

(** C1, where the handler departs from it.  The claim: a click adds the
    integer gain to [score] and, in timed mode, the same gain to the timed
    score.  With the boost on and timed mode active a non-critical click
    from the default state gains 2 and adds it to [score], but the timed
    score grows by the multiplier 1, whereas the auto-click loop and the
    bonus button add their whole gain to it. *)
Lemma click_timed_score_not_gain :
  let s := set_timedActive true (set_tempBoostActive true default_state) in
  let s' := click 7 (1 # 2) s in
  Qlt_bool (1 # 2) (critChance s) = false ∧
  score s' = score s + 2 ∧
  timedScore s' = timedScore s + 1 ∧
  timedScore s' ≠ timedScore s + (score s' - score s).
Proof. vm_compute. repeat split; discriminate. Qed.

(** ** Purchases *)

Lemma checkUpgradeAchievements_ignored {A} (f : State → A) s :
  ignores_achievements f → f (checkUpgradeAchievements s) = f s.
Proof.
  intros Hf. unfold checkUpgradeAchievements.
  destruct ((0 <? autoClickers s) && _).
  - destruct (_ && _); by rewrite ?unlockAchievement_ignored.
  - destruct (_ && _); by rewrite ?unlockAchievement_ignored.
Qed.

Ltac through_with f :=
  first [ rewrite (checkUpgradeAchievements_ignored f) by auto
        | rewrite (unlockAchievement_ignored f) by auto ].

Ltac through_achievements :=
  repeat first
    [ through_with pseudo | through_with score | through_with totalClicks
    | through_with autoClickers | through_with autoClickCost
    | through_with multiplier | through_with multiplierCost
    | through_with critChance | through_with critPower
    | through_with critChanceCost | through_with critPowerCost
    | through_with tempBoostActive | through_with tempBoostEnd
    | through_with tempBoostCost | through_with prestigeCount
    | through_with prestigeBonus | through_with prestigeCost
    | through_with lastClickTime | through_with bestTimed
    | through_with timedActive | through_with timedTimeLeft
    | through_with timedScore | through_with daily | through_with theme
    | through_with soundOn | through_with musicOn
    | through_with ownedSkins | through_with currentSkin
    | rewrite checkUpgradeAchievements_ignored by auto
    | rewrite unlockAchievement_ignored by auto ].



(** ** Prestige *)

(** Doubling an integer price needs no rounding. *)
Lemma floor_double (c : Z) : Math_floor (inject_Z c * 2) = 2 * c.
Proof.
  unfold Math_floor.
  rewrite (Qfloor_comp _ (inject_Z (2 * c))).
  - apply Qfloor_Z.
  - rewrite inject_Z_mult. ring.
Qed.

Lemma or_default_nonzero (c d : Z) : c ≠ 0 → or_default c d = c.
Proof. unfold or_default. intros H. destruct (Z.eqb_spec c 0); done. Qed.

(** The handler in any state.  Let [c] be the price the handler tests,
    namely [prestigeCost] when it is non-zero and [20000] when it is zero
    ([state.prestigeCost || 20000]).  When [score >= c] and the
    confirmation passes, the score drops by the stored [prestigeCost], the
    count grows by 1, the bonus by 10, the price becomes [floor(c * 2)], and
    the progress fields are reset; when [score < c], or when the
    confirmation is refused, nothing changes. *)
Lemma doPrestige_cases (s : State) :
  let c := or_default (prestigeCost s) 20000 in
  (prestigeCost s ≠ 0 → c = prestigeCost s) ∧
  (score s < c → ∀ confirmed, doPrestige confirmed s = s) ∧
  doPrestige false s = s ∧
  (c <= score s →
   let s' := doPrestige true s in
   score s' = score s - prestigeCost s ∧
   prestigeCount s' = prestigeCount s + 1 ∧
   prestigeBonus s' = prestigeBonus s + 10 ∧
   prestigeCost s' = Qfloor (inject_Z c * 2) ∧
   totalClicks s' = 0 ∧ autoClickers s' = 0 ∧
   multiplier s' = 1 ∧ multiplierCost s' = 1000 ∧
   critChance s' = 0.10%Q ∧ critPower s' = 10 ∧
   critChanceCost s' = 2000 ∧ critPowerCost s' = 3000 ∧
   tempBoostActive s' = false).
Proof.
  intros c. subst c. split; [apply or_default_nonzero|].
  unfold doPrestige. split; [|split].
  - intros Hlt confirmed.
    destruct (score s <? _) eqn:E; [done | apply Z.ltb_ge in E; lia].
  - by destruct (score s <? _).
  - intros Hle. destruct (score s <? _) eqn:E; [apply Z.ltb_lt in E; lia|].
    simpl. through_achievements. simpl. repeat split.
Qed.

(** C10.  A prestige leaves the player name, the best timed score, the
    timed-mode fields, the daily-challenge object, the price of the
    temporary boost, the theme, the sound settings, the last click time and
    the skins as they were; the achievement list is unchanged or extended
    by the one prestige achievement. *)
Theorem doPrestige_frame (confirmed : bool) (s : State) :
  let s' := doPrestige confirmed s in
  pseudo s' = pseudo s ∧
  bestTimed s' = bestTimed s ∧
  timedActive s' = timedActive s ∧
  timedTimeLeft s' = timedTimeLeft s ∧
  timedScore s' = timedScore s ∧
  daily s' = daily s ∧
  tempBoostCost s' = tempBoostCost s ∧
  theme s' = theme s ∧
  soundOn s' = soundOn s ∧
  musicOn s' = musicOn s ∧
  lastClickTime s' = lastClickTime s ∧
  ownedSkins s' = ownedSkins s ∧
  currentSkin s' = currentSkin s ∧
  (achievementsUnlocked s' = achievementsUnlocked s ∨
   achievementsUnlocked s' =
     achievementsUnlocked s ++ [AchPrestige (prestigeCount s + 1)]).
Proof.
  intros s'. subst s'. unfold doPrestige.
  destruct (score s <? _); [by repeat split; auto|].
  destruct confirmed; simpl; [|by repeat split; auto].
  through_achievements. simpl. repeat split.
  match goal with
  | |- context [unlockAchievement ?a ?t] =>
    destruct (unlockAchievement_fields a t) as [-> | ->]
  end; simpl; auto.
Qed.

(** ** Daily challenge *)

(** C4.  On a daily tick at time [now] with the challenge active, the score
    at or above the target and the reward not yet claimed, the tick marks
    the reward claimed, deactivates the challenge, sets its expiry to
    [now + 600000] and activates the temporary boost until
    [now + 600000]. *)
Theorem dailyTick_success (now : Z) (s : State) :
  active (daily s) = true →
  target (daily s) <= score s →
  claimedToday (daily s) = false →
  let s' := dailyTick now s in
  claimedToday (daily s') = true ∧
  active (daily s') = false ∧
  expiresAt (daily s') = now + 600000 ∧
  tempBoostActive s' = true ∧
  tempBoostEnd s' = now + 600000.
Proof.
  intros Hact Htgt Hcl s'. subst s'. unfold dailyTick.
  rewrite Hact, Hcl. simpl.
  destruct (target (daily s) <=? score s) eqn:E; [|apply Z.leb_gt in E; lia].
  simpl. through_achievements. simpl. repeat split; lia.
Qed.

(** The example of the specification: target 5000, score 5000, tick at
    time 1000. *)
Lemma dailyTick_success_witness :
  let s := set_daily (set_active true (daily default_state))
             (set_score 5000 default_state) in
  let s' := dailyTick 1000 s in
  claimedToday (daily s') = true ∧ active (daily s') = false ∧
  expiresAt (daily s') = 601000 ∧
  tempBoostActive s' = true ∧ tempBoostEnd s' = 601000.
Proof.
  intros s s'.
  apply (dailyTick_success 1000 s); [reflexivity | simpl; lia | reflexivity].
Defined.

Lemma daily_flags_ok_same_daily (s s' : State) :
  daily s' = daily s → daily_flags_ok s → daily_flags_ok s'.
Proof. unfold daily_flags_ok. by intros ->. Qed.

Lemma dailyTick_flags (now : Z) (s : State) :
  daily_flags_ok s → daily_flags_ok (dailyTick now s).
Proof.
  unfold daily_flags_ok, dailyTick. intros H.
  destruct (active (daily s)) eqn:Ea; simpl; [|by rewrite Ea; intros [? _]].
  destruct (_ && negb (claimedToday (daily s))).
  { through_achievements. simpl. by intros [? _]. }
  destruct (_ && negb (claimedToday (daily s))); simpl.
  - by intros [? _].
  - by rewrite Ea.
Qed.

Lemma ensureDaily_flags f k r1 r2 (g : Game) :
  daily_flags_ok (st g) → daily_flags_ok (st (ensureDaily f k r1 r2 g)).
Proof.
  unfold ensureDaily. destruct (f || _); [|done].
  intros _. unfold daily_flags_ok. simpl. by intros [? _].
Qed.

Lemma startDaily_flags k now r1 r2 (g : Game) :
  daily_flags_ok (st g) → daily_flags_ok (st (startDaily k now r1 r2 g)).
Proof.
  intros H. apply (ensureDaily_flags false k r1 r2) in H.
  unfold startDaily. set (g1 := ensureDaily false k r1 r2 g) in *.
  destruct (bool_decide _); [done|].
  destruct (active (daily (st g1))) eqn:Ea; [done|].
  destruct (claimedToday (daily (st g1))) eqn:Ec; [done|].
  unfold daily_flags_ok. simpl. through_achievements. simpl.
  rewrite Ec. by intros [_ ?].
Qed.

Lemma click_daily now rnd s : daily (click now rnd s) = daily s.
Proof. unfold click. by rewrite checkClickAchievements_ignored. Qed.

Lemma purchase_daily k now s : daily (purchase k now s) = daily s.
Proof.
  destruct k; simpl;
    unfold upgradeAuto, upgradeMult, upgradeCritChance, upgradeCritPower,
      upgradeTempBoost;
    (destruct (_ <=? score s); [|done]); by through_achievements.
Qed.

Lemma bonusClick_daily rnd s : daily (bonusClick rnd s) = daily s.
Proof. unfold bonusClick. simpl. by destruct (timedActive s). Qed.

Lemma doPrestige_daily c s : daily (doPrestige c s) = daily s.
Proof.
  unfold doPrestige. destruct (score s <? _); [done|].
  destruct c; simpl; [|done]. by through_achievements.
Qed.

Lemma autoClickLoop_daily now s : daily (autoClickLoop now s) = daily s.
Proof.
  unfold autoClickLoop.
  set (s1 := if 0 <? autoClickers s then _ else s).
  assert (H1 : daily s1 = daily s).
  { unfold s1. destruct (0 <? autoClickers s); [|done].
    simpl. by destruct (timedActive s). }
  destruct (_ && _); [|done]. by through_achievements.
Qed.

Lemma startTimed_daily g : daily (st (startTimed g)) = daily (st g).
Proof.
  unfold startTimed. destruct (timedActive (st g)); [done|].
  simpl. by through_achievements.
Qed.

Lemma timedTick_daily g : daily (st (timedTick g)) = daily (st g).
Proof.
  unfold timedTick. destruct (timedInterval g); [|done]. simpl.
  destruct (_ <=? 0); [|done]. simpl. by through_achievements.
Qed.

Lemma skinClick_daily sk s : daily (skinClick sk s) = daily s.
Proof.
  unfold skinClick. destruct (negb _); [|done]. by destruct (_ <=? _).
Qed.

Lemma computeAndDisplayCPS_daily now g :
  daily (st (computeAndDisplayCPS now g)) = daily (st g).
Proof.
  unfold computeAndDisplayCPS. simpl.
  destruct (12 <=? _); [|done]. by through_achievements.
Qed.

Lemma saveNow_daily s : daily (saveNow s) = daily s.
Proof. unfold saveNow. by through_achievements. Qed.

Lemma step_daily_flags (g : Game) (e : Event) :
  daily_flags_ok (st g) → daily_flags_ok (st (step g e)).
Proof.
  intros H. destruct e; simpl.
  - eapply daily_flags_ok_same_daily; [apply click_daily | done].
  - eapply daily_flags_ok_same_daily; [apply purchase_daily | done].
  - eapply daily_flags_ok_same_daily; [apply bonusClick_daily | done].
  - eapply daily_flags_ok_same_daily; [apply skinClick_daily | done].
  - eapply daily_flags_ok_same_daily; [apply doPrestige_daily | done].
  - eapply daily_flags_ok_same_daily; [apply autoClickLoop_daily | done].
  - eapply daily_flags_ok_same_daily; [apply startTimed_daily | done].
  - eapply daily_flags_ok_same_daily; [apply timedTick_daily | done].
  - by apply ensureDaily_flags.
  - by apply startDaily_flags.
  - by apply dailyTick_flags.
  - eapply daily_flags_ok_same_daily;
      [apply computeAndDisplayCPS_daily | done].
  - eapply daily_flags_ok_same_daily; [apply saveNow_daily | done].
  - done.
  - done.
Qed.

Lemma run_snoc g es e : run g (es ++ [e]) = step (run g es) e.
Proof. unfold run. by rewrite foldl_app. Qed.

(** C9.  From the default state, whatever the stored daily keys, no
    sequence of handler invocations (the daily operations [ensureDaily],
    [startDaily] and the daily tick among them) reaches a state where the
    challenge is both active and claimed.  The guard of [startDaily], read
    after its [ensureDaily] step, refuses to start while either flag is set,
    and a regeneration clears both flags. *)
Theorem daily_flags_exclusive :
  (∀ dk ds (es : list Event),
     let s := st (run (initial dk ds) es) in
     ¬ (active (daily s) = true ∧ claimedToday (daily s) = true)) ∧
  (∀ k now r1 r2 g,
     let g1 := ensureDaily false k r1 r2 g in
     active (daily (st g1)) = true ∨ claimedToday (daily (st g1)) = true →
     startDaily k now r1 r2 g = g1) ∧
  (∀ f k r1 r2 g,
     f = true ∨ ls_dailyKey g ≠ Some k →
     let s := st (ensureDaily f k r1 r2 g) in
     active (daily s) = false ∧ claimedToday (daily s) = false).
Proof.
  split; [|split].
  - intros dk ds es. simpl. induction es as [|e es IH] using rev_ind.
    + simpl. by intros [? _].
    + rewrite run_snoc. by apply step_daily_flags.
  - intros k now r1 r2 g g1 H. unfold startDaily. fold g1.
    destruct (bool_decide _); [done|].
    destruct (active (daily (st g1))); [done|].
    destruct (claimedToday (daily (st g1))); [done|].
    by destruct H.
  - intros f k r1 r2 g H. unfold ensureDaily.
    assert (f || negb (bool_decide (ls_dailyKey g = Some k)) = true) as ->.
    { destruct H as [-> | H]; [done|].
      rewrite bool_decide_eq_false_2 by done. by destruct f. }
    done.
Qed.

(** A claimed challenge is not restarted the same day, and a new day
    regenerates the challenge with both flags cleared. *)
Lemma daily_flags_exclusive_witness :
  let d := mkDaily false 5000 5 0 true in
  let g := mkGame (set_daily d default_state) (Some "Mon Nov 02 2026") None
                  false [] in
  startDaily "Mon Nov 02 2026" 1000 0 0 g = g ∧
  active (daily (st (ensureDaily false "Tue Nov 03 2026" 0 0 g))) = false ∧
  claimedToday (daily (st (ensureDaily false "Tue Nov 03 2026" 0 0 g)))
    = false.
Proof.
  intros d g.
  destruct daily_flags_exclusive as (_ & Hstart & Hregen).
  split.
  - rewrite (Hstart "Mon Nov 02 2026" 1000 0%Q 0%Q g); [reflexivity|].
    right. reflexivity.
  - apply (Hregen false "Tue Nov 03 2026" 0%Q 0%Q g).
    right. discriminate.
Defined.

(** ** Caps of the critical-hit upgrades *)

Lemma crit_ok_same (s s' : State) :
  critChance s' = critChance s → critPower s' = critPower s →
  crit_ok s → crit_ok s'.
Proof. unfold crit_ok. by intros -> ->. Qed.

Ltac frame_handler :=
  repeat first
    [ rewrite checkClickAchievements_ignored by auto
    | rewrite checkUpgradeAchievements_ignored by auto
    | rewrite unlockAchievement_ignored by auto
    | progress simpl
    | match goal with
      | |- context [if ?b then _ else _] => destruct b
      end ];
  try done.

Lemma click_crit now rnd s :
  critChance (click now rnd s) = critChance s ∧
  critPower (click now rnd s) = critPower s.
Proof. unfold click. split; frame_handler. Qed.

Lemma bonusClick_crit rnd s :
  critChance (bonusClick rnd s) = critChance s ∧
  critPower (bonusClick rnd s) = critPower s.
Proof. unfold bonusClick. split; frame_handler. Qed.

Lemma autoClickLoop_crit now s :
  critChance (autoClickLoop now s) = critChance s ∧
  critPower (autoClickLoop now s) = critPower s.
Proof. unfold autoClickLoop. split; frame_handler. Qed.

Lemma dailyTick_crit now s :
  critChance (dailyTick now s) = critChance s ∧
  critPower (dailyTick now s) = critPower s.
Proof. unfold dailyTick. split; frame_handler. Qed.

Lemma startTimed_crit g :
  critChance (st (startTimed g)) = critChance (st g) ∧
  critPower (st (startTimed g)) = critPower (st g).
Proof. unfold startTimed. split; frame_handler. Qed.

Lemma timedTick_crit g :
  critChance (st (timedTick g)) = critChance (st g) ∧
  critPower (st (timedTick g)) = critPower (st g).
Proof. unfold timedTick. split; frame_handler. Qed.

Lemma ensureDaily_crit f k r1 r2 g :
  critChance (st (ensureDaily f k r1 r2 g)) = critChance (st g) ∧
  critPower (st (ensureDaily f k r1 r2 g)) = critPower (st g).
Proof. unfold ensureDaily. split; frame_handler. Qed.

Lemma startDaily_crit k now r1 r2 g :
  critChance (st (startDaily k now r1 r2 g)) = critChance (st g) ∧
  critPower (st (startDaily k now r1 r2 g)) = critPower (st g).
Proof.
  destruct (ensureDaily_crit false k r1 r2 g) as [<- <-].
  unfold startDaily. set (g1 := ensureDaily false k r1 r2 g).
  split; frame_handler.
Qed.

Lemma purchase_crit k now s : crit_ok s → crit_ok (purchase k now s).
Proof.
  intros [Hc Hp]. unfold crit_ok.
  destruct k; simpl;
    unfold upgradeAuto, upgradeMult, upgradeCritChance, upgradeCritPower,
      upgradeTempBoost;
    (destruct (_ <=? score s); [|done]); through_achievements; simpl;
    split; try done.
  - apply Q.le_min_l.
  - lia.
Qed.

Lemma doPrestige_crit c s : crit_ok s → crit_ok (doPrestige c s).
Proof.
  intros H. unfold doPrestige. destruct (score s <? _); [done|].
  destruct c; simpl; [|done]. unfold crit_ok. through_achievements. simpl.
  split; [by vm_compute | lia].
Qed.

Lemma skinClick_crit sk s :
  critChance (skinClick sk s) = critChance s ∧
  critPower (skinClick sk s) = critPower s.
Proof. unfold skinClick. split; frame_handler. Qed.

Lemma computeAndDisplayCPS_crit now g :
  critChance (st (computeAndDisplayCPS now g)) = critChance (st g) ∧
  critPower (st (computeAndDisplayCPS now g)) = critPower (st g).
Proof.
  unfold computeAndDisplayCPS. simpl.
  destruct (12 <=? _); [|done]. by through_achievements.
Qed.

Lemma saveNow_crit s :
  critChance (saveNow s) = critChance s ∧ critPower (saveNow s) = critPower s.
Proof. unfold saveNow. by through_achievements. Qed.

Lemma step_crit_ok (g : Game) (e : Event) :
  crit_ok (st g) → crit_ok (st (step g e)).
Proof.
  intros H. destruct e; simpl.
  - destruct (click_crit now rnd (st g)). by eapply crit_ok_same.
  - by apply purchase_crit.
  - destruct (bonusClick_crit rnd (st g)). by eapply crit_ok_same.
  - destruct (skinClick_crit sk (st g)). by eapply crit_ok_same.
  - by apply doPrestige_crit.
  - destruct (autoClickLoop_crit now (st g)). by eapply crit_ok_same.
  - destruct (startTimed_crit g). by eapply crit_ok_same.
  - destruct (timedTick_crit g). by eapply crit_ok_same.
  - destruct (ensureDaily_crit forceNew todayKey r1 r2 g).
    by eapply crit_ok_same.
  - destruct (startDaily_crit todayKey now r1 r2 g). by eapply crit_ok_same.
  - destruct (dailyTick_crit now (st g)). by eapply crit_ok_same.
  - destruct (computeAndDisplayCPS_crit now g). by eapply crit_ok_same.
  - destruct (saveNow_crit (st g)). by eapply crit_ok_same.
  - done.
  - done.
Qed.

(** C6.  In every state reached from the default state by any sequence of
    handler invocations (purchases among them) [critChance <= 0.5] and
    [critPower <= 50].  A purchase of either upgrade at its cap is still
    accepted: the price is charged, the next price is doubled, and the stat
    stays at the cap. *)
Theorem crit_caps :
  (∀ dk ds (es : list Event),
     let s := st (run (initial dk ds) es) in
     (critChance s <= 0.5)%Q ∧ critPower s <= 50) ∧
  (∀ s, (critChance s == 0.5)%Q → critChanceCost s <= score s →
     let s' := upgradeCritChance s in
     score s' = score s - critChanceCost s ∧
     critChanceCost s' = 2 * critChanceCost s ∧
     (critChance s' == 0.5)%Q) ∧
  (∀ s, critPower s = 50 → critPowerCost s <= score s →
     let s' := upgradeCritPower s in
     score s' = score s - critPowerCost s ∧
     critPowerCost s' = 2 * critPowerCost s ∧
     critPower s' = 50).
Proof.
  split; [|split].
  - intros dk ds es. simpl. induction es as [|e es IH] using rev_ind.
    + split; [by vm_compute | by vm_compute].
    + rewrite run_snoc. by apply step_crit_ok.
  - intros s Hcap Hle s'. subst s'. unfold upgradeCritChance.
    destruct (_ <=? score s) eqn:E; [|apply Z.leb_gt in E; lia].
    through_achievements. simpl. rewrite floor_double.
    repeat split. apply Q.min_l. rewrite Hcap. by vm_compute.
  - intros s Hcap Hle s'. subst s'. unfold upgradeCritPower.
    destruct (_ <=? score s) eqn:E; [|apply Z.leb_gt in E; lia].
    simpl. rewrite floor_double, Hcap. repeat split.
Qed.

(** A state at both caps with a score of 10000: either upgrade is charged,
    its price doubles and the stat stays put. *)
Lemma crit_caps_witness :
  let s := set_critPower 50 (set_critChance 0.5
             (set_score 10000 default_state)) in
  (score (upgradeCritChance s) = 8000 ∧
   critChanceCost (upgradeCritChance s) = 4000 ∧
   (critChance (upgradeCritChance s) == 0.5)%Q) ∧
  (score (upgradeCritPower s) = 7000 ∧
   critPowerCost (upgradeCritPower s) = 6000 ∧
   critPower (upgradeCritPower s) = 50).
Proof.
  intros s. destruct crit_caps as (_ & Hchance & Hpower). split.
  - apply (Hchance s); [reflexivity | simpl; lia].
  - apply (Hpower s); [reflexivity | simpl; lia].
Defined.

(** ** Persistence throttle *)

Lemma advance_inv (now : Z) (t : Throttle) :
  throttle_inv t → throttle_inv (advance now t).
Proof.
  unfold throttle_inv, advance. destruct t as [l p ts ws]. simpl.
  destruct ts as [|d [|d' ts]]; destruct p; simpl; try done.
  rewrite !filter_cons, !filter_nil.
  destruct (decide (d <= now)); simpl.
  - by rewrite decide_False by tauto.
  - by rewrite decide_True by done.
Qed.

Lemma throttlePersist_inv (now : Z) (t : Throttle) :
  throttle_inv t → throttle_inv (throttlePersist now t).
Proof.
  unfold throttle_inv, throttlePersist. intros H.
  destruct (_ <? _); [done|].
  destruct (__pendingPersist t) eqn:E; simpl; [by rewrite E|].
  rewrite length_app, H. done.
Qed.

Lemma requests_inv (nows : list Z) (horizon : Z) :
  throttle_inv (requests nows horizon).
Proof.
  unfold requests. apply advance_inv.
  induction nows as [|now nows IH] using rev_ind; [done|].
  rewrite foldl_app. simpl. unfold request at 1.
  by apply throttlePersist_inv, advance_inv.
Qed.

(** What a request does.  Let [t] be the throttle when a request arrives
    at time [now], after any earlier requests.  At most one trailing write is
    scheduled at any time.  If more than 1000 ms passed since the last
    write, the request writes at once.  Otherwise, when no trailing write
    is scheduled the request writes nothing and schedules exactly one,
    due 1000 ms after the request; when one is scheduled the request does
    nothing.  A scheduled trailing write, once due, writes once, at its due
    time, and clears the pending flag. *)
Theorem throttlePersist_spec (nows : list Z) (now : Z) :
  let t := requests nows now in
  (length (timeouts t) <= 1)%nat ∧
  (length (timeouts (throttlePersist now t)) <= 1)%nat ∧
  (PERSIST_THROTTLE_MS < now - __lastPersist t →
   throttlePersist now t =
     mkThrottle now (__pendingPersist t) (timeouts t) (writes t ++ [now])) ∧
  (now - __lastPersist t <= PERSIST_THROTTLE_MS →
   __pendingPersist t = false →
   throttlePersist now t =
     mkThrottle (__lastPersist t) true [now + PERSIST_THROTTLE_MS]
                (writes t)) ∧
  (now - __lastPersist t <= PERSIST_THROTTLE_MS →
   __pendingPersist t = true →
   throttlePersist now t = t) ∧
  (∀ due later, timeouts t = [due] → due <= later →
   advance later t = mkThrottle due false [] (writes t ++ [due])).
Proof.
  intros t. pose proof (requests_inv nows now) as Hinv. fold t in Hinv.
  pose proof (throttlePersist_inv now t Hinv) as Hinv'.
  unfold throttle_inv in Hinv, Hinv'. repeat split.
  - rewrite Hinv. destruct (__pendingPersist t); lia.
  - rewrite Hinv'. destruct (__pendingPersist (throttlePersist now t)); lia.
  - intros H. unfold throttlePersist.
    destruct (_ <? _) eqn:E; [done | apply Z.ltb_ge in E; lia].
  - intros H Hp. unfold throttlePersist.
    destruct (_ <? _) eqn:E; [apply Z.ltb_lt in E; lia|].
    rewrite Hp in *. simpl.
    destruct (timeouts t); [done | discriminate].
  - intros H Hp. unfold throttlePersist.
    destruct (_ <? _) eqn:E; [apply Z.ltb_lt in E; lia|].
    by rewrite Hp.
  - intros due later Hd Hle. unfold advance. rewrite Hd.
    rewrite !filter_cons, !filter_nil.
    destruct (decide (¬ due <= later)); [tauto|].
    destruct (decide (due <= later)); [done | lia].
Qed.

(** After a write at 5000, a request at 5400 schedules the trailing write
    for 6400, which then runs at 6400. *)
Lemma throttlePersist_spec_witness :
  let t := requests [5000] 5400 in
  throttlePersist 5400 t = mkThrottle 5000 true [6400] [5000] ∧
  advance 7000 (throttlePersist 5400 t) = mkThrottle 6400 false [] [5000; 6400].
Proof.
  intros t.
  destruct (throttlePersist_spec [5000] 5400) as (_ & _ & _ & Hin & _ & _).
  fold t in Hin. split.
  - rewrite Hin; [reflexivity | vm_compute; discriminate | reflexivity].
  - destruct (throttlePersist_spec [5000; 5400] 5400)
      as (_ & _ & _ & _ & _ & Hrun).
    apply (Hrun 6400 7000); [reflexivity | lia].
Defined.

(** C7, where the throttle departs from it and from its own comment
    ("saves happen at most once per second").  Requests at 5000, 5999 and
    6001: the first writes at once, the second schedules a trailing write
    for 6999 (not for 6000, the end of the window opened at 5000), the
    third finds the window elapsed and writes at 6001 without cancelling
    the trailing write, which still runs at 6999, less than 1000 ms
    later. *)
Lemma throttle_two_writes_in_window :
  writes (requests [5000; 5999; 6001] 10000) = [5000; 6001; 6999] ∧
  timeouts (request (request throttle0 5000) 5999) = [6999] ∧
  ¬ one_write_per_window (writes (requests [5000; 5999; 6001] 10000)).
Proof.
  assert (H : writes (requests [5000; 5999; 6001] 10000) = [5000; 6001; 6999])
    by (by vm_compute).
  split; [done|]. split; [by vm_compute|].
  rewrite H. intros Hw.
  specialize (Hw 1%nat 2%nat 6001 6999).
  unfold PERSIST_THROTTLE_MS in Hw. simpl in Hw.
  specialize (Hw ltac:(lia) eq_refl eq_refl). lia.
Qed.

(** ** Loading a save without a prestige price *)

Lemma index_key_not_prestigeCost (i : nat) : index_key i ≠ "prestigeCost".
Proof. unfold index_key. destruct (Nat.to_uint i); discriminate. Qed.

Lemma indexed_entries_no_prestigeCost (l : list JSON) :
  "prestigeCost" ∉ (imap (fun i v => (index_key i, v)) l).*1.
Proof.
  intros H. apply list_elem_of_fmap in H as ([k v] & Hk & Hin).
  apply elem_of_lookup_imap in Hin as (i & x & Heq & _).
  simpl in Hk. injection Heq as -> _.
  by apply (index_key_not_prestigeCost i).
Qed.

(** Only an object can carry the field. *)
Lemma has_field_prestigeCost_object (j : JSON) :
  has_field "prestigeCost" j → ∃ kvs, j = JObj kvs.
Proof.
  unfold has_field. destruct j as [| | | s | l | kvs]; simpl;
    try (intros H; by apply not_elem_of_nil in H).
  - intros H. by apply indexed_entries_no_prestigeCost in H.
  - intros H. by apply indexed_entries_no_prestigeCost in H.
  - eauto.
Qed.

Lemma assign_entries_lookup_other (k : string) (kvs : list (string * JSON))
    (o : gmap string JSON) :
  k ∉ kvs.*1 →
  foldl (fun o kv => <[kv.1 := kv.2]> o) o kvs !! k = o !! k.
Proof.
  revert o. induction kvs as [|[k' v] kvs IH]; intros o Hk; simpl; [done|].
  rewrite fmap_cons in Hk. apply not_elem_of_cons in Hk as [Hne Hk].
  rewrite IH by done. by rewrite lookup_insert_ne.
Qed.

Lemma Object_assign_lookup_other (k : string) (j : JSON)
    (o : gmap string JSON) :
  ¬ has_field k j → Object_assign o j !! k = o !! k.
Proof. apply assign_entries_lookup_other. Qed.

(** Whatever the page and the save, the prestige price after a load is the
    price after the merge, except that a falsy price becomes 20000 when the
    body reaches the migration line. *)
Lemma load_body_prestigeCost (page : Page) (j : JSON)
    (o : gmap string JSON) :
  let merged := Object_assign o j in
  let o' := loadPersisted page (Parsed j) o in
  o' !! "prestigeCost" = merged !! "prestigeCost" ∨
  (truthy_prop (merged !! "prestigeCost") = false ∧
   setTheme_defined page = true ∧
   o' !! "prestigeCost" = Some (JNum 20000)).
Proof.
  intros merged o'. subst o'. unfold loadPersisted, load_body. fold merged.
  destruct (negb (achievementList_present page)); [by left|].
  destruct (_ && _); [by left|].
  destruct (setTheme_defined page); simpl; [|by left].
  set (m := if negb _ then _ else merged).
  assert (Hcopy : ∀ k (st : gmap string JSON), k ≠ "prestigeCost" →
            match get_prop j k with
            | Some v => if truthy v then <[k := v]> st else st
            | None => st
            end !! "prestigeCost" = st !! "prestigeCost").
  { intros k st Hk. destruct (get_prop j k) as [v|]; [|done].
    destruct (truthy v); [|done]. by rewrite lookup_insert_ne. }
  assert (Hm : m !! "prestigeCost" = merged !! "prestigeCost" ∨
               (truthy_prop (merged !! "prestigeCost") = false ∧
                m !! "prestigeCost" = Some (JNum 20000))).
  { unfold m. destruct (truthy_prop _); simpl; [by left|].
    right. by rewrite lookup_insert_eq. }
  assert (Hres : ∀ r : gmap string JSON,
            r !! "prestigeCost" = m !! "prestigeCost" →
            r !! "prestigeCost" = merged !! "prestigeCost" ∨
            (truthy_prop (merged !! "prestigeCost") = false ∧ true = true ∧
             r !! "prestigeCost" = Some (JNum 20000))).
  { intros r ->. destruct Hm as [-> | [? ->]]; auto. }
  destruct j; apply Hres; rewrite ?Hcopy; done.
Qed.

Lemma load_keeps_default_price (page : Page) (j : JSON)
    (state : gmap string JSON) :
  state !! "prestigeCost" = Some (JNum 20000) →
  ¬ has_field "prestigeCost" j →
  loadPersisted page (Parsed j) state !! "prestigeCost" = Some (JNum 20000).
Proof.
  intros Hdef Hno.
  assert (Hm : Object_assign state j !! "prestigeCost" = Some (JNum 20000))
    by (by rewrite Object_assign_lookup_other).
  destruct (load_body_prestigeCost page j state) as [-> | (_ & _ & ->)]; done.
Qed.

(** ** Interval callbacks in sequence *)

(** When the auto-click callback and then the daily callback run at the
    same time [now], the first can clear an expired boost and the second
    set it again: the boost expired, the challenge is active and its target
    is reached. *)
Lemma daily_success_after_boost_expiry (now : Z) (s : State) :
  tempBoostActive s = true → tempBoostEnd s < now →
  autoClickers s = 0 →
  active (daily s) = true → claimedToday (daily s) = false →
  target (daily s) <= score s →
  tempBoostActive (autoClickLoop now s) = false ∧
  tempBoostActive (dailyTick now (autoClickLoop now s)) = true ∧
  tempBoostEnd (dailyTick now (autoClickLoop now s)) = now + 600000.
Proof.
  intros Hb He Ha Hact Hcl Htgt.
  assert (Hloop : autoClickLoop now s
                  = unlockAchievement AchBoostEnd (set_tempBoostActive false s)).
  { unfold autoClickLoop. rewrite Ha. simpl. rewrite Hb. simpl.
    destruct (tempBoostEnd s <? now) eqn:E; [done | apply Z.ltb_ge in E; lia]. }
  rewrite Hloop. split; [by through_achievements|].
  unfold dailyTick. through_achievements. simpl. rewrite Hact, Hcl. simpl.
  destruct (target (daily s) <=? score s) eqn:E; [|apply Z.leb_gt in E; lia].
  simpl. through_achievements. simpl. split; [done | lia].
Qed.

(** ** Worked examples *)

(** A purchase without funds changes nothing. *)
Example purchase_without_funds :
  purchase AutoClick 0 default_state = default_state.
Proof. reflexivity. Qed.

(** From [critChance = 0.49] a purchase gives 0.50, and one more stays
    there. *)
Example critChance_clamped :
  let s := set_critChance 0.49 (set_score 100000 default_state) in
  (critChance (upgradeCritChance s) == 0.5)%Q ∧
  (critChance (upgradeCritChance (upgradeCritChance s)) == 0.5)%Q.
Proof. by vm_compute. Qed.

(** Timed mode started, sixty ticks later it is over and the best score is
    the larger of the old best and the timed score. *)
Example timed_mode_sixty_ticks :
  let g := run (initial None None)
               (EvStartTimed :: EvClick 10 (1 # 2) :: repeat EvTimedTick 60) in
  timedActive (st g) = false ∧ timedInterval g = false ∧
  timedScore (st g) = 1 ∧ bestTimed (st g) = 1.
Proof. by vm_compute. Qed.

(** A save with a zero price, on a page where [setTheme] is not defined:
    the migration line is not reached and the price stays zero. *)
Example load_zero_price_without_setTheme :
  loadPersisted (mkPage true true false)
                (Parsed (JObj [("prestigeCost", JNum 0)]))
                default_state_object !! "prestigeCost" = Some (JNum 0).
Proof. by vm_compute. Qed.

(** The same save on a page that defines [setTheme]: the price is
    migrated to 20000. *)
Example load_zero_price_with_setTheme :
  loadPersisted (mkPage true true true)
                (Parsed (JObj [("prestigeCost", JNum 0)]))
                default_state_object !! "prestigeCost" = Some (JNum 20000).
Proof. by vm_compute. Qed.

(** Binary64 rounding: [0.1] is not representable, [1 + 40 / 100] rounds,
    on a tie, to the number just below 1.4, and the critical click with
    multiplier 3, a prestige bonus of 20 and power 15 gains 53, where
    the exact product is 54. *)
Example double_one_tenth :
  (double (1 # 10) == 3602879701896397 # 36028797018963968)%Q.
Proof. by vm_compute. Qed.

Example double_bonus_factor :
  (double_add 1 (double_div 40 100)
   == 3152519739159347 # 2251799813685248)%Q.
Proof. by vm_compute. Qed.

Example clickGain_rounds_below :
  let s := set_critPower 15 (set_prestigeBonus 20
             (set_multiplier 3 default_state)) in
  Math_floor (clickGain true s) = 53.
Proof. by vm_compute. Qed.

(** * Further properties of the engine *)

(** ** The achievement list along a run *)

Lemma grows_refl (s : State) : grows s s.
Proof. by exists []. Qed.

Lemma grows_trans (s1 s2 s3 : State) : grows s1 s2 → grows s2 s3 → grows s1 s3.
Proof.
  intros [k1 H1] [k2 H2]. exists (k1 ++ k2). by rewrite foldl_app, <- H1.
Qed.

Lemma grows_set (s0 s s' : State) :
  achievementsUnlocked s' = achievementsUnlocked s → grows s0 s → grows s0 s'.
Proof. intros Heq [k Hk]. exists k. by rewrite Heq. Qed.

Lemma grows_unlock (s0 s : State) (a : Achievement) :
  grows s0 s → grows s0 (unlockAchievement a s).
Proof.
  intros H. eapply grows_trans; [exact H|]. exists [a]. simpl.
  unfold unlockAchievement, add_key. by case_decide.
Qed.

Lemma grows_milestones (s0 : State) (ms : list Z) :
  ∀ s, grows s0 s →
  grows s0 (foldl (fun s m =>
                     if totalClicks s =? m
                     then unlockAchievement (AchClicks (pseudo s) m) s
                     else s) s ms).
Proof.
  induction ms as [|m ms IH]; intros s H; simpl; [done|].
  apply IH. destruct (totalClicks s =? m); [by apply grows_unlock | done].
Qed.

Ltac grows_tac :=
  lazymatch goal with
  | |- grows ?s ?s => apply grows_refl
  | |- grows _ (unlockAchievement _ _) => apply grows_unlock; grows_tac
  | |- grows _ (foldl _ _ clickMilestones) => apply grows_milestones; grows_tac
  | |- grows _ (if ?b then _ else _) => destruct b; grows_tac
  | |- grows _ (?f ?v ?s) =>
    apply (grows_set _ s); [reflexivity | grows_tac]
  | |- grows _ (?f ?s) =>
    apply (grows_set _ s); [reflexivity | grows_tac]
  end.

Ltac unfold_handlers :=
  unfold click, checkClickAchievements, purchase, upgradeAuto, upgradeMult,
    upgradeCritChance, upgradeCritPower, upgradeTempBoost,
    checkUpgradeAchievements, bonusClick, skinClick, doPrestige,
    autoClickLoop, dailyTick, saveNow, musicToggle, soundToggle;
  cbv zeta.

Lemma startTimed_grows g : grows (st g) (st (startTimed g)).
Proof.
  unfold startTimed. destruct (timedActive (st g)); cbn [st]; grows_tac.
Qed.

Lemma timedTick_grows g : grows (st g) (st (timedTick g)).
Proof.
  unfold timedTick. cbv zeta. destruct (negb _); [apply grows_refl|].
  destruct (_ <=? 0); cbn [st]; grows_tac.
Qed.

Lemma ensureDaily_grows f k r1 r2 g :
  grows (st g) (st (ensureDaily f k r1 r2 g)).
Proof.
  unfold ensureDaily. destruct (f || _); cbn [st]; cbv zeta; grows_tac.
Qed.

Lemma startDaily_grows k now r1 r2 g :
  grows (st g) (st (startDaily k now r1 r2 g)).
Proof.
  unfold startDaily. cbv zeta.
  eapply grows_trans; [apply (ensureDaily_grows false k r1 r2)|].
  set (g1 := ensureDaily false k r1 r2 g).
  destruct (bool_decide _); [apply grows_refl|].
  destruct (active _); [apply grows_refl|].
  destruct (claimedToday _); [apply grows_refl|].
  cbn [st]. grows_tac.
Qed.

Lemma computeAndDisplayCPS_grows now g :
  grows (st g) (st (computeAndDisplayCPS now g)).
Proof. unfold computeAndDisplayCPS. cbv zeta. cbn [st]. grows_tac. Qed.

Lemma step_grows (g : Game) (e : Event) : grows (st g) (st (step g e)).
Proof.
  destruct e; simpl;
    [ | destruct k | .. ];
    first [ apply startTimed_grows | apply timedTick_grows
          | apply ensureDaily_grows | apply startDaily_grows
          | apply computeAndDisplayCPS_grows
          | unfold_handlers; grows_tac ].
Qed.

Lemma run_grows (g : Game) (es : list Event) : grows (st g) (st (run g es)).
Proof.
  induction es as [|e es IH] using rev_ind; [apply grows_refl|].
  rewrite run_snoc. eapply grows_trans; [exact IH | apply step_grows].
Qed.

Lemma add_keys_prefix (keys l : list Achievement) :
  l `prefix_of` foldl add_key l keys.
Proof.
  revert l. induction keys as [|a keys IH]; intros l; simpl; [done|].
  etrans; [|apply IH]. unfold add_key. case_decide; [done|].
  by apply prefix_app_r.
Qed.

Lemma add_keys_NoDup (keys l : list Achievement) :
  NoDup l → NoDup (foldl add_key l keys).
Proof.
  revert l. induction keys as [|a keys IH]; intros l Hl; simpl; [done|].
  apply IH. unfold add_key. case_decide; [done|].
  apply NoDup_app. split; [done|]. split; [|apply NoDup_singleton].
  intros x Hx Hx'. apply list_elem_of_singleton in Hx' as ->. done.
Qed.

(** X1.  Achievements are never lost or reordered: whatever handlers run,
    the achievement list before is a prefix of the list after. *)
Theorem achievements_only_grow (g : Game) (es : list Event) :
  achievementsUnlocked (st g) `prefix_of` achievementsUnlocked (st (run g es)).
Proof. destruct (run_grows g es) as [keys ->]. apply add_keys_prefix. Qed.

(** X2.  Unlocking is idempotent: in every state reached from the default
    state no achievement key is recorded twice, however often its
    condition fires again. *)
Theorem achievements_NoDup dk ds (es : list Event) :
  NoDup (achievementsUnlocked (st (run (initial dk ds) es))).
Proof.
  destruct (run_grows (initial dk ds) es) as [keys ->].
  apply add_keys_NoDup. simpl. apply NoDup_nil_2.
Qed.

(** ** Signs of the economy fields *)

Lemma inject_Z_nonneg (z : Z) : 0 <= z → (0 <= inject_Z z)%Q.
Proof. intros H. change 0%Q with (inject_Z 0). by rewrite <- Zle_Qle. Qed.

Lemma floor_nonneg (x : Q) : (0 <= x)%Q → 0 <= Math_floor x.
Proof.
  intros H. unfold Math_floor. change 0 with (Qfloor (inject_Z 0)) at 1.
  rewrite Qfloor_Z. change 0 with (Qfloor 0). by apply Qfloor_resp_le.
Qed.

Lemma floor_ge (c : Z) (x : Q) : (inject_Z c <= x)%Q → c <= Math_floor x.
Proof.
  intros H. unfold Math_floor. rewrite <- (Qfloor_Z c).
  by apply Qfloor_resp_le.
Qed.

Lemma floor_lt (c : Z) (x : Q) : (x < inject_Z c)%Q → Math_floor x < c.
Proof.
  intros H. unfold Math_floor.
  destruct (Z.lt_ge_cases (Qfloor x) c) as [|Hge]; [done|].
  exfalso. apply (Qlt_not_le _ _ H).
  eapply Qle_trans; [|apply Qfloor_le]. by rewrite <- Zle_Qle.
Qed.

Lemma floor_scale_ge (c : Z) : 0 <= c → c <= Math_floor (inject_Z c * 1.5).
Proof.
  intros H. apply floor_ge. pose proof (inject_Z_nonneg c H). lra.
Qed.

(** Rounding to binary64 keeps the sign. *)
Lemma Qpow2_pos (e : Z) : (0 < Qpow2 e)%Q.
Proof.
  unfold Qpow2. destruct (Z.leb_spec 0 e).
  - change 0%Q with (inject_Z 0). rewrite <- Zlt_Qlt.
    by apply Z.pow_pos_nonneg.
  - reflexivity.
Qed.

Lemma round_half_even_nonneg (x : Q) : (0 <= x)%Q → 0 <= round_half_even x.
Proof.
  intros H. unfold round_half_even. pose proof (floor_nonneg x H) as Hf.
  unfold Math_floor in Hf. cbv zeta.
  destruct (_ ?= _)%Q; [destruct (Z.even _)|..]; lia.
Qed.

Lemma double_of_pos_nonneg (x : Q) : (0 <= x)%Q → (0 <= double_of_pos x)%Q.
Proof.
  intros H. unfold double_of_pos. cbv zeta. set (e := Z.max _ _).
  pose proof (Qpow2_pos e) as He. apply Qmult_le_0_compat; [|lra].
  change 0%Q with (inject_Z 0). rewrite <- Zle_Qle.
  apply round_half_even_nonneg. apply Qle_shift_div_l; [done | lra].
Qed.

Lemma double_nonneg (x : Q) : (0 <= x)%Q → (0 <= double x)%Q.
Proof.
  intros H. unfold double. destruct (x ?= 0)%Q eqn:E.
  - apply Qle_refl.
  - apply Qlt_alt in E. lra.
  - by apply double_of_pos_nonneg.
Qed.

Lemma double_mul_nonneg (a b : Q) :
  (0 <= a)%Q → (0 <= b)%Q → (0 <= double_mul a b)%Q.
Proof. intros Ha Hb. by apply double_nonneg, Qmult_le_0_compat. Qed.

Lemma bonus_factor_nonneg (b : Z) :
  0 <= b → (0 <= double_add 1 (double_div (inject_Z b) 100))%Q.
Proof.
  intros H. pose proof (inject_Z_nonneg b H).
  assert (0 <= double_div (inject_Z b) 100)%Q.
  { apply double_nonneg. apply Qle_shift_div_l; [reflexivity | lra]. }
  apply double_nonneg. lra.
Qed.

Lemma clickGain_nonneg (isCrit : bool) (s : State) :
  0 <= multiplier s → 0 <= prestigeBonus s → 0 <= critPower s →
  (0 <= clickGain isCrit s)%Q.
Proof.
  intros Hm Hb Hc. unfold clickGain.
  pose proof (inject_Z_nonneg _ Hm) as Hm'.
  pose proof (inject_Z_nonneg _ Hc) as Hc'.
  pose proof (bonus_factor_nonneg _ Hb) as Hb'.
  assert (H2 : (0 <= if tempBoostActive s
                     then double_mul (inject_Z (multiplier s)) 2
                     else inject_Z (multiplier s))%Q)
    by (destruct (tempBoostActive s); [apply double_mul_nonneg; lra | done]).
  destruct isCrit; repeat apply double_mul_nonneg; done.
Qed.

Ltac split_guards :=
  repeat match goal with
         | |- context [?a <=? ?b] => destruct (Z.leb_spec a b)
         | |- context [?a <? ?b] => destruct (Z.ltb_spec a b)
         end.

Lemma click_econ now rnd s : econ_ok s → econ_ok (click now rnd s).
Proof.
  unfold econ_ok. intros H.
  destruct (click_spec now rnd s) as (Hs & Hc & Ht). cbv zeta in Hs.
  pose proof (floor_nonneg (clickGain (Qlt_bool rnd (critChance s)) s)
                (clickGain_nonneg _ s ltac:(lia) ltac:(lia) ltac:(lia))).
  rewrite Hs, Hc, Ht. unfold click.
  rewrite !checkClickAchievements_ignored by auto. simpl.
  destruct (timedActive s); lia.
Qed.

Lemma purchase_econ k now s : econ_ok s → econ_ok (purchase k now s).
Proof.
  unfold econ_ok. intros H.
  destruct k; simpl;
    unfold upgradeAuto, upgradeMult, upgradeCritChance, upgradeCritPower,
      upgradeTempBoost;
    split_guards; try done; through_achievements; simpl;
    rewrite ?floor_double;
    try (pose proof (floor_scale_ge (autoClickCost s) ltac:(lia)));
    lia.
Qed.

Lemma bonusClick_econ rnd s :
  (0 <= rnd)%Q → econ_ok s → econ_ok (bonusClick rnd s).
Proof.
  unfold econ_ok. intros Hr H. unfold bonusClick. cbv zeta.
  assert (0 <= Math_floor (100 + rnd * 900)) by (apply floor_nonneg; lra).
  destruct (timedActive _); simpl; lia.
Qed.

Lemma skinClick_econ sk s : 0 <= skin_cost sk → econ_ok s → econ_ok (skinClick sk s).
Proof.
  unfold econ_ok. intros Hc H. unfold skinClick. cbv zeta.
  destruct (negb _); [|simpl; lia]. split_guards; simpl; lia.
Qed.

Lemma doPrestige_econ c s : econ_ok s → econ_ok (doPrestige c s).
Proof.
  unfold econ_ok. intros H. unfold doPrestige.
  rewrite (or_default_nonzero (prestigeCost s)) by lia.
  split_guards; [done|].
  destruct c; simpl; [|done]. through_achievements. simpl.
  rewrite (or_default_nonzero (prestigeCost s)) by lia.
  rewrite floor_double. lia.
Qed.

Lemma autoClickLoop_econ now s : econ_ok s → econ_ok (autoClickLoop now s).
Proof.
  unfold econ_ok. intros H. unfold autoClickLoop. cbv zeta.
  set (gain := double_mul _ (double_add _ _)).
  assert (Hg : 0 <= Math_floor gain).
  { apply floor_nonneg. unfold gain.
    pose proof (inject_Z_nonneg (autoClickers s) ltac:(lia)).
    pose proof (inject_Z_nonneg (multiplier s) ltac:(lia)).
    pose proof (bonus_factor_nonneg (prestigeBonus s) ltac:(lia)).
    pose proof (double_mul_nonneg _ _ H0 H1).
    apply double_mul_nonneg; [|done].
    destruct (tempBoostActive s); [apply double_mul_nonneg; lra | done]. }
  destruct (0 <? autoClickers s);
    (destruct (_ && _); through_achievements; simpl;
     try destruct (timedActive s); simpl; lia).
Qed.

Lemma dailyTick_econ now s : econ_ok s → econ_ok (dailyTick now s).
Proof.
  unfold econ_ok. intros H. unfold dailyTick. cbv zeta.
  destruct (negb _); [done|].
  destruct (_ && _); [through_achievements; simpl; lia|].
  destruct (_ && _); simpl; lia.
Qed.

Lemma startTimed_econ g : econ_ok (st g) → econ_ok (st (startTimed g)).
Proof.
  unfold econ_ok. intros H. unfold startTimed.
  destruct (timedActive (st g)); [done|].
  cbn [st]. through_achievements. simpl. lia.
Qed.

Lemma timedTick_econ g : econ_ok (st g) → econ_ok (st (timedTick g)).
Proof.
  unfold econ_ok. intros H. unfold timedTick. cbv zeta.
  destruct (negb _); [done|].
  destruct (_ <=? 0); cbn [st]; through_achievements; simpl; lia.
Qed.

Lemma ensureDaily_econ f k r1 r2 g :
  econ_ok (st g) → econ_ok (st (ensureDaily f k r1 r2 g)).
Proof. unfold ensureDaily. by destruct (f || _). Qed.

Lemma startDaily_econ k now r1 r2 g :
  econ_ok (st g) → econ_ok (st (startDaily k now r1 r2 g)).
Proof.
  intros H. apply (ensureDaily_econ false k r1 r2) in H.
  unfold startDaily. cbv zeta. set (g1 := ensureDaily false k r1 r2 g) in *.
  destruct (bool_decide _); [done|].
  destruct (active _); [done|]. destruct (claimedToday _); [done|].
  unfold econ_ok in *. cbn [st]. through_achievements. simpl. lia.
Qed.

Lemma computeAndDisplayCPS_econ now g :
  econ_ok (st g) → econ_ok (st (computeAndDisplayCPS now g)).
Proof.
  unfold econ_ok. intros H. unfold computeAndDisplayCPS. cbv zeta. cbn [st].
  destruct (12 <=? _); through_achievements; lia.
Qed.

Lemma SKINS_cost_nonneg (sk : Skin) : sk ∈ SKINS → 0 <= skin_cost sk.
Proof.
  unfold SKINS. rewrite !elem_of_cons, elem_of_nil.
  intros [-> | [-> | [-> | []]]]; simpl; lia.
Qed.

Lemma step_econ (g : Game) (e : Event) :
  valid_event e → econ_ok (st g) → econ_ok (st (step g e)).
Proof.
  intros Hv H. destruct e; simpl in *.
  - by apply click_econ.
  - by apply purchase_econ.
  - apply bonusClick_econ; [by destruct Hv | done].
  - apply skinClick_econ; [by apply SKINS_cost_nonneg | done].
  - by apply doPrestige_econ.
  - by apply autoClickLoop_econ.
  - by apply startTimed_econ.
  - by apply timedTick_econ.
  - by apply ensureDaily_econ.
  - by apply startDaily_econ.
  - by apply dailyTick_econ.
  - by apply computeAndDisplayCPS_econ.
  - unfold saveNow, econ_ok in *. through_achievements. lia.
  - done.
  - done.
Qed.

Lemma run_econ dk ds (es : list Event) :
  Forall valid_event es → econ_ok (st (run (initial dk ds) es)).
Proof.
  induction es as [|e es IH] using rev_ind; intros Hv.
  - unfold econ_ok. simpl. lia.
  - apply Forall_app in Hv as [Hes He]. rewrite run_snoc.
    apply step_econ; [by inversion He | by apply IH].
Qed.

(** ** Who touches the upgrades *)

Ltac frame_fields f :=
  repeat first
    [ rewrite (checkClickAchievements_ignored f) by auto
    | rewrite (checkUpgradeAchievements_ignored f) by auto
    | rewrite (unlockAchievement_ignored f) by auto
    | match goal with
      | |- context [if ?b then _ else _] => destruct b
      end ];
  try reflexivity.

Lemma step_economy_fields (g : Game) (e : Event) :
  spends_on_upgrades e = false →
  economy_fields (st (step g e)) = economy_fields (st g).
Proof.
  intros He. destruct e; try discriminate; simpl.
  - unfold click. frame_fields economy_fields.
  - unfold bonusClick. frame_fields economy_fields.
  - unfold skinClick. frame_fields economy_fields.
  - unfold autoClickLoop. cbv zeta. frame_fields economy_fields.
  - unfold startTimed. destruct (timedActive (st g)); [done|].
    cbn [st]. frame_fields economy_fields.
  - unfold timedTick. cbv zeta. destruct (negb _); [done|].
    destruct (_ <=? 0); cbn [st]; frame_fields economy_fields.
  - unfold ensureDaily. by destruct (_ || _).
  - unfold startDaily, ensureDaily. cbv zeta.
    destruct (_ || _); cbn [st ls_dailyStarted];
      (destruct (bool_decide _); [done|]);
      (destruct (active _); [done|]);
      (destruct (claimedToday _); [done|]);
      cbn [st]; frame_fields economy_fields.
  - unfold dailyTick. cbv zeta. frame_fields economy_fields.
  - unfold computeAndDisplayCPS. cbv zeta. cbn [st].
    frame_fields economy_fields.
  - unfold saveNow. frame_fields economy_fields.
  - done.
  - done.
Qed.

(** X3.  Only the purchase buttons and the prestige button change the
    upgrade levels and the prices: whatever sequence of clicks, bonuses,
    skin purchases, timed and daily modes, interval callbacks and settings
    runs, all twelve fields are as they were. *)
Theorem upgrades_touched_only_by_purchases (g : Game) (es : list Event) :
  Forall (fun e => spends_on_upgrades e = false) es →
  economy_fields (st (run g es)) = economy_fields (st g).
Proof.
  induction es as [|e es IH] using rev_ind; intros Hes; [done|].
  apply Forall_app in Hes as [Hes He]. apply Forall_cons in He as [He _].
  rewrite run_snoc. rewrite step_economy_fields; [by apply IH | exact He].
Qed.

(** A click with random value [0.5], the bonus and a timed-mode start from
    the default state. *)
Lemma upgrades_touched_only_by_purchases_witness :
  economy_fields
    (st (run (initial None None)
             [EvClick 5 (1 # 2); EvBonus (1 # 3); EvStartTimed]))
  = economy_fields default_state.
Proof.
  apply (upgrades_touched_only_by_purchases (initial None None)
           [EvClick 5 (1 # 2); EvBonus (1 # 3); EvStartTimed]).
  repeat constructor.
Defined.

(** ** Invariants of the economy *)

Lemma purchase_charge (k : Kind) (now : Z) (s : State) :
  (score s < cost k s → purchase k now s = s) ∧
  (cost k s <= score s → score (purchase k now s) = score s - cost k s).
Proof.
  split; intros H;
    destruct k; simpl in *;
    unfold upgradeAuto, upgradeMult, upgradeCritChance, upgradeCritPower,
      upgradeTempBoost;
    split_guards; try lia; try done; through_achievements; done.
Qed.

Lemma skinClick_charge (sk : Skin) (s : State) :
  skin_id sk ∉ ownedSkins s →
  (score s < skin_cost sk → skinClick sk s = s) ∧
  (skin_cost sk <= score s →
   score (skinClick sk s) = score s - skin_cost sk).
Proof.
  intros Hnew. unfold skinClick. cbv zeta.
  rewrite bool_decide_eq_false_2 by done. simpl.
  split; intros H; split_guards; try lia; done.
Qed.

Lemma doPrestige_charge (s : State) :
  prestigeCost s ≠ 0 →
  (score s < prestigeCost s → ∀ confirmed, doPrestige confirmed s = s) ∧
  (prestigeCost s <= score s →
   score (doPrestige true s) = score s - prestigeCost s).
Proof.
  intros Hp. destruct (doPrestige_cases s) as (Hc & Hshort & _ & Hpaid).
  cbv zeta in *. rewrite Hc in * by done. split; [done|].
  intros Hle. by destruct (Hpaid Hle) as [-> _].
Qed.

(** X4.  With random values in [[0, 1)] and shop buttons from the
    catalogue, no sequence of handlers from the default state makes the
    score or the timed score negative, and the multiplier stays at least 1
    and the number of auto-clickers at least 0.  In such a state a purchase
    (an upgrade, a skin not yet owned, a prestige) made with a score below
    its price changes nothing, and an accepted one takes exactly the price
    off the score: the score is never clamped. *)
Theorem score_never_negative dk ds (es : list Event) :
  Forall valid_event es →
  let s := st (run (initial dk ds) es) in
  (0 <= score s ∧ 0 <= timedScore s ∧ 0 <= bestTimed s ∧
   1 <= multiplier s ∧ 0 <= autoClickers s) ∧
  (∀ k now,
     (score s < cost k s → purchase k now s = s) ∧
     (cost k s <= score s →
      score (purchase k now s) = score s - cost k s)) ∧
  (∀ sk, skin_id sk ∉ ownedSkins s →
     (score s < skin_cost sk → skinClick sk s = s) ∧
     (skin_cost sk <= score s →
      score (skinClick sk s) = score s - skin_cost sk)) ∧
  (score s < prestigeCost s → ∀ confirmed, doPrestige confirmed s = s) ∧
  (prestigeCost s <= score s →
   score (doPrestige true s) = score s - prestigeCost s).
Proof.
  intros Hv s. pose proof (run_econ dk ds es Hv) as H.
  fold s in H. unfold econ_ok in H.
  split; [lia|]. split; [intros k now; apply purchase_charge|].
  split; [intros sk; apply skinClick_charge|].
  apply doPrestige_charge. lia.
Qed.

(** A purchase refused for want of score, the bonus, a purchase of the
    boost, the free skin and a click: the score is 251, the pixel skin
    (15000) is refused and the boost (300) too. *)
Lemma score_never_negative_witness :
  let es := [EvPurchase AutoClick 0; EvBonus (1 # 2); EvPurchase TempBoost 10;
             EvSkin (mkSkin "default" 0); EvClick 20 (1 # 100)] in
  let s := st (run (initial None None) es) in
  0 <= score s ∧
  skinClick (mkSkin "pixel" 15000) s = s ∧
  purchase TempBoost 30 s = s.
Proof.
  intros es s.
  destruct (score_never_negative None None es) as (Hsign & Hbuy & Hskin & _).
  - repeat constructor; simpl; try (vm_compute; discriminate);
      try reflexivity.
  - fold s in Hsign, Hbuy, Hskin. split; [lia|]. split.
    + apply (proj1 (Hskin (mkSkin "pixel" 15000)
                      ltac:(apply (bool_decide_unpack _); by vm_compute))).
      by vm_compute.
    + apply (proj1 (Hbuy TempBoost 30)). by vm_compute.
Defined.

Lemma closed_forms_frame (s s' : State) :
  economy_fields s' = economy_fields s → closed_forms s → closed_forms s'.
Proof.
  unfold economy_fields, closed_forms. intros H.
  injection H as _ _ Hm Hmc _ _ _ _ _ Hpc Hpb Hpcost.
  by rewrite Hm, Hmc, Hpc, Hpb, Hpcost.
Qed.

Lemma pow2_succ (n : Z) : 0 <= n → 2 ^ (n + 1) = 2 * 2 ^ n.
Proof. intros H. rewrite Z.pow_add_r by lia. lia. Qed.

Lemma step_closed_forms (g : Game) (e : Event) :
  closed_forms (st g) → closed_forms (st (step g e)).
Proof.
  intros H. destruct (spends_on_upgrades e) eqn:He.
  - destruct e; try discriminate; simpl; unfold closed_forms in *.
    + destruct k; simpl;
        unfold upgradeAuto, upgradeMult, upgradeCritChance, upgradeCritPower,
          upgradeTempBoost;
        split_guards; try done; through_achievements; simpl; try done.
      rewrite floor_double.
      replace (multiplier (st g) + 1 - 1) with (multiplier (st g) - 1 + 1)
        by lia.
      rewrite pow2_succ by lia. lia.
    + unfold doPrestige. split_guards; [done|].
      destruct confirmed; simpl; [|done]. through_achievements. simpl.
      rewrite (or_default_nonzero (prestigeCost (st g))) by lia.
      rewrite floor_double, pow2_succ by lia. lia.
  - eapply closed_forms_frame; [|exact H].
    by apply step_economy_fields.
Qed.

(** X5.  In every state reached from the default state the prestige
    fields follow closed forms in the number of prestiges:
    [prestigeBonus = 10 * prestigeCount] and
    [prestigeCost = 20000 * 2 ^ prestigeCount]; and the multiplier price
    follows the multiplier: [multiplierCost = 1000 * 2 ^ (multiplier - 1)]. *)
Theorem prestige_closed_forms dk ds (es : list Event) :
  let s := st (run (initial dk ds) es) in
  0 <= prestigeCount s ∧ 1 <= multiplier s ∧
  prestigeBonus s = 10 * prestigeCount s ∧
  prestigeCost s = 20000 * 2 ^ prestigeCount s ∧
  multiplierCost s = 1000 * 2 ^ (multiplier s - 1).
Proof.
  simpl. induction es as [|e es IH] using rev_ind.
  - simpl. lia.
  - rewrite run_snoc. by apply step_closed_forms.
Qed.

Lemma run_closed_forms dk ds (es : list Event) :
  closed_forms (st (run (initial dk ds) es)).
Proof.
  induction es as [|e es IH] using rev_ind.
  - unfold closed_forms. simpl. lia.
  - rewrite run_snoc. by apply step_closed_forms.
Qed.

(** C3.  In every state reached from the default state: when the prestige
    handler runs with [score >= prestigeCost] and the confirmation passes,
    the score drops by exactly the old price, the count grows by 1, the
    bonus by exactly 10, the price becomes [floor(old price * 2)], and
    [totalClicks], [autoClickers], [multiplier], [multiplierCost],
    [critChance], [critPower], their prices and the boost flag are reset;
    when [score < prestigeCost], or when the confirmation is refused,
    nothing changes.  (The price of such a state is [20000 * 2 ^ count],
    never zero, so the fallback of [state.prestigeCost || 20000] is not
    taken.) *)
Theorem doPrestige_spec dk ds (es : list Event) :
  let s := st (run (initial dk ds) es) in
  (prestigeCost s <= score s →
   let s' := doPrestige true s in
   score s' = score s - prestigeCost s ∧
   prestigeCount s' = prestigeCount s + 1 ∧
   prestigeBonus s' = prestigeBonus s + 10 ∧
   prestigeCost s' = Math_floor (inject_Z (prestigeCost s) * 2) ∧
   totalClicks s' = 0 ∧ autoClickers s' = 0 ∧
   multiplier s' = 1 ∧ multiplierCost s' = 1000 ∧
   critChance s' = 0.10%Q ∧ critPower s' = 10 ∧
   critChanceCost s' = 2000 ∧ critPowerCost s' = 3000 ∧
   tempBoostActive s' = false) ∧
  (score s < prestigeCost s → ∀ confirmed, doPrestige confirmed s = s) ∧
  doPrestige false s = s.
Proof.
  intros s. pose proof (run_closed_forms dk ds es) as Hcf. fold s in Hcf.
  destruct Hcf as (Hcount & _ & _ & Hprice & _).
  assert (Hpos : prestigeCost s ≠ 0).
  { rewrite Hprice. pose proof (Z.pow_pos_nonneg 2 (prestigeCount s)). lia. }
  destruct (doPrestige_cases s) as (Hc & Hshort & Hrefused & Hpaid).
  cbv zeta in *. rewrite Hc in * by done. unfold Math_floor.
  split; [exact Hpaid | split; [exact Hshort | exact Hrefused]].
Qed.

(** Twenty-five bonuses of 999 points give a score of 24975, above the
    first price 20000: the prestige leaves 4975 and doubles the price. *)
Lemma doPrestige_spec_witness :
  let s :=
    st (run (initial None None) (replicate 25 (EvBonus (999 # 1000)))) in
  (score s = 24975 ∧ prestigeCost s = 20000) ∧
  let s' := doPrestige true s in
  score s' = score s - prestigeCost s ∧
  prestigeCount s' = prestigeCount s + 1 ∧
  prestigeBonus s' = prestigeBonus s + 10 ∧
  prestigeCost s' = Math_floor (inject_Z (prestigeCost s) * 2) ∧
  totalClicks s' = 0 ∧ autoClickers s' = 0 ∧
  multiplier s' = 1 ∧ multiplierCost s' = 1000 ∧
  critChance s' = 0.10%Q ∧ critPower s' = 10 ∧
  critChanceCost s' = 2000 ∧ critPowerCost s' = 3000 ∧
  tempBoostActive s' = false.
Proof.
  intros s. split; [by vm_compute|].
  apply (proj1 (doPrestige_spec None None
                  (replicate 25 (EvBonus (999 # 1000))))).
  by vm_compute.
Defined.

Lemma purchase_price_monotone k' now s k :
  econ_ok s → cost k s <= cost k (purchase k' now s).
Proof.
  unfold econ_ok. intros H.
  pose proof (floor_scale_ge (autoClickCost s) ltac:(lia)).
  destruct k'; simpl;
    unfold upgradeAuto, upgradeMult, upgradeCritChance, upgradeCritPower,
      upgradeTempBoost;
    split_guards; try done;
    destruct k; simpl; through_achievements; simpl;
    rewrite ?floor_double; lia.
Qed.

(** X6.  Prices only go up.  In a state reached from the default state
    (random values in [[0, 1)], shop buttons from the catalogue) no handler
    lowers the prestige price, and no handler other than the prestige
    lowers the price of any of the five purchases. *)
Theorem prices_never_decrease dk ds (es : list Event) (e : Event) :
  Forall valid_event es →
  let g := run (initial dk ds) es in
  prestigeCost (st g) <= prestigeCost (st (step g e)) ∧
  (is_prestige e = false → ∀ k, cost k (st g) <= cost k (st (step g e))).
Proof.
  intros Hv g. pose proof (run_econ dk ds es Hv) as Hok. fold g in Hok.
  assert (Hframe : spends_on_upgrades e = false →
            prestigeCost (st (step g e)) = prestigeCost (st g) ∧
            ∀ k, cost k (st (step g e)) = cost k (st g)).
  { intros He. pose proof (step_economy_fields g e He) as H.
    unfold economy_fields in H.
    injection H as _ Ha _ Hm _ _ Hcc Hcp Htb _ _ Hp.
    split; [done|]. by intros []. }
  destruct (spends_on_upgrades e) eqn:He.
  - destruct e; try discriminate; simpl.
    + split; [|intros _ k'; by apply purchase_price_monotone].
      destruct k; simpl;
        unfold upgradeAuto, upgradeMult, upgradeCritChance, upgradeCritPower,
          upgradeTempBoost;
        split_guards; through_achievements; simpl; lia.
    + split; [|discriminate].
      unfold econ_ok in Hok. unfold doPrestige. split_guards; [lia|].
      destruct confirmed; simpl; [|lia]. through_achievements. simpl.
      rewrite (or_default_nonzero (prestigeCost (st g))) by lia.
      rewrite floor_double. lia.
  - destruct (Hframe eq_refl) as [Hp Hk]. split; [lia|].
    intros _ k. rewrite Hk. lia.
Qed.

(** Buying the first auto-clicker with 600 points: its price goes from 500
    to 750 and no other price moves. *)
Lemma prices_never_decrease_witness :
  let g := run (initial None None) [EvBonus (5 # 9)] in
  let g' := step g (EvPurchase AutoClick 0) in
  score (st g) = 600 ∧ autoClickCost (st g') = 750 ∧
  ∀ k, cost k (st g) <= cost k (st g').
Proof.
  intros g g'. split; [reflexivity|]. split; [reflexivity|].
  apply (prices_never_decrease None None [EvBonus (5 # 9)]
           (EvPurchase AutoClick 0)); [|reflexivity].
  repeat constructor; simpl; vm_compute; discriminate.
Defined.

(** ** Timed mode *)

Ltac split_ifs :=
  repeat match goal with
         | |- context [if ?b then _ else _] => destruct b
         end.

Lemma timed_fields_other (g : Game) (e : Event) :
  e ≠ EvStartTimed → e ≠ EvTimedTick →
  timed_fields (step g e) = timed_fields g.
Proof.
  intros H1 H2. unfold timed_fields.
  destruct e; try done; simpl; try destruct k; simpl.
  1: { unfold click. by rewrite !checkClickAchievements_ignored by auto. }
  all: unfold upgradeAuto, upgradeMult, upgradeCritChance, upgradeCritPower,
         upgradeTempBoost, bonusClick, skinClick, doPrestige, autoClickLoop,
         ensureDaily, startDaily, ensureDaily, dailyTick,
         computeAndDisplayCPS, saveNow;
       cbv zeta; split_ifs; cbn [st timedInterval];
       by through_achievements.
Qed.

Lemma startTimed_fields (g : Game) :
  timedActive (st g) = false →
  timed_fields (startTimed g) = (true, 60, true).
Proof.
  intros H. unfold timed_fields, startTimed. rewrite H. cbn [st timedInterval].
  by through_achievements.
Qed.

Lemma timedTick_fields (g : Game) :
  timedInterval g = true →
  timed_fields (timedTick g) =
    if timedTimeLeft (st g) - 1 <=? 0
    then (false, timedTimeLeft (st g) - 1, false)
    else (timedActive (st g), timedTimeLeft (st g) - 1, true).
Proof.
  intros H. unfold timed_fields, timedTick. rewrite H. cbv zeta. simpl.
  destruct (_ <=? 0); cbn [st timedInterval]; by through_achievements.
Qed.

Lemma step_timed_ok (g : Game) (e : Event) :
  timed_ok g → timed_ok (step g e).
Proof.
  unfold timed_ok. intros [Hi Hr].
  assert (Hcase : e = EvStartTimed ∨ e = EvTimedTick ∨
                  (e ≠ EvStartTimed ∧ e ≠ EvTimedTick))
    by (destruct e; auto).
  destruct Hcase as [-> | [-> | [H1 H2]]]; simpl.
  - destruct (timedActive (st g)) eqn:Ha.
    + unfold startTimed. rewrite Ha. split; [congruence | auto].
    + pose proof (startTimed_fields g Ha) as H. unfold timed_fields in H.
      injection H as -> -> ->. split; [done | lia].
  - destruct (timedInterval g) eqn:Ht.
    + pose proof (timedTick_fields g Ht) as H. unfold timed_fields in H.
      rewrite <- Hi in Hr. specialize (Hr eq_refl).
      destruct (Z.leb_spec (timedTimeLeft (st g) - 1) 0);
        injection H as -> -> ->; split; try done; lia.
    + unfold timedTick. rewrite Ht. simpl. split; [congruence | auto].
  - pose proof (timed_fields_other g e H1 H2) as H. unfold timed_fields in H.
    by injection H as -> -> ->.
Qed.

(** X7.  In every state reached from the default state the countdown
    interval is registered exactly while timed mode is active, so a
    second interval is never started, and while the mode is active between
    1 and 60 seconds are left. *)
Theorem timed_mode_invariant dk ds (es : list Event) :
  let g := run (initial dk ds) es in
  timedInterval g = timedActive (st g) ∧
  (timedActive (st g) = true → 1 <= timedTimeLeft (st g) <= 60).
Proof.
  simpl. induction es as [|e es IH] using rev_ind.
  - simpl. split; [done | discriminate].
  - rewrite run_snoc. by apply step_timed_ok.
Qed.

(** After the button and seven ticks, 53 seconds are left. *)
Lemma timed_mode_invariant_witness :
  let g := run (initial None None) (EvStartTimed :: repeat EvTimedTick 7) in
  timedActive (st g) = true ∧ 1 <= timedTimeLeft (st g) <= 60.
Proof.
  intros g.
  destruct (timed_mode_invariant None None
              (EvStartTimed :: repeat EvTimedTick 7)) as [_ H].
  split; [reflexivity|]. apply H. reflexivity.
Defined.

Lemma timed_ticks_snoc (es : list Event) (e : Event) :
  timed_ticks (es ++ [e]) =
  timed_ticks es + (if is_timed_tick e then 1 else 0).
Proof.
  unfold timed_ticks. rewrite filter_app, length_app, filter_cons, filter_nil.
  destruct (is_timed_tick e) eqn:He; simpl; try case_decide; simpl;
    try done; lia.
Qed.

Lemma timed_countdown (g : Game) (es : list Event) :
  timedActive (st g) = false → timed_ticks es < 60 →
  timed_fields (run (startTimed g) es) = (true, 60 - timed_ticks es, true).
Proof.
  intros Ha. induction es as [|e es IH] using rev_ind; intros Hn.
  - simpl. rewrite (startTimed_fields g Ha). done.
  - rewrite timed_ticks_snoc in *. rewrite run_snoc.
    assert (Hes : timed_ticks es < 60).
    { unfold timed_ticks in *. destruct (is_timed_tick e); lia. }
    specialize (IH Hes). set (g1 := run (startTimed g) es) in *.
    unfold timed_fields in IH. injection IH as IHa IHt IHi.
    assert (Hcase : e = EvStartTimed ∨ e = EvTimedTick ∨
                    (e ≠ EvStartTimed ∧ e ≠ EvTimedTick))
      by (destruct e; auto).
    destruct Hcase as [-> | [-> | [H1 H2]]]; simpl in *.
    + unfold startTimed. rewrite IHa. unfold timed_fields.
      rewrite IHa, IHt, IHi. by rewrite Z.add_0_r.
    + rewrite (timedTick_fields g1 IHi), IHt, IHa.
      destruct (Z.leb_spec (60 - timed_ticks es - 1) 0); [lia|].
      by rewrite Z.sub_add_distr.
    + rewrite (timed_fields_other g1 e H1 H2). unfold timed_fields.
      rewrite IHa, IHt, IHi.
      assert (is_timed_tick e = false) as -> by (by destruct e).
      by rewrite Z.add_0_r.
Qed.

(** X8.  Timed mode lasts exactly sixty ticks of its interval, whatever
    other handlers run in between: started from an inactive state, after
    [n < 60] ticks it is still active with [60 - n] seconds left, and the
    sixtieth tick ends it, unregisters the interval and sets the best score
    to the larger of the old best and the timed score. *)
Theorem timed_mode_sixty_ticks_exactly (g : Game) (es : list Event) :
  timedActive (st g) = false →
  let g' := run (startTimed g) es in
  (timed_ticks es < 60 →
   timedActive (st g') = true ∧
   timedTimeLeft (st g') = 60 - timed_ticks es) ∧
  (timed_ticks es = 59 →
   let g'' := timedTick g' in
   timedActive (st g'') = false ∧ timedInterval g'' = false ∧
   bestTimed (st g'') = Z.max (bestTimed (st g')) (timedScore (st g'))).
Proof.
  intros Ha g'. split.
  - intros Hn. pose proof (timed_countdown g es Ha Hn) as H. fold g' in H.
    unfold timed_fields in H. by injection H as -> -> _.
  - intros Hn g''. pose proof (timed_countdown g es Ha ltac:(lia)) as H.
    fold g' in H. unfold timed_fields in H. injection H as H1 H2 H3.
    subst g''. unfold timedTick. rewrite H3. cbv zeta. simpl.
    rewrite H2, Hn. simpl. by through_achievements.
Qed.

(** A click between the ticks: after 59 ticks one second is left, and the
    next tick ends the mode with a best score of 1. *)
Lemma timed_mode_sixty_ticks_exactly_witness :
  let es := repeat EvTimedTick 30 ++ [EvClick 10 (1 # 2)]
            ++ repeat EvTimedTick 29 in
  let g' := run (startTimed (initial None None)) es in
  timedTimeLeft (st g') = 1 ∧
  timedActive (st (timedTick g')) = false ∧
  bestTimed (st (timedTick g')) = 1.
Proof.
  intros es g'.
  destruct (timed_mode_sixty_ticks_exactly (initial None None) es eq_refl)
    as [Hlt Hend].
  destruct Hlt as [_ Hleft]; [by vm_compute|].
  destruct Hend as (Hoff & _ & Hbest); [by vm_compute|].
  fold g' in Hleft, Hoff, Hbest.
  split; [rewrite Hleft; by vm_compute|]. split; [exact Hoff|].
  rewrite Hbest. by vm_compute.
Defined.

(** ** Daily challenge: generation and the once-a-day rule *)

Lemma step_bestTimed (g : Game) (e : Event) :
  bestTimed (st g) <= bestTimed (st (step g e)).
Proof.
  destruct e; simpl; try destruct k; simpl.
  1: { unfold click. rewrite checkClickAchievements_ignored by auto.
       simpl. lia. }
  all: unfold upgradeAuto, upgradeMult, upgradeCritChance, upgradeCritPower,
         upgradeTempBoost, bonusClick, skinClick, doPrestige, autoClickLoop,
         startTimed, timedTick, ensureDaily, startDaily, ensureDaily,
         dailyTick, computeAndDisplayCPS, saveNow, musicToggle, soundToggle;
       cbv zeta; split_ifs; cbn [st]; through_achievements; simpl; lia.
Qed.

(** X9.  The best timed score never goes down, whatever handlers run. *)
Theorem bestTimed_never_decreases (g : Game) (es : list Event) :
  bestTimed (st g) <= bestTimed (st (run g es)).
Proof.
  induction es as [|e es IH] using rev_ind; [simpl; lia|].
  rewrite run_snoc. pose proof (step_bestTimed (run g es) e). lia.
Qed.

Lemma ensureDaily_range f k r1 r2 (g : Game) :
  ((0 <= r1)%Q ∧ (r1 < 1)%Q) ∧ ((0 <= r2)%Q ∧ (r2 < 1)%Q) →
  daily_in_range (st g) → daily_in_range (st (ensureDaily f k r1 r2 g)).
Proof.
  intros [[H1 H1'] [H2 H2']] H. unfold ensureDaily.
  destruct (f || _); [|done]. unfold daily_in_range. cbn [st]. simpl.
  pose proof (floor_nonneg (r1 * 7000) ltac:(lra)).
  pose proof (floor_nonneg (r2 * 7) ltac:(lra)).
  pose proof (floor_lt 7000 (r1 * 7000)
                ltac:(change (inject_Z 7000) with 7000%Q; lra)).
  pose proof (floor_lt 7 (r2 * 7) ltac:(change (inject_Z 7) with 7%Q; lra)).
  lia.
Qed.

Lemma step_daily_range (g : Game) (e : Event) :
  valid_event e → daily_in_range (st g) → daily_in_range (st (step g e)).
Proof.
  intros Hv H. unfold daily_in_range in *.
  destruct e; cbn [step on_state with_st st clickButton valid_event] in *.
  - by rewrite click_daily.
  - by rewrite purchase_daily.
  - by rewrite bonusClick_daily.
  - by rewrite skinClick_daily.
  - by rewrite doPrestige_daily.
  - by rewrite autoClickLoop_daily.
  - by rewrite startTimed_daily.
  - by rewrite timedTick_daily.
  - by apply ensureDaily_range.
  - apply (ensureDaily_range false todayKey r1 r2 g Hv) in H.
    unfold startDaily. cbv zeta.
    set (g1 := ensureDaily false todayKey r1 r2 g) in *.
    unfold daily_in_range in H.
    split_ifs; try done. cbn [st]. through_achievements. simpl. done.
  - unfold dailyTick. cbv zeta. split_ifs; try done;
      through_achievements; simpl; done.
  - by rewrite computeAndDisplayCPS_daily.
  - by rewrite saveNow_daily.
  - done.
  - done.
Qed.

(** X10.  With random values in [[0, 1)] the daily challenge always has a
    target in [[3000, 10000)] and a reward between 3 and 9 percent, in every
    state reached from the default state. *)
Theorem daily_challenge_in_range dk ds (es : list Event) :
  Forall valid_event es →
  let s := st (run (initial dk ds) es) in
  3000 <= target (daily s) < 10000 ∧ 3 <= rewardPct (daily s) <= 9.
Proof.
  simpl. induction es as [|e es IH] using rev_ind; intros Hv.
  - simpl. lia.
  - apply Forall_app in Hv as [Hes He]. rewrite run_snoc.
    apply step_daily_range; [by inversion He | by apply IH].
Qed.

(** The largest random values give the target 9999 and the reward 9. *)
Lemma daily_challenge_in_range_witness :
  let r := (999999 # 1000000)%Q in
  let s := st (run (initial None None)
                   [EvEnsureDaily false "Mon Nov 02 2026" r r]) in
  target (daily s) = 9999 ∧ rewardPct (daily s) = 9 ∧
  3000 <= target (daily s) < 10000 ∧ 3 <= rewardPct (daily s) <= 9.
Proof.
  intros r s. split; [reflexivity|]. split; [reflexivity|].
  apply (daily_challenge_in_range None None
           [EvEnsureDaily false "Mon Nov 02 2026" r r]).
  repeat constructor; simpl; vm_compute; discriminate.
Defined.

(** X11.  The challenge of the day is generated once: on the same day a
    second [ensureDaily] without the force flag changes nothing, whatever
    its random values, so target, reward and progress persist until the
    day key changes. *)
Theorem ensureDaily_same_day f k r1 r2 r1' r2' (g : Game) :
  ensureDaily false k r1' r2' (ensureDaily f k r1 r2 g)
  = ensureDaily f k r1 r2 g.
Proof.
  unfold ensureDaily at 2. destruct (f || _) eqn:E.
  - unfold ensureDaily. cbn [ls_dailyKey].
    rewrite bool_decide_eq_true_2 by done. rewrite E. reflexivity.
  - apply orb_false_iff in E as [-> E]. apply negb_false_iff in E.
    unfold ensureDaily. rewrite E. reflexivity.
Qed.

Lemma step_dailyStarted (k : string) (g : Game) (e : Event) :
  starts_on_day k e → ls_dailyStarted g = Some k →
  ls_dailyStarted (step g e) = Some k ∧
  (active (daily (st (step g e))) = true → active (daily (st g)) = true).
Proof.
  intros Hk Hs.
  destruct e;
    cbn [step on_state with_st st clickButton starts_on_day ls_dailyStarted]
      in *.
  - by rewrite click_daily.
  - by rewrite purchase_daily.
  - by rewrite bonusClick_daily.
  - by rewrite skinClick_daily.
  - by rewrite doPrestige_daily.
  - by rewrite autoClickLoop_daily.
  - rewrite startTimed_daily. split; [|done].
    unfold startTimed. by destruct (timedActive _).
  - rewrite timedTick_daily. split; [|done].
    unfold timedTick. cbv zeta. by split_ifs.
  - unfold ensureDaily. destruct (_ || _); [|done]. cbn. split; done.
  - subst todayKey. unfold startDaily, ensureDaily. cbv zeta.
    destruct (_ || _); cbn [ls_dailyStarted st];
      rewrite Hs, bool_decide_eq_true_2 by done; cbn; split; done.
  - split; [done|]. unfold dailyTick. cbv zeta.
    destruct (active (daily (st g))) eqn:Ea; [auto|].
    simpl. by rewrite Ea.
  - rewrite computeAndDisplayCPS_daily. done.
  - by rewrite saveNow_daily.
  - done.
  - done.
Qed.

(** X12.  At most one start a day.  Once [dailyStarted] holds the day [k],
    no sequence of handlers whose daily-button clicks happen on day [k]
    activates a challenge again: if the challenge is active afterwards, it
    was already active before and has not ended in between. *)
Theorem daily_started_once (k : string) (g : Game) (es : list Event) :
  ls_dailyStarted g = Some k → Forall (starts_on_day k) es →
  ls_dailyStarted (run g es) = Some k ∧
  (active (daily (st (run g es))) = true → active (daily (st g)) = true).
Proof.
  intros Hs. induction es as [|e es IH] using rev_ind; intros Hk.
  - done.
  - apply Forall_app in Hk as [Hes He]. rewrite run_snoc.
    destruct (IH Hes) as [IHs IHa].
    destruct (step_dailyStarted k (run g es) e) as [H1 H2];
      [by inversion He | done |]. split; [done | auto].
Qed.

(** A challenge started and expired on the same day is not started again
    by a second click that day. *)
Lemma daily_started_once_witness :
  let day := "Mon Nov 02 2026" in
  let g := run (initial None None) [EvStartDaily day 1000 0 0] in
  let g' := run g [EvDailyTick 700000; EvStartDaily day 800000 0 0] in
  active (daily (st g)) = true ∧ active (daily (st g')) = false.
Proof.
  intros day g g'. split; [reflexivity|].
  destruct (daily_started_once day g
              [EvDailyTick 700000; EvStartDaily day 800000 0%Q 0%Q])
    as [_ H]; [reflexivity | by repeat constructor |].
  reflexivity.
Defined.

(** ** Boost, milestones and skins *)

(** X13.  The auto-click tick pays before it checks the expiry: with the
    boost on and at least one auto-clicker, the tick adds the doubled gain,
    the floor of the binary64 product
    [autoClickers * multiplier * 2 * (1 + prestigeBonus / 100)] (each
    operation rounded as the handler performs it), to the score, and to the
    timed score in timed mode, even on the tick that ends the boost; the
    boost stays on while [now <= tempBoostEnd] and goes off on the first
    tick strictly after. *)
Theorem boost_pays_until_expiry_tick (now : Z) (s : State) :
  tempBoostActive s = true → 0 < autoClickers s →
  let gain :=
    Math_floor
      (double_mul
         (double_mul
            (double_mul (inject_Z (autoClickers s)) (inject_Z (multiplier s)))
            2)
         (double_add 1 (double_div (inject_Z (prestigeBonus s)) 100))) in
  let s' := autoClickLoop now s in
  score s' = score s + gain ∧
  timedScore s' =
    (if timedActive s then timedScore s + gain else timedScore s) ∧
  tempBoostActive s' = bool_decide (now <= tempBoostEnd s).
Proof.
  intros Hb Ha gain s'. subst s' gain. unfold autoClickLoop. cbv zeta.
  rewrite Hb. destruct (Z.ltb_spec 0 (autoClickers s)); [|lia].
  set (gain := Math_floor _). clearbody gain.
  change (timedActive (set_score (score s + gain) s)) with (timedActive s).
  destruct (timedActive s) eqn:Ht; simpl; rewrite Hb; simpl;
    (destruct (Z.ltb_spec (tempBoostEnd s) now);
     [rewrite bool_decide_eq_false_2 by lia
     |rewrite bool_decide_eq_true_2 by lia]);
    through_achievements; simpl; done.
Qed.

(** Nine auto-clickers, multiplier 5, a prestige bonus of 40 and the boost
    ending at 1000.  In binary64 [1 + 40 / 100] is the number just below
    1.4 and [90] times it is just below 126: the tick at 1001 pays 125 and
    the boost goes off; a tick at 1000 leaves it on. *)
Lemma boost_pays_until_expiry_tick_witness :
  let s := set_tempBoostEnd 1000 (set_tempBoostActive true
             (set_prestigeBonus 40 (set_multiplier 5
                (set_autoClickers 9 default_state)))) in
  score (autoClickLoop 1001 s) = 125 ∧
  tempBoostActive (autoClickLoop 1001 s) = false ∧
  tempBoostActive (autoClickLoop 1000 s) = true.
Proof.
  intros s.
  destruct (boost_pays_until_expiry_tick 1001 s eq_refl) as (H1 & _ & H2);
    [simpl; lia|].
  destruct (boost_pays_until_expiry_tick 1000 s eq_refl) as (_ & _ & H3);
    [simpl; lia|].
  rewrite H1, H2, H3. clear H1 H2 H3. vm_compute. by repeat split.
Defined.

Lemma milestones_fold_keys (ms : list Z) :
  ∀ s,
  achievementsUnlocked
    (foldl (fun s m =>
              if totalClicks s =? m
              then unlockAchievement (AchClicks (pseudo s) m) s
              else s) s ms)
  = foldl add_key (achievementsUnlocked s)
          (AchClicks (pseudo s) <$> filter (fun m => totalClicks s = m) ms).
Proof.
  induction ms as [|m ms IH]; intros s; simpl; [done|].
  rewrite IH, filter_cons.
  destruct (Z.eqb_spec (totalClicks s) m) as [Heq | Hne].
  - rewrite decide_True by done. simpl.
    rewrite ?(unlockAchievement_ignored pseudo),
      ?(unlockAchievement_ignored totalClicks) by auto.
    f_equal. unfold unlockAchievement, add_key. by case_decide.
  - by rewrite decide_False by done.
Qed.

Lemma filter_eq_NoDup (n : Z) (ms : list Z) :
  NoDup ms →
  filter (fun m => n = m) ms = if decide (n ∈ ms) then [n] else [].
Proof.
  induction 1 as [|m ms Hm Hnd IH]; [done|].
  rewrite filter_cons, IH. destruct (decide (n = m)) as [<- | Hne].
  - rewrite (decide_False (P := n ∈ ms)) by done.
    by rewrite (decide_True (P := n ∈ n :: ms)) by left.
  - destruct (decide (n ∈ ms)) as [Hin | Hnin].
    + by rewrite (decide_True (P := n ∈ m :: ms)) by (by right).
    + rewrite (decide_False (P := n ∈ m :: ms)); [done|].
      by intros [?|?]%elem_of_cons.
Qed.

(** X14.  Click milestones fire on exact equality: a click records the
    milestone achievement of the new click count when that count is one of
    100, 1000, ..., 10000000 and the key is not yet present, and otherwise
    leaves the achievement list alone. *)
Theorem click_milestone_exact (now : Z) (rnd : Q) (s : State) :
  let n := totalClicks s + 1 in
  achievementsUnlocked (click now rnd s) =
    if decide (n ∈ clickMilestones)
    then add_key (achievementsUnlocked s) (AchClicks (pseudo s) n)
    else achievementsUnlocked s.
Proof.
  intros n. unfold click, checkClickAchievements. cbv zeta.
  set (s1 := set_totalClicks _ _).
  assert (H : achievementsUnlocked
            (foldl (fun s m =>
                      if totalClicks s =? m
                      then unlockAchievement (AchClicks (pseudo s) m) s
                      else s) s1 clickMilestones)
          = if decide (n ∈ clickMilestones)
            then add_key (achievementsUnlocked s) (AchClicks (pseudo s) n)
            else achievementsUnlocked s).
  { rewrite milestones_fold_keys, filter_eq_NoDup.
    - change (totalClicks s1) with n. change (pseudo s1) with (pseudo s).
      change (achievementsUnlocked s1) with (achievementsUnlocked s).
      by destruct (decide (n ∈ clickMilestones)).
    - apply (bool_decide_unpack _). by vm_compute. }
  by destruct (timedActive _).
Qed.

(** X15.  A skin is paid for once: a second click on the same shop button
    changes nothing (the first either bought and equipped the skin, only
    equipped it, or was refused), and no sequence of handlers from the
    default state records a skin twice. *)
Theorem skin_paid_once :
  (∀ sk s, skinClick sk (skinClick sk s) = skinClick sk s) ∧
  (∀ dk ds (es : list Event),
     NoDup (ownedSkins (st (run (initial dk ds) es)))).
Proof.
  split.
  - intros sk s. unfold skinClick at 2. cbv zeta.
    destruct (bool_decide (skin_id sk ∈ ownedSkins s)) eqn:Ho; simpl.
    + unfold skinClick. cbn [ownedSkins set_currentSkin]. by rewrite Ho.
    + destruct (Z.leb_spec (skin_cost sk) (score s)) as [Hle | Hgt].
      * unfold skinClick. cbn [ownedSkins set_currentSkin set_ownedSkins
                                set_score].
        rewrite bool_decide_eq_true_2 by set_solver. rewrite Ho. simpl.
        destruct (Z.leb_spec (skin_cost sk) (score s)); [done | lia].
      * unfold skinClick. rewrite Ho. simpl.
        destruct (Z.leb_spec (skin_cost sk) (score s)); [lia | done].
  - intros dk ds es. induction es as [|e es IH] using rev_ind.
    + simpl. apply NoDup_nil_2.
    + rewrite run_snoc. set (g := run (initial dk ds) es) in *.
      destruct e; simpl; try destruct k; simpl.
      all: try (unfold click;
                by rewrite checkClickAchievements_ignored by auto).
      all: try (lazymatch goal with |- context [skinClick] => idtac end;
                unfold skinClick; cbv zeta;
                destruct (bool_decide _) eqn:Ho; simpl; [done|];
                destruct (_ <=? _); [|done]; simpl;
                apply bool_decide_eq_false in Ho;
                apply NoDup_app; split; [done|];
                split; [|apply NoDup_singleton];
                by intros x Hx ->%list_elem_of_singleton).
      all: unfold upgradeAuto, upgradeMult, upgradeCritChance,
             upgradeCritPower, upgradeTempBoost, bonusClick, doPrestige,
             autoClickLoop, startTimed, timedTick, ensureDaily, startDaily,
             ensureDaily, dailyTick, computeAndDisplayCPS, saveNow,
             musicToggle, soundToggle;
           cbv zeta; split_ifs; cbn [st]; by through_achievements.
Qed.

(** ** The persistence throttle never loses a request *)

Lemma advance_timeouts (now : Z) (t : Throttle) :
  throttle_inv t →
  timeouts (advance now t) = filter (fun d => ¬ d <= now) (timeouts t).
Proof.
  unfold throttle_inv, advance. destruct t as [l p ts ws]. simpl.
  destruct ts as [|d [|d' ts]]; destruct p; simpl; try done.
  intros _. rewrite !filter_cons, !filter_nil.
  destruct (decide (d <= now)), (decide (¬ d <= now)); done.
Qed.

Lemma advance_fires (now d : Z) (t : Throttle) :
  timeouts t = [d] → d <= now →
  writes (advance now t) = writes t ++ [d].
Proof.
  intros Hd Hle. unfold advance. rewrite Hd, !filter_cons, !filter_nil.
  destruct (decide (¬ d <= now)); [tauto|].
  destruct (decide (d <= now)); [done | lia].
Qed.

Lemma advance_keeps_writes (now : Z) (t : Throttle) :
  throttle_inv t → writes t `prefix_of` writes (advance now t).
Proof.
  unfold throttle_inv, advance. destruct t as [l p ts ws]. simpl.
  destruct ts as [|d [|d' ts]]; destruct p; simpl; try done.
  intros _. rewrite !filter_cons, !filter_nil.
  destruct (decide (d <= now)), (decide (¬ d <= now)); simpl; try done;
    by apply prefix_app_r.
Qed.

Lemma request_bounded (m : Z) (nows : list Z) :
  Forall (fun r => r <= m) nows →
  Forall (fun d => d <= m + PERSIST_THROTTLE_MS)
         (timeouts (foldl request throttle0 nows)).
Proof.
  induction nows as [|r nows IH] using rev_ind; intros Hr; [by constructor|].
  apply Forall_app in Hr as [Hnows Hlast]. rewrite foldl_app. simpl.
  specialize (IH Hnows). set (t := foldl request throttle0 nows) in *.
  assert (Hinv : throttle_inv t).
  { subst t. clear. induction nows as [|r nows IH] using rev_ind; [done|].
    rewrite foldl_app. simpl. by apply throttlePersist_inv, advance_inv. }
  assert (Hadv : Forall (fun d => d <= m + PERSIST_THROTTLE_MS)
                        (timeouts (advance r t))).
  { rewrite advance_timeouts by done. rewrite Forall_forall in IH |- *.
    intros d [_ Hd]%list_elem_of_filter. by apply IH. }
  unfold request, throttlePersist.
  destruct (_ <? _); [done|]. destruct (negb _); [|done]. simpl.
  apply Forall_app. split; [done|]. constructor; [|done].
  inversion Hlast; subst. unfold PERSIST_THROTTLE_MS. lia.
Qed.

Lemma history_inv (nows : list Z) : throttle_inv (foldl request throttle0 nows).
Proof.
  induction nows as [|r nows IH] using rev_ind; [done|].
  rewrite foldl_app. simpl. by apply throttlePersist_inv, advance_inv.
Qed.

(** X16.  No save request is lost.  After any earlier requests, a request
    at time [now] is followed by a physical write no later than 1000 ms
    after it: the write happens at once, or the trailing write this
    request schedules runs at [now + 1000], or the one already scheduled
    runs in between. *)
Theorem request_is_written (nows : list Z) (now : Z) :
  Forall (fun r => r <= now) nows →
  let t := advance (now + PERSIST_THROTTLE_MS)
                   (request (foldl request throttle0 nows) now) in
  ∃ w, w ∈ writes t ∧ now <= w <= now + PERSIST_THROTTLE_MS.
Proof.
  intros Hr t. subst t.
  pose proof (request_bounded now nows Hr) as Hb.
  pose proof (history_inv nows) as Hinv.
  set (t0 := foldl request throttle0 nows) in *.
  pose proof (advance_inv now t0 Hinv) as Hinv1.
  pose proof (advance_timeouts now t0 Hinv) as Ht1.
  set (t1 := advance now t0) in *.
  unfold request. fold t1.
  pose proof (throttlePersist_inv now t1 Hinv1) as Hinv2.
  unfold throttlePersist in *.
  destruct (PERSIST_THROTTLE_MS <? now - __lastPersist t1).
  - exists now. split; [|unfold PERSIST_THROTTLE_MS; lia].
    eapply elem_of_prefix; [|by apply advance_keeps_writes].
    simpl. apply elem_of_app. right. by left.
  - unfold throttle_inv in Hinv1.
    destruct (__pendingPersist t1) eqn:Hp; simpl in *.
    + destruct (timeouts t1) as [|d [|d' l]] eqn:Hd; try done.
      assert (Hin : d ∈ filter (fun d => ¬ d <= now) (timeouts t0))
        by (rewrite <- Ht1; by left).
      apply list_elem_of_filter in Hin as [Hgt Hin].
      rewrite Forall_forall in Hb. specialize (Hb d Hin).
      exists d. split; [|lia].
      rewrite (advance_fires _ d) by done.
      apply elem_of_app. right. by left.
    + destruct (timeouts t1) as [|d l] eqn:Hd; [|done]. simpl.
      exists (now + PERSIST_THROTTLE_MS). split; [|unfold PERSIST_THROTTLE_MS; lia].
      rewrite (advance_fires _ (now + PERSIST_THROTTLE_MS)) by done.
      apply elem_of_app. right. by left.
Qed.

(** Requests at 5000, 5999 and 6001, then one at 6500: it is covered by the
    trailing write at 6999. *)
Lemma request_is_written_witness :
  let t := advance 7500 (request (foldl request throttle0 [5000; 5999; 6001])
                                 6500) in
  writes t = [5000; 6001; 6999] ∧
  ∃ w, w ∈ writes t ∧ 6500 <= w <= 7500.
Proof.
  intros t. split; [by vm_compute|].
  apply (request_is_written [5000; 5999; 6001] 6500).
  repeat constructor; lia.
Defined.

(** * Keyboard and gamepad input *)

Lemma spaced_snoc (gap n : Z) (ts : list Z) :
  spaced gap ts → (∀ a, a ∈ ts → gap <= n - a) → spaced gap (ts ++ [n]).
Proof.
  intros Hs Hn i j a b Hij Ha Hb.
  destruct (decide (j < length ts)%nat) as [Hj | Hj].
  - rewrite lookup_app_l in Ha by lia. rewrite lookup_app_l in Hb by lia.
    exact (Hs i j a b Hij Ha Hb).
  - pose proof (lookup_lt_Some _ _ _ Hb) as Hlen.
    rewrite length_app in Hlen. simpl in Hlen.
    assert (j = length ts) as -> by lia.
    rewrite lookup_app_r, Nat.sub_diag in Hb by lia. injection Hb as <-.
    rewrite lookup_app_l in Ha by lia.
    apply Hn. by eapply list_elem_of_lookup_2.
Qed.

Lemma keydownClick_cases typing code repeated now c :
  keydownClick typing code repeated now c = (c, []) ∨
  (__KEY_MIN_DELAY <= now - __lastKeyClick c ∧
   keydownClick typing code repeated now c =
     (mkControls now (lastNavTime c) (prevA c) (prevX c) (bonusClaimed c)
                 (navIndex c), [ClickMain])).
Proof.
  unfold keydownClick. destruct typing; [by left|].
  destruct (_ || _); [|by left]. destruct repeated; [by left|].
  destruct (Z.ltb_spec (now - __lastKeyClick c) __KEY_MIN_DELAY);
    [by left | right; by split].
Qed.

Lemma keydownBonus_cases code shown c :
  keydownBonus code shown c = (c, []) ∨
  (bonusClaimed c = false ∧
   keydownBonus code shown c =
     (mkControls (__lastKeyClick c) (lastNavTime c) (prevA c) (prevX c) true
                 (navIndex c), [ClickBonus])).
Proof.
  unfold keydownBonus. destruct (bool_decide _); [|by left].
  destruct (bonusClaimed c) eqn:Hb; simpl; [by left|].
  destruct shown; [right | by left]. by split.
Qed.

Lemma key_click_times_app (l1 l2 : list (Z * Action)) :
  key_click_times (l1 ++ l2) = key_click_times l1 ++ key_click_times l2.
Proof. unfold key_click_times. apply omap_app. Qed.

Lemma bonus_clicks_app (l1 l2 : list (Z * Action)) :
  bonus_clicks (l1 ++ l2) = (bonus_clicks l1 + bonus_clicks l2)%nat.
Proof. unfold bonus_clicks. by rewrite filter_app, length_app. Qed.

Lemma rem_next_range (n : Z) :
  0 <= n < navigable_length →
  0 <= Z.rem (n + 1) navigable_length < navigable_length.
Proof.
  unfold navigable_length. intros H. rewrite Z.rem_mod_nonneg by lia.
  apply Z.mod_pos_bound. lia.
Qed.

Lemma rem_prev_range (n : Z) :
  0 <= n < navigable_length →
  0 <= Z.rem (n - 1 + navigable_length) navigable_length < navigable_length.
Proof.
  unfold navigable_length. intros H. rewrite Z.rem_mod_nonneg by lia.
  apply Z.mod_pos_bound. lia.
Qed.

Ltac small_list_mem :=
  repeat match goal with
         | H : _ ∈ [] |- _ => by apply elem_of_nil in H
         | H : _ ∈ _ :: _ |- _ => apply elem_of_cons in H as [H | H]
         | H : (_, _) = (_, _) |- _ => injection H as ? ?; subst
         | H : ClickNavigable _ = ClickNavigable _ |- _ =>
           injection H as ?; subst
         end;
  try done.

Lemma log_extend_ok (c c' : Controls) (log new : list (Z * Action)) :
  controls_ok (c, log) →
  0 <= navIndex c' < navigable_length →
  (∀ t i, (t, ClickNavigable i) ∈ new → 0 <= i < navigable_length) →
  (bonus_clicks log + bonus_clicks new)%nat
    = (if bonusClaimed c' then 1%nat else 0%nat) →
  (key_click_times new = [] ∧ __lastKeyClick c' = __lastKeyClick c ∨
   key_click_times new = [__lastKeyClick c'] ∧
   __KEY_MIN_DELAY <= __lastKeyClick c' - __lastKeyClick c) →
  controls_ok (c', log ++ new).
Proof.
  intros (Hn & Hnav & Hb & Hs & Hl) Hn' Hnav' Hb' Hk. unfold controls_ok.
  split; [done|]. split.
  { intros t i [H | H]%elem_of_app; [by eapply Hnav | by eapply Hnav']. }
  split; [by rewrite bonus_clicks_app|].
  rewrite key_click_times_app.
  destruct Hk as [[-> Hlast] | [-> Hgap]].
  - rewrite app_nil_r, Hlast. done.
  - split.
    + apply spaced_snoc; [done|]. intros a Ha. specialize (Hl a Ha). lia.
    + intros t [H | H]%elem_of_app.
      * specialize (Hl t H). unfold __KEY_MIN_DELAY in Hgap. lia.
      * apply list_elem_of_singleton in H as ->. lia.
Qed.

Lemma input_step_ok (ca : Controls * list (Z * Action)) (i : Input) :
  controls_ok ca → controls_ok (input_step ca i).
Proof.
  destruct ca as [c log]. intros Hok.
  pose proof Hok as (Hn & Hnav & Hb & Hs & Hl).
  destruct i as [typing code repeated shown now | gp shown now];
    unfold input_step.
  - destruct (keydownClick_cases typing code repeated now c)
      as [-> | [Hge ->]];
      match goal with
      | |- context [keydownBonus code shown ?c1] =>
        destruct (keydownBonus_cases code shown c1) as [-> | [Hc ->]]
      end; cbv beta iota zeta;
      (apply (log_extend_ok c); [done | ..]; simpl in *;
       [ done
       | intros t i H; small_list_mem
       | rewrite Hb; try rewrite Hc; by vm_compute
       | first [ by left | right; by split ] ]).
  - unfold pollGamepadNav. destruct gp as [gp|];
      [|cbv beta iota zeta; rewrite app_nil_r; done].
    cbv zeta.
    repeat match goal with
           | |- context [if ?b then _ else _] => destruct b eqn:?
           end;
      cbv beta iota zeta;
      (apply (log_extend_ok c); [done | ..]; simpl in *;
       [ try done; try (by apply rem_next_range);
         try (by apply rem_prev_range);
         try (apply rem_prev_range; by apply rem_next_range)
       | intros t i H; small_list_mem;
         try (by apply rem_next_range); try (by apply rem_prev_range);
         try (apply rem_prev_range; by apply rem_next_range)
       | rewrite Hb; destruct (bonusClaimed c); try done; by vm_compute
       | by left ]).
Qed.

Lemma input_run_ok (ins : list Input) : controls_ok (input_run ins).
Proof.
  unfold input_run. induction ins as [|i ins IH] using rev_ind.
  - simpl. unfold navigable_length. split; [lia|]. split.
    { intros t i H. by apply elem_of_nil in H. }
    split; [done|]. split.
    { intros i j a b _ H. by rewrite lookup_nil in H. }
    intros t H. by apply elem_of_nil in H.
  - rewrite foldl_app. simpl. by apply input_step_ok.
Qed.

Lemma keydownClick_origin typing code repeated now c :
  (keydownClick typing code repeated now c).2 = [] ∨
  ((keydownClick typing code repeated now c).2 = [ClickMain] ∧
   typing = false ∧ repeated = false ∧ (code = "Space" ∨ code = "Enter")).
Proof.
  unfold keydownClick. destruct typing; [by left|].
  destruct (bool_decide_reflect (code = "Space")) as [? | _]; simpl.
  - destruct repeated; [by left|]. destruct (_ <? _); [by left|].
    right. repeat split; auto.
  - destruct (bool_decide_reflect (code = "Enter")) as [? | _]; [|by left].
    destruct repeated; [by left|]. destruct (_ <? _); [by left|].
    right. repeat split; auto.
Qed.

Lemma pollGamepadNav_no_key_click gp shown now c :
  key_click_times ((fun a => (now, a)) <$> (pollGamepadNav gp shown now c).2)
  = [].
Proof.
  unfold pollGamepadNav. destruct gp as [gp|]; [|done]. cbv zeta.
  repeat match goal with
         | |- context [if ?b then _ else _] => destruct b
         end; reflexivity.
Qed.

Lemma input_step_key_click (c : Controls) (log : list (Z * Action))
    (i : Input) (t : Z) :
  t ∈ key_click_times (input_step (c, log) i).2 →
  t ∈ key_click_times log ∨ fresh_click_key t i.
Proof.
  destruct i as [typing code repeated shown now | gp shown now];
    unfold input_step.
  - pose proof (keydownClick_origin typing code repeated now c) as Hk.
    destruct (keydownClick typing code repeated now c) as [c1 a1].
    pose proof (keydownBonus_cases code shown c1) as Hb.
    destruct (keydownBonus code shown c1) as [c2 a2]. simpl in *.
    assert (Ha2 : a2 = [] ∨ a2 = [ClickBonus]).
    { destruct Hb as [Hb | [_ Hb]]; injection Hb as _ <-; auto. }
    rewrite key_click_times_app. intros [Ht | Ht]%elem_of_app; [by left|].
    right. destruct Hk as [-> | (-> & -> & -> & Hcode)];
      destruct Ha2 as [-> | ->]; simpl in Ht;
      try (by apply elem_of_nil in Ht);
      apply list_elem_of_singleton in Ht as ->; done.
  - destruct (pollGamepadNav gp shown now c) as [c1 a] eqn:Hp. simpl.
    rewrite key_click_times_app.
    pose proof (pollGamepadNav_no_key_click gp shown now c) as Hn.
    rewrite Hp in Hn. simpl in Hn. rewrite Hn, app_nil_r. by left.
Qed.

Lemma input_run_key_click (ins : list Input) (t : Z) :
  t ∈ key_click_times (input_run ins).2 → Exists (fresh_click_key t) ins.
Proof.
  unfold input_run. induction ins as [|i ins IH] using rev_ind.
  - simpl. by intros ?%elem_of_nil.
  - rewrite foldl_app. simpl.
    destruct (foldl input_step (controls0, []) ins) as [c log].
    intros [Ht | Ht]%input_step_key_click; apply Exists_app.
    + left. by apply IH.
    + right. by constructor.
Qed.

(** X17.  Keyboard clicks are rate limited and come from fresh key
    presses only: whatever keys are pressed and whatever the gamepad does,
    any two clicks the keyboard makes on the main button are at least 80 ms
    apart, and each of them was made by a press of Space or Enter that was
    not an auto-repeat and arrived outside the text fields, so a key
    repeat, another key or a key typed into an input never clicks. *)
Theorem key_clicks_spaced (ins : list Input) :
  spaced __KEY_MIN_DELAY (key_click_times (input_run ins).2) ∧
  ∀ t, t ∈ key_click_times (input_run ins).2 →
       Exists (fresh_click_key t) ins.
Proof.
  split; [|intros t; apply input_run_key_click].
  pose proof (input_run_ok ins) as H. destruct (input_run ins) as [c log].
  by destruct H as (_ & _ & _ & H & _).
Qed.

(** X18.  The gamepad focus never leaves the seven buttons: after any
    inputs [0 <= navIndex < 7], the stick wrapping around at both ends, and
    every button the A button clicks is one of the seven. *)
Theorem nav_index_in_range (ins : list Input) :
  0 <= navIndex (input_run ins).1 < navigable_length ∧
  ∀ t i, (t, ClickNavigable i) ∈ (input_run ins).2 →
         0 <= i < navigable_length.
Proof.
  pose proof (input_run_ok ins) as H. destruct (input_run ins) as [c log].
  by destruct H as (H1 & H2 & _).
Qed.

(** X19.  Through the B key and the X button the bonus is claimed at most
    once: [bonusClaimed] is set by the first claim and nothing clears it
    ([showBonus], which would, is never called), so later presses do
    nothing even when the bonus button is shown again. *)
Theorem bonus_claimed_once (ins : list Input) :
  (bonus_clicks (input_run ins).2 <= 1)%nat.
Proof.
  pose proof (input_run_ok ins) as H. destruct (input_run ins) as [c log].
  destruct H as (_ & _ & H & _). simpl. rewrite H.
  destruct (bonusClaimed c); lia.
Qed.

(** * Saving, loading, exporting and importing *)

(** ** Loading is a shallow merge *)

Lemma assign_entries_lookup (k : string) (kvs : list (string * JSON))
    (o : gmap string JSON) :
  foldl (fun o kv => <[kv.1 := kv.2]> o) o kvs !! k =
  match foldl (fun o kv => <[kv.1 := kv.2]> o) (∅ : gmap string JSON) kvs !! k
  with
  | Some v => Some v
  | None => o !! k
  end.
Proof.
  induction kvs as [|[k' v] kvs IH] using rev_ind; [done|].
  rewrite !foldl_app. simpl. destruct (decide (k' = k)) as [-> | Hne].
  - by rewrite !lookup_insert_eq.
  - by rewrite !lookup_insert_ne.
Qed.

Lemma Object_assign_lookup (k : string) (s : JSON) (o : gmap string JSON) :
  Object_assign o s !! k =
  match get_prop s k with Some v => Some v | None => o !! k end.
Proof. apply assign_entries_lookup. Qed.

Lemma load_body_other (page : Page) (s : JSON) (o : gmap string JSON)
    (k : string) :
  k ≠ "prestigeCost" →
  loadPersisted page (Parsed s) o !! k = Object_assign o s !! k.
Proof.
  intros Hk. unfold loadPersisted, load_body.
  set (merged := Object_assign o s).
  destruct (negb (achievementList_present page)); [done|].
  destruct (_ && _); [done|].
  destruct (negb (setTheme_defined page)); [done|].
  set (m := if negb _ then _ else merged).
  assert (Hm : m !! k = merged !! k).
  { unfold m. destruct (negb _); [|done]. by rewrite lookup_insert_ne. }
  assert (Hcopy : ∀ k' (st : gmap string JSON),
            st !! k = merged !! k →
            match get_prop s k' with
            | Some v => if truthy v then <[k' := v]> st else st
            | None => st
            end !! k = merged !! k).
  { intros k' st Hst. destruct (get_prop s k') as [v|] eqn:Hg; [|done].
    destruct (truthy v); [|done]. destruct (decide (k' = k)) as [-> | Hne].
    - rewrite lookup_insert_eq. unfold merged.
      by rewrite Object_assign_lookup, Hg.
    - by rewrite lookup_insert_ne. }
  destruct s; try done; by repeat apply Hcopy.
Qed.

Lemma load_body_price (page : Page) (s : JSON) (o : gmap string JSON) :
  let merged := Object_assign o s in
  loadPersisted page (Parsed s) o !! "prestigeCost" =
  if reaches_migration page merged &&
     negb (truthy_prop (merged !! "prestigeCost"))
  then Some (JNum 20000)
  else merged !! "prestigeCost".
Proof.
  intros merged. unfold loadPersisted, load_body, reaches_migration.
  fold merged.
  destruct (achievementList_present page); simpl; [|done].
  destruct (truthy_prop (merged !! "musicOn")), (music_plays page); simpl;
    try done;
    (destruct (setTheme_defined page); simpl; [|done]);
    set (m := if negb _ then _ else merged);
    (assert (Hm : m !! "prestigeCost" =
                  if negb (truthy_prop (merged !! "prestigeCost"))
                  then Some (JNum 20000) else merged !! "prestigeCost")
       by (unfold m; destruct (negb _); [by rewrite lookup_insert_eq | done]));
    (assert (Hcopy : ∀ k' (st : gmap string JSON),
               k' ≠ "prestigeCost" →
               match get_prop s k' with
               | Some v => if truthy v then <[k' := v]> st else st
               | None => st
               end !! "prestigeCost" = st !! "prestigeCost")
       by (intros k' st Hk'; destruct (get_prop s k') as [v|]; [|done];
           destruct (truthy v); [|done]; by rewrite lookup_insert_ne));
    destruct s; rewrite ?Hcopy by done; done.
Qed.




(** X20.  Loading a parsed save is a shallow merge on every page, whether
    or not the body of the [try] throws: each property of the save
    overwrites the property of that name, and every other property of the
    state keeps its value.  The prestige price is the one exception, where
    a falsy merged value becomes 20000 if the migration line is reached. *)
Theorem load_is_shallow_merge (page : Page) (s : JSON)
    (o : gmap string JSON) (k : string) :
  no_proto s →
  k ≠ "prestigeCost" →
  loadPersisted page (Parsed s) o !! k =
  match get_prop s k with Some v => Some v | None => o !! k end.
Proof.
  intros _ Hk. rewrite load_body_other by done. apply Object_assign_lookup.
Qed.

(** A save with a score and a nested daily object: both overwrite, the
    multiplier is kept. *)
Lemma load_is_shallow_merge_witness :
  let save := JObj [("score", JNum 42);
                    ("daily", JObj [("active", JBool true)])] in
  let o := loadPersisted (mkPage true true false) (Parsed save)
             default_state_object in
  o !! "score" = Some (JNum 42) ∧
  o !! "daily" = Some (JObj [("active", JBool true)]) ∧
  o !! "multiplier" = Some (JNum 1).
Proof.
  intros save o. subst o.
  rewrite !load_is_shallow_merge by (discriminate || (apply (bool_decide_unpack _); by vm_compute)).
  by vm_compute.
Defined.

(** X21.  Loading twice is loading once: a second [loadPersisted] of the
    same stored content on the same page changes nothing, so the three
    loads the start-up performs amount to one. *)
Theorem load_idempotent (page : Page) (stored : Stored)
    (o : gmap string JSON) :
  (∀ s, stored = Parsed s → no_proto s) →
  loadPersisted page stored (loadPersisted page stored o)
  = loadPersisted page stored o.
Proof.
  intros _. destruct stored as [| |s]; [done | done |].
  apply map_eq. intros k.
  assert (Hother : ∀ k', k' ≠ "prestigeCost" →
            Object_assign (loadPersisted page (Parsed s) o) s !! k'
            = Object_assign o s !! k').
  { intros k' Hk'. rewrite !Object_assign_lookup.
    destruct (get_prop s k') eqn:Hg; [done|].
    by rewrite load_body_other, Object_assign_lookup, Hg by done. }
  destruct (decide (k = "prestigeCost")) as [-> | Hk].
  - rewrite (load_body_price page s (loadPersisted page (Parsed s) o)).
    cbv zeta. unfold reaches_migration. rewrite Hother by discriminate.
    fold (reaches_migration page (Object_assign o s)).
    rewrite (Object_assign_lookup "prestigeCost" s (loadPersisted _ _ _)).
    rewrite (load_body_price page s o). cbv zeta.
    rewrite (Object_assign_lookup "prestigeCost" s o).
    destruct (get_prop s "prestigeCost") as [v|]; [done|].
    destruct (reaches_migration page (Object_assign o s)); simpl; [|done].
    destruct (truthy_prop (o !! "prestigeCost")) eqn:Ht; simpl.
    + by rewrite Ht.
    + done.
  - rewrite !load_body_other by done. by apply Hother.
Qed.

(** A save with a zero price, loaded twice on a page where the body runs
    to its end. *)
Lemma load_idempotent_witness :
  let stored := Parsed (JObj [("score", JNum 7); ("prestigeCost", JNum 0)]) in
  let page := mkPage true true true in
  loadPersisted page stored (loadPersisted page stored default_state_object)
  = loadPersisted page stored default_state_object.
Proof.
  intros stored page. apply load_idempotent.
  intros s [= <-]. apply (bool_decide_unpack _). by vm_compute.
Defined.

(** ** Saving and reloading *)

Lemma assign_entries_NoDup (kvs : list (string * JSON)) (k : string)
    (v : JSON) :
  NoDup kvs.*1 →
  foldl (fun o kv => <[kv.1 := kv.2]> o) (∅ : gmap string JSON) kvs !! k
    = Some v
  ↔ (k, v) ∈ kvs.
Proof.
  induction kvs as [|[k' v'] kvs IH] using rev_ind; intros Hnd.
  - simpl. rewrite lookup_empty. split; [done | by intros ?%elem_of_nil].
  - rewrite fmap_app in Hnd. apply NoDup_app in Hnd as (Hnd & Hdisj & _).
    rewrite foldl_app. simpl. rewrite elem_of_app, list_elem_of_singleton.
    destruct (decide (k' = k)) as [-> | Hne].
    + rewrite lookup_insert_eq. split.
      * intros [= ->]. by right.
      * intros [Hin | [= ->]]; [|done]. exfalso. apply (Hdisj k).
        -- apply list_elem_of_fmap. by exists (k, v).
        -- simpl. apply list_elem_of_singleton. done.
    + rewrite lookup_insert_ne by done. rewrite IH by done.
      split; [by left | intros [? | [= ? ?]]; [done | congruence]].
Qed.

Lemma get_prop_map_to_list (m : gmap string JSON) (k : string) :
  get_prop (JObj (map_to_list m)) k = m !! k.
Proof.
  unfold get_prop. simpl. apply option_eq. intros v.
  rewrite assign_entries_NoDup by apply NoDup_fst_map_to_list.
  apply elem_of_map_to_list.
Qed.

Lemma get_prop_picked (ks : list string) (g : string → option JSON)
    (k : string) :
  get_prop (JObj (omap (fun k' => (fun v => (k', v)) <$> g k') ks)) k
  = if bool_decide (k ∈ ks) then g k else None.
Proof.
  unfold get_prop. simpl.
  induction ks as [|k' ks IH] using rev_ind; [done|].
  rewrite omap_app, foldl_app. simpl.
  destruct (decide (k = k')) as [-> | Hne].
  - rewrite (bool_decide_eq_true_2 (k' ∈ ks ++ [k']))
      by (apply elem_of_app; right; by apply list_elem_of_singleton).
    destruct (g k') as [v|] eqn:Hg; simpl.
    + by rewrite lookup_insert_eq.
    + rewrite IH. by destruct (bool_decide _).
  - assert (Hmem : bool_decide (k ∈ ks ++ [k']) = bool_decide (k ∈ ks)).
    { apply bool_decide_ext. rewrite elem_of_app, list_elem_of_singleton.
      split; [by intros [? | ?] | by left]. }
    rewrite Hmem. destruct (g k') as [v|]; simpl; [|done].
    by rewrite lookup_insert_ne.
Qed.

Lemma get_prop_persist (volumes : JSON) (state : gmap string JSON)
    (k : string) :
  get_prop (persist volumes state) k =
  if bool_decide (k = "volumes") then Some volumes
  else if bool_decide (k ∈ persist_keys) then state !! k
  else None.
Proof.
  unfold persist.
  assert (Hext : ∀ ks : list string,
            omap (fun k' =>
                    if bool_decide (k' = "volumes") then Some (k', volumes)
                    else (fun v => (k', v)) <$> state !! k') ks
            = omap (fun k' => (fun v => (k', v)) <$>
                      (if bool_decide (k' = "volumes") then Some volumes
                       else state !! k')) ks).
  { induction ks as [|k' ks IH]; [done|]. unfold omap in *. simpl.
    rewrite IH. by destruct (bool_decide (k' = "volumes")). }
  rewrite Hext, get_prop_picked.
  by destruct (bool_decide_reflect (k = "volumes")) as [-> | Hne].
Qed.

Lemma load_of_persist (page : Page) (volumes : JSON)
    (game o : gmap string JSON) (k : string) :
  (k = "prestigeCost" → truthy_prop (game !! k) = true) →
  loadPersisted page (Parsed (persist volumes game)) o !! k =
  if bool_decide (k = "volumes") then Some volumes
  else if bool_decide (k ∈ persist_keys) then
    match game !! k with Some v => Some v | None => o !! k end
  else o !! k.
Proof.
  intros Hprice. destruct (decide (k = "prestigeCost")) as [-> | Hk].
  - rewrite load_body_price. cbv zeta.
    rewrite Object_assign_lookup, get_prop_persist.
    specialize (Hprice eq_refl).
    rewrite (bool_decide_eq_false_2 ("prestigeCost" = "volumes")) by done.
    rewrite (bool_decide_eq_true_2 ("prestigeCost" ∈ persist_keys))
      by (apply (bool_decide_unpack _); by vm_compute).
    destruct (game !! "prestigeCost") as [v|]; [|done]. simpl in Hprice.
    simpl. rewrite Hprice. simpl. by rewrite andb_false_r.
  - rewrite load_body_other, Object_assign_lookup, get_prop_persist by done.
    destruct (bool_decide (k = "volumes")); [done|].
    by destruct (bool_decide (k ∈ persist_keys)).
Qed.

(** X22.  What a reload gives back.  After [persist()] of a game and a
    later [loadPersisted()] into whatever state object the page then has
    (the defaults, after a reload), every property of the save literal that
    the game defined has the value the game had (a falsy prestige price
    apart), and the properties the literal leaves out (the timed session,
    [lastClickTime], ...) keep the value of the page's object. *)
Theorem persist_then_load (page : Page) (volumes : JSON)
    (game o : gmap string JSON) (k : string) :
  (∀ v, k ∈ persist_keys → k ≠ "volumes" → game !! k = Some v →
        (k = "prestigeCost" → truthy v = true) →
        loadPersisted page (Parsed (persist volumes game)) o !! k = Some v) ∧
  (k ∉ persist_keys →
   loadPersisted page (Parsed (persist volumes game)) o !! k = o !! k).
Proof.
  split.
  - intros v Hk Hv Hg Hprice. rewrite load_of_persist.
    + rewrite bool_decide_eq_false_2, bool_decide_eq_true_2 by done.
      by rewrite Hg.
    + intros Hp. rewrite Hg. by apply Hprice.
  - intros Hk. rewrite load_of_persist.
    + rewrite (bool_decide_eq_false_2 (k ∈ persist_keys)) by done.
      rewrite bool_decide_eq_false_2; [done|].
      intros ->. apply Hk. apply (bool_decide_unpack _). by vm_compute.
    + intros ->. exfalso. apply Hk. apply (bool_decide_unpack _).
      by vm_compute.
Qed.

(** A game with 42 points and a running timed session, reloaded into the
    defaults: the score comes back, the session does not. *)
Lemma persist_then_load_witness :
  let game := <["score" := JNum 42]>
              (<["timedActive" := JBool true]> default_state_object) in
  let o := loadPersisted (mkPage true true true)
             (Parsed (persist (JObj []) game)) default_state_object in
  o !! "score" = Some (JNum 42) ∧
  o !! "timedActive" = Some (JBool false) ∧
  o !! "prestigeCost" = Some (JNum 20000).
Proof.
  intros game o. subst o. split; [|split].
  - apply (proj1 (persist_then_load _ _ game _ "score"));
      [apply (bool_decide_unpack _); by vm_compute | done | by vm_compute
      | done].
  - rewrite (proj2 (persist_then_load _ _ game _ "timedActive"));
      [by vm_compute|].
    apply (bool_decide_unpack _). by vm_compute.
  - apply (proj1 (persist_then_load _ _ game _ "prestigeCost"));
      [apply (bool_decide_unpack _); by vm_compute | done | by vm_compute
      | done].
Defined.

(** X23.  Saving a game and loading the save straight back changes
    nothing but [volumes] and a falsy prestige price: [persist();
    loadPersisted()] is the identity on every other property. *)
Theorem save_and_reload_is_identity (page : Page) (volumes : JSON)
    (game : gmap string JSON) (k : string) :
  k ≠ "volumes" →
  (k = "prestigeCost" → truthy_prop (game !! k) = true) →
  loadPersisted page (Parsed (persist volumes game)) game !! k = game !! k.
Proof.
  intros Hv Hprice. rewrite load_of_persist by done.
  rewrite bool_decide_eq_false_2 by done.
  destruct (bool_decide _); [|done]. by destruct (game !! k).
Qed.

Lemma save_and_reload_is_identity_witness :
  let game := <["score" := JNum 42]> default_state_object in
  loadPersisted (mkPage true false false) (Parsed (persist JNull game))
    game !! "score" = Some (JNum 42).
Proof.
  intros game.
  rewrite save_and_reload_is_identity; [by vm_compute | done | done].
Defined.

(** ** Export and import *)

Lemma import_merge_lookup (state : gmap string JSON) (parsed : JSON)
    (k : string) :
  import_merge state parsed !! k =
  if bool_decide (k ∈ audio_keys) then state !! k
  else match get_prop (incomingState parsed) k with
       | Some v => Some v
       | None => state !! k
       end.
Proof.
  unfold import_merge, get_prop.
  induction (own_entries (incomingState parsed)) as [|[k' v] kvs IH]
    using rev_ind.
  - simpl. rewrite lookup_empty. by destruct (bool_decide _).
  - rewrite !foldl_app. simpl.
    destruct (bool_decide_reflect (k' ∈ audio_keys)) as [Hskip | Hkeep].
    + rewrite IH.
      destruct (bool_decide_reflect (k ∈ audio_keys)) as [? | Hk]; [done|].
      rewrite lookup_insert_ne; [done|]. by intros ->.
    + destruct (decide (k' = k)) as [-> | Hne].
      * rewrite !lookup_insert_eq. by rewrite bool_decide_eq_false_2.
      * by rewrite !lookup_insert_ne.
Qed.

Lemma incomingState_export (exportedAt : string) (scores : JSON)
    (game : gmap string JSON) :
  ∃ exported : gmap string JSON,
    incomingState (export_snapshot exportedAt scores game)
    = JObj (map_to_list exported) ∧
    ∀ k, k ∉ audio_keys → exported !! k = game !! k.
Proof.
  unfold export_snapshot. cbv zeta.
  set (e4 := delete "soundOn" _).
  set (e5 := if truthy_prop (e4 !! "volumes") then _ else e4).
  exists e5. split.
  - unfold incomingState, get_prop. simpl.
    rewrite lookup_insert_ne by done. by rewrite lookup_insert_eq.
  - intros k Hk.
    assert (k ≠ "soundVolumes" ∧ k ≠ "soundType" ∧ k ≠ "musicOn" ∧
            k ≠ "soundOn" ∧ k ≠ "volumes") as (? & ? & ? & ? & ?).
    { unfold audio_keys in Hk. rewrite !not_elem_of_cons in Hk.
      by destruct Hk as (? & ? & ? & ? & ? & _). }
    assert (He4 : e4 !! k = game !! k)
      by (unfold e4; by rewrite !lookup_delete_ne).
    unfold e5. destruct (truthy_prop _); [|done].
    by rewrite lookup_delete_ne.
Qed.

(** X24.  Export followed by import carries a game over.  When the file
    written by the export button is merged by the import handler into the
    state object [o] of another page, every property the exported game had
    has the exported value, except the five audio properties, which keep
    the value of [o], as does every property the exported game lacked. *)
Theorem export_import_round_trip (exportedAt : string) (scores : JSON)
    (game o : gmap string JSON) (k : string) :
  game !! "__proto__" = None →
  import_merge o (export_snapshot exportedAt scores game) !! k =
  if bool_decide (k ∈ audio_keys) then o !! k
  else match game !! k with Some v => Some v | None => o !! k end.
Proof.
  intros _. rewrite import_merge_lookup.
  destruct (bool_decide_reflect (k ∈ audio_keys)) as [? | Hk]; [done|].
  destruct (incomingState_export exportedAt scores game) as (e & -> & He).
  by rewrite get_prop_map_to_list, He.
Qed.

(** A game with 42 points and the music on, imported into the defaults:
    the score arrives, the music setting does not. *)
Lemma export_import_round_trip_witness :
  let game := <["score" := JNum 42]>
              (<["musicOn" := JBool true]> default_state_object) in
  let o := import_merge default_state_object
             (export_snapshot "2025-01-01T00:00:00.000Z" (JArr []) game) in
  o !! "score" = Some (JNum 42) ∧ o !! "musicOn" = Some (JBool false).
Proof.
  intros game o. subst o.
  rewrite !export_import_round_trip by (by vm_compute). by vm_compute.
Defined.

(** X25.  An import made more than a second after the last write is
    saved at once and survives the reload the handler then performs: the
    stored save is the merged state, and the state after the handler is
    the merged state on every property but [volumes] (and a falsy
    prestige price). *)
Theorem import_saved_when_throttle_open (page : Page) (volumes : JSON)
    (now : Z) (parsed : JSON) (state : gmap string JSON) (stored : Stored)
    (t : Throttle) :
  no_proto (incomingState parsed) →
  PERSIST_THROTTLE_MS < now - __lastPersist t →
  let merged := import_merge state parsed in
  let '(state', stored', t') :=
    import_file page volumes now (Some parsed) (state, stored, t) in
  stored' = Parsed (persist volumes merged) ∧
  writes t' = writes t ++ [now] ∧
  ∀ k, k ≠ "volumes" →
       (k = "prestigeCost" → truthy_prop (merged !! k) = true) →
       state' !! k = merged !! k.
Proof.
  intros _ Hopen merged. unfold import_file, throttlePersist.
  apply Z.ltb_lt in Hopen. rewrite Hopen. fold merged.
  split; [done|]. split; [done|]. intros k Hv Hprice.
  rewrite load_of_persist by done.
  rewrite bool_decide_eq_false_2 by done.
  destruct (bool_decide _); [|done]. by destruct (merged !! k).
Qed.

Lemma import_saved_when_throttle_open_witness :
  let file := JObj [("state", JObj [("score", JNum 42)])] in
  let '(state', stored', t') :=
    import_file (mkPage true true false) JNull 5000 (Some file)
      (default_state_object, Absent, throttle0) in
  state' !! "score" = Some (JNum 42).
Proof.
  intros file.
  pose proof (import_saved_when_throttle_open (mkPage true true false)
                JNull 5000 file default_state_object Absent throttle0) as H.
  cbv zeta in H.
  destruct (import_file _ _ _ _ _) as [[state' stored'] t'].
  destruct H as (_ & _ & H);
    [apply (bool_decide_unpack _); by vm_compute | by vm_compute |].
  rewrite H; [by vm_compute | done | done].
Defined.

(** X26.  An import made within a second of the last write is undone by
    the handler's own reload.  The write is deferred, so [loadPersisted()]
    merges the save that was stored before the import over the imported
    state: every property that save has is back at its stored value,
    whatever the file contained. *)
Theorem import_undone_when_throttled (page : Page) (volumes : JSON)
    (now : Z) (parsed s : JSON) (state : gmap string JSON) (t : Throttle)
    (k : string) (v : JSON) :
  no_proto (incomingState parsed) →
  no_proto s →
  now - __lastPersist t <= PERSIST_THROTTLE_MS →
  get_prop s k = Some v →
  (k = "prestigeCost" → truthy v = true) →
  let '(state', stored', t') :=
    import_file page volumes now (Some parsed) (state, Parsed s, t) in
  state' !! k = Some v ∧ stored' = Parsed s ∧ writes t' = writes t.
Proof.
  intros _ _ Hshut Hs Hprice. unfold import_file, throttlePersist.
  assert (Hltb : (PERSIST_THROTTLE_MS <? now - __lastPersist t) = false)
    by (apply Z.ltb_ge; lia).
  rewrite Hltb. split; [|split; [done | by destruct (negb _)]].
  destruct (decide (k = "prestigeCost")) as [-> | Hk].
  - rewrite load_body_price. cbv zeta. rewrite Object_assign_lookup, Hs.
    simpl. rewrite Hprice by done. simpl. by rewrite andb_false_r.
  - by rewrite load_body_other, Object_assign_lookup, Hs.
Qed.

(** The stored save has 10 points, the file 42, and the last write was
    400 ms ago: the score after the import is 10. *)
Lemma import_undone_when_throttled_witness :
  let file := JObj [("state", JObj [("score", JNum 42)])] in
  let save := JObj [("score", JNum 10)] in
  let t := mkThrottle 4600 false [] [4600] in
  let '(state', stored', t') :=
    import_file (mkPage true true false) JNull 5000 (Some file)
      (default_state_object, Parsed save, t) in
  state' !! "score" = Some (JNum 10).
Proof.
  intros file save t.
  pose proof (import_undone_when_throttled (mkPage true true false)
                JNull 5000 file save default_state_object t
                "score" (JNum 10)) as H.
  destruct (import_file _ _ _ _ _) as [[state' stored'] t'].
  destruct H as (H & _ & _);
    [apply (bool_decide_unpack _); by vm_compute
    |apply (bool_decide_unpack _); by vm_compute
    |by vm_compute | by vm_compute | done |].
  exact H.
Defined.

(** ** The leaderboard *)

Lemma insert_sorted_perm (cmp : ScoreEntry → ScoreEntry → Z) (e : ScoreEntry)
    (l : list ScoreEntry) :
  insert_sorted cmp e l ≡ₚ e :: l.
Proof.
  induction l as [|y l IH]; [done|]. simpl.
  destruct (0 <? cmp e y); [|done]. rewrite IH. apply Permutation_swap.
Qed.

Lemma Array_sort_perm (cmp : ScoreEntry → ScoreEntry → Z)
    (l : list ScoreEntry) :
  Array_sort cmp l ≡ₚ l.
Proof.
  induction l as [|x l IH]; [done|]. unfold Array_sort in *. simpl.
  by rewrite insert_sorted_perm, IH.
Qed.

Lemma insert_sorted_descending (e : ScoreEntry) (l : list ScoreEntry) :
  descending l → descending (insert_sorted by_score e l).
Proof.
  induction l as [|y l IH]; intros Hl.
  - simpl. by split.
  - destruct Hl as [Hy Hl]. simpl. unfold by_score at 1.
    destruct (Z.ltb_spec 0 (entry_score y - entry_score e)) as [Hlt | Hge].
    + split; [|by apply IH]. rewrite insert_sorted_perm.
      constructor; [lia | done].
    + split; [|by split]. constructor; [lia|].
      eapply Forall_impl; [exact Hy|]. simpl. intros z Hz. lia.
Qed.

Lemma Array_sort_descending (l : list ScoreEntry) :
  descending (Array_sort by_score l).
Proof.
  induction l as [|x l IH]; [done|]. by apply insert_sorted_descending.
Qed.

Lemma descending_app (l1 l2 : list ScoreEntry) :
  descending (l1 ++ l2) →
  descending l1 ∧ descending l2 ∧
  ∀ e d, e ∈ l1 → d ∈ l2 → entry_score d <= entry_score e.
Proof.
  induction l1 as [|x l1 IH]; simpl.
  - intros Hl. split; [done|]. split; [done|]. by intros e d ?%elem_of_nil.
  - intros [Hx Hl]. apply Forall_app in Hx as [Hx1 Hx2].
    destruct (IH Hl) as (H1 & H2 & H12). split; [by split|]. split; [done|].
    intros e d [-> | He]%elem_of_cons Hd.
    + by apply (proj1 (Forall_forall _ _) Hx2).
    + by apply H12.
Qed.

(** X27.  The leaderboard [saveScore()] writes has at most ten entries and
    is in descending order of score, whatever array was stored before. *)
Theorem scoreboard_sorted_top10 (name : string) (score : Z)
    (scores : option (list ScoreEntry)) :
  (length (saveScore name score scores) <= 10)%nat ∧
  descending (saveScore name score scores).
Proof.
  unfold saveScore. split.
  - rewrite length_take. lia.
  - set (l := Array_sort by_score _).
    pose proof (Array_sort_descending (default [] scores
                                       ++ [mkScoreEntry name score])) as Hd.
    fold l in Hd. rewrite <- (take_drop 10 l) in Hd.
    by apply descending_app in Hd as (? & _ & _).
Qed.

(** X28.  [saveScore()] keeps the best: the stored entries and the new one
    are exactly the entries written back plus the entries dropped, and no
    dropped entry has a higher score than an entry written back. *)
Theorem scoreboard_keeps_the_best (name : string) (score : Z)
    (scores : option (list ScoreEntry)) :
  ∃ dropped : list ScoreEntry,
    default [] scores ++ [mkScoreEntry name score]
      ≡ₚ saveScore name score scores ++ dropped ∧
    ∀ e d, e ∈ saveScore name score scores → d ∈ dropped →
           entry_score d <= entry_score e.
Proof.
  unfold saveScore. set (l := Array_sort by_score _).
  exists (drop 10 l). split.
  - rewrite take_drop. unfold l. by rewrite Array_sort_perm.
  - pose proof (Array_sort_descending (default [] scores
                                       ++ [mkScoreEntry name score])) as Hd.
    fold l in Hd. rewrite <- (take_drop 10 l) in Hd.
    by apply descending_app in Hd as (_ & _ & ?).
Qed.

Lemma insert_sorted_before (e : ScoreEntry) (hi r : list ScoreEntry)
    (y : ScoreEntry) :
  entry_score y <= entry_score e →
  insert_sorted by_score e (hi ++ y :: r)
  = insert_sorted by_score e hi ++ y :: r.
Proof.
  intros Hy. induction hi as [|x hi IH]; simpl.
  - unfold by_score.
    destruct (Z.ltb_spec 0 (entry_score y - entry_score e)); [lia | done].
  - destruct (0 <? by_score e x); [|done]. by rewrite IH.
Qed.

Lemma insert_sorted_behind (e : ScoreEntry) (hi r : list ScoreEntry) :
  Forall (fun x => entry_score e < entry_score x) hi →
  insert_sorted by_score e (hi ++ r) = hi ++ insert_sorted by_score e r.
Proof.
  induction 1 as [|x hi Hx _ IH]; [done|]. simpl. unfold by_score at 1.
  destruct (Z.ltb_spec 0 (entry_score x - entry_score e)); [|lia].
  by rewrite IH.
Qed.

Lemma Array_sort_scores (P : ScoreEntry → Prop) (l : list ScoreEntry) :
  Forall P l → Forall P (Array_sort by_score l).
Proof. intros Hl. by rewrite Array_sort_perm. Qed.

Lemma Array_sort_snoc (new : ScoreEntry) (l : list ScoreEntry) :
  Array_sort by_score (l ++ [new]) =
  Array_sort by_score
    (filter (fun e => entry_score new <= entry_score e) l)
  ++ new ::
  Array_sort by_score
    (filter (fun e => ¬ entry_score new <= entry_score e) l).
Proof.
  induction l as [|x l IH]; [done|].
  change (Array_sort by_score ((x :: l) ++ [new]))
    with (insert_sorted by_score x (Array_sort by_score (l ++ [new]))).
  rewrite IH. rewrite !filter_cons.
  destruct (decide (entry_score new <= entry_score x)) as [Hx | Hx].
  - rewrite decide_False by lia.
    by rewrite insert_sorted_before.
  - rewrite decide_True by done.
    rewrite insert_sorted_behind.
    + simpl.
      assert (Hlt : (0 <? by_score x new) = true)
        by (apply Z.ltb_lt; unfold by_score; lia).
      by rewrite Hlt.
    + apply Array_sort_scores, Forall_forall.
      intros e [He _]%list_elem_of_filter. lia.
Qed.

(** X29.  Where a new score lands.  In the sorted array the new entry
    stands directly behind the stored entries with at least its score:
    with fewer than ten of those it is written at that rank, and with ten
    or more it is not recorded, so a score that only ties the tenth place
    does not displace it. *)
Theorem scoreboard_rank_of_new_entry (name : string) (score : Z)
    (scores : option (list ScoreEntry)) :
  let better :=
    filter (fun e => score <= entry_score e) (default [] scores) in
  ((length better < 10)%nat →
     saveScore name score scores !! length better
     = Some (mkScoreEntry name score)) ∧
  ((10 <= length better)%nat →
     saveScore name score scores = take 10 (Array_sort by_score better)).
Proof.
  intros better. unfold saveScore.
  rewrite (Array_sort_snoc (mkScoreEntry name score)). simpl. fold better.
  assert (Hlen : length (Array_sort by_score better) = length better)
    by (by rewrite Array_sort_perm).
  split; intros H.
  - rewrite lookup_take_lt by done.
    rewrite lookup_app_r by lia. by rewrite Hlen, Nat.sub_diag.
  - rewrite take_app_le by lia. done.
Qed.

(** An empty board: the first score is written at rank 0; a board of ten
    entries of 5 points does not record an eleventh. *)
Lemma scoreboard_rank_of_new_entry_witness :
  saveScore "ash" 7 None !! 0%nat = Some (mkScoreEntry "ash" 7) ∧
  saveScore "ash" 5 (Some (replicate 10 (mkScoreEntry "gary" 5)))
  = replicate 10 (mkScoreEntry "gary" 5).
Proof.
  split.
  - apply (scoreboard_rank_of_new_entry "ash" 7 None). simpl. lia.
  - rewrite (proj2 (scoreboard_rank_of_new_entry "ash" 5
                      (Some (replicate 10 (mkScoreEntry "gary" 5)))));
      [reflexivity | simpl; lia].
Defined.
